(** * Delimited-data ingestion pipeline of the dashboard front end

    A shallow embedding of the grid branch of [handleFileUpload] and of its
    helper [detectDelimiter] (frontend/src/App.tsx), together with the
    ECMAScript string built-ins the branch calls ([split], [trim],
    [toLowerCase], [replace], [slice], [join], [parseInt], [parseFloat]).

    Conventions of the embedding:
    - a JavaScript string is a [string]: a sequence of code units, each below
      256 (the Latin-1 part of UTF-16);
    - a one-character separator string (the newline, the detected delimiter)
      is represented by its character;
    - a [Map] is a finite map keyed by strings; a plain object used as a
      record of cells is the finite map of its own properties together with
      its prototype, which decides what an assignment to [__proto__] does;
    - a Number is an IEEE 754 double; [parseInt] and [parseFloat] round the
      numeral they read to the nearest double, ties to the even one;
    - [Intl.NumberFormat] is embedded for the locale and the options the grid
      passes, as the ICU library computes it;
    - a function object is known by its address in the store: evaluating an
      arrow function makes one that was not there before;
    - the schema inference service is a parameter of the pipeline. *)

From Stdlib Require Import ZArith NArith Ascii String List Bool Lia Permutation.
From stdpp Require Import base list strings gmap.

Local Open Scope bool_scope.

(* ===================================================================== *)
(** ** Characters and strings                                             *)
(* ===================================================================== *)

Module Js.

(** Line feed, the separator of [split('\n')] and [join('\n')]. *)
Definition LF : ascii := "010"%char.

(** WhiteSpace and LineTerminator code units below 256: TAB, LF, VT, FF, CR,
    SP and NBSP.  This is the set removed by [trim], matched by [\s] and
    skipped by [parseInt] and [parseFloat]. *)
Definition isWhiteSpace (c : ascii) : bool :=
  let n := N_of_ascii c in
  ((9 <=? n)%N && (n <=? 13)%N) || (n =? 32)%N || (n =? 160)%N.

Definition isDigit (c : ascii) : bool :=
  let n := N_of_ascii c in (48 <=? n)%N && (n <=? 57)%N.

Definition isEmpty (s : string) : bool :=
  match s with EmptyString => true | String _ _ => false end.

(** [s.length > 0], also the truthiness of a string. *)
Definition truthy (s : string) : bool := negb (isEmpty s).

Fixpoint trimStart (s : string) : string :=
  match s with
  | EmptyString => EmptyString
  | String c r => if isWhiteSpace c then trimStart r else s
  end.

Fixpoint trimEnd (s : string) : string :=
  match s with
  | EmptyString => EmptyString
  | String c r =>
      let r' := trimEnd r in
      if isWhiteSpace c && isEmpty r' then EmptyString else String c r'
  end.

(** [String.prototype.trim]. *)
Definition trim (s : string) : string := trimEnd (trimStart s).

(** [s.split(sep)] for a one-character separator: always at least one
    field, one more field than there are separators. *)
Fixpoint split (sep : ascii) (s : string) : list string :=
  match s with
  | EmptyString => [EmptyString]
  | String c r =>
      if Ascii.eqb c sep then EmptyString :: split sep r
      else match split sep r with
           | f :: fs => String c f :: fs
           | [] => [String c EmptyString]
           end
  end.

(** [l.join(sep)] for a one-character separator. *)
Fixpoint join (sep : ascii) (l : list string) : string :=
  match l with
  | [] => EmptyString
  | [x] => x
  | x :: r => (x +:+ String sep (join sep r))
  end.

(** [(s.match(/c/g) || []).length]: the number of occurrences of [c]. *)
Fixpoint countChar (c : ascii) (s : string) : nat :=
  match s with
  | EmptyString => 0
  | String a r => (if Ascii.eqb a c then 1 else 0) + countChar c r
  end.

(** Lower-casing of one code unit below 256: A-Z, and the Latin-1 capitals
    192..222 except the multiplication sign 215, move up by 32. *)
Definition lowerChar (c : ascii) : ascii :=
  let n := N_of_ascii c in
  if ((65 <=? n)%N && (n <=? 90)%N)
     || ((192 <=? n)%N && (n <=? 222)%N && negb (n =? 215)%N)
  then ascii_of_N (n + 32) else c.

Fixpoint toLowerCase (s : string) : string :=
  match s with
  | EmptyString => EmptyString
  | String c r => String (lowerChar c) (toLowerCase r)
  end.

(** [s.replace(/[_\s]/g, '')]. *)
Fixpoint stripUnderscoreSpace (s : string) : string :=
  match s with
  | EmptyString => EmptyString
  | String c r =>
      if Ascii.eqb c "_"%char || isWhiteSpace c then stripUnderscoreSpace r
      else String c (stripUnderscoreSpace r)
  end.

(** [forall c in s, isWhiteSpace c]. *)
Fixpoint allWhiteSpace (s : string) : bool :=
  match s with
  | EmptyString => true
  | String c r => isWhiteSpace c && allWhiteSpace r
  end.

End Js.

(* ===================================================================== *)
(** ** detectDelimiter                                                    *)
(* ===================================================================== *)

(** [content.split('\n')[0]]; [split] never returns an empty array. *)
Definition firstLine (content : string) : string :=
  match Js.split Js.LF content with
  | l :: _ => l
  | [] => EmptyString
  end.

Definition detectDelimiter (content : string) : ascii :=
  let firstLine := firstLine content in
  let pipeCount := Js.countChar "|"%char firstLine in
  let commaCount := Js.countChar ","%char firstLine in
  if commaCount <? pipeCount then "|"%char else ","%char.

(** How often a character occurs in a string, counted on the list of its
    characters. *)
Definition occurrences (c : ascii) (s : string) : nat :=
  length (List.filter (fun a => bool_decide (a = c)) (list_ascii_of_string s)).

(* ===================================================================== *)
(** ** Numbers                                                            *)
(* ===================================================================== *)

(** A Number: an IEEE 754 double.  [Finite neg m e] is the number
    [(-1)^neg * m * 2^e], written the one way the format has for it: either
    [2^52 <= m < 2^53] and [-1074 <= e <= 971] (a normal number), or
    [m < 2^52] and [e = -1074] (a subnormal number or a zero). *)
Inductive number : Type :=
| NaN
| Infinity (negative : bool)
| Finite (negative : bool) (significand : N) (exponent : Z).

#[global] Instance number_eq_dec : EqDecision number.
Proof. solve_decision. Defined.

Module Double.

(** The integer nearest to [a / b], the even one of two equally near. *)
Definition roundHalfEven (a b : N) : N :=
  let q := (a / b)%N in
  match (2 * (a mod b) ?= b)%N with
  | Lt => q
  | Gt => (q + 1)%N
  | Eq => if N.even q then q else (q + 1)%N
  end.

Definition pow2 (k : Z) : N := (2 ^ Z.to_N k)%N.

Definition pow10 (k : Z) : N := (10 ^ Z.to_N k)%N.

(** Whether [2^k <= a / b]. *)
Definition atLeastPow2 (a b : N) (k : Z) : bool :=
  if (0 <=? k)%Z then (b * pow2 k <=? a)%N else (b <=? a * pow2 (- k))%N.

(** The [k] with [2^k <= a / b < 2^(k+1)], for positive [a] and [b]: the
    difference of the two binary logarithms, or one less. *)
Definition binaryExponent (a b : N) : Z :=
  let k := (Z.of_N (N.log2 a) - Z.of_N (N.log2 b))%Z in
  if atLeastPow2 a b k then k else (k - 1)%Z.

(** The double nearest to [(-1)^negative * a / b], for positive [b]: the
    quotient is cut to 53 significant bits, or to the multiple of [2^-1074]
    below the normal range, and rounded to nearest, ties to even; a
    significand that rounds up to [2^53] moves to the next exponent, and
    past the largest exponent the result is an infinity. *)
Definition nearest (negative : bool) (a b : N) : number :=
  if (a =? 0)%N then Finite negative 0 (-1074)
  else
    let e := Z.max (binaryExponent a b - 52) (-1074) in
    let m := if (0 <=? e)%Z then roundHalfEven a (b * pow2 e)
             else roundHalfEven (a * pow2 (- e)) b in
    let '(m, e) := if (m =? 2 ^ 53)%N then ((2 ^ 52)%N, (e + 1)%Z) else (m, e) in
    if (971 <? e)%Z then Infinity negative else Finite negative m e.

(** The double nearest to [(-1)^negative * digits * 10^exponent]: what
    reading a decimal numeral gives.  (ECMAScript lets an implementation
    drop the digits after the twentieth; V8 and SpiderMonkey round the
    whole numeral, as here.) *)
Definition ofDecimal (negative : bool) (digits : N) (exponent : Z) : number :=
  if (0 <=? exponent)%Z then nearest negative (digits * pow10 exponent) 1
  else nearest negative digits (pow10 (- exponent)).

(** The integer a Number is, when it is one. *)
Definition integer (x : number) : option Z :=
  match x with
  | Finite negative m e =>
      let sign := if negative then (-1)%Z else 1%Z in
      if (0 <=? e)%Z then Some (sign * Z.of_N (m * pow2 e))%Z
      else if (m mod pow2 (- e) =? 0)%N
           then Some (sign * Z.of_N (m / pow2 (- e)))%Z
           else None
  | _ => None
  end.

End Double.

Arguments Double.ofDecimal : simpl never.
Arguments Double.nearest : simpl never.

(** The values a grid cell can hold. *)
Inductive value : Type :=
| VNull
| VString (s : string)
| VNumber (n : number).

Module JsNum.

(** Longest prefix of decimal digits, and what follows it. *)
Fixpoint spanDigits (s : string) : string * string :=
  match s with
  | EmptyString => (EmptyString, EmptyString)
  | String c r =>
      if Js.isDigit c
      then let '(d, t) := spanDigits r in (String c d, t)
      else (EmptyString, s)
  end.

Fixpoint digitsValueFrom (acc : N) (s : string) : N :=
  match s with
  | EmptyString => acc
  | String c r => digitsValueFrom (acc * 10 + (N_of_ascii c - 48))%N r
  end.

Definition digitsValue (s : string) : N := digitsValueFrom 0%N s.

(** An optional leading [+] or [-]. *)
Definition readSign (s : string) : bool * string :=
  match s with
  | String c r =>
      if Ascii.eqb c "-"%char then (true, r)
      else if Ascii.eqb c "+"%char then (false, r)
      else (false, s)
  | EmptyString => (false, s)
  end.

(** Whether [s] begins with a decimal digit. *)
Definition startsWithDigit (s : string) : bool :=
  match s with
  | String c _ => Js.isDigit c
  | EmptyString => false
  end.

(** [parseInt(s, 10)]: skip leading white space, read a sign, read the
    longest run of decimal digits; no digit gives NaN.  Radix 10 strips no
    [0x] prefix. *)
Definition parseInt (s : string) : number :=
  let '(neg, r) := readSign (Js.trimStart s) in
  let '(z, _) := spanDigits r in
  if Js.isEmpty z then NaN else Double.ofDecimal neg (digitsValue z) 0.

(** ExponentPart, when one is there: [e] or [E], a sign, at least one digit. *)
Definition readExponent (s : string) : Z :=
  match s with
  | String c r =>
      if Ascii.eqb c "e"%char || Ascii.eqb c "E"%char then
        let '(neg, t) := readSign r in
        let '(d, _) := spanDigits t in
        if Js.isEmpty d then 0%Z
        else if neg then (- Z.of_N (digitsValue d))%Z
        else Z.of_N (digitsValue d)
      else 0%Z
  | EmptyString => 0%Z
  end.

(** [parseFloat(s)]: skip leading white space and read the longest prefix
    that is a StrDecimalLiteral; none gives NaN. *)
Definition parseFloat (s : string) : number :=
  let '(neg, r) := readSign (Js.trimStart s) in
  if String.prefix "Infinity" r then Infinity neg
  else
    let '(ip, r1) := spanDigits r in
    let '(fp, r2) :=
      match r1 with
      | String c t => if Ascii.eqb c "."%char then spanDigits t
                      else (EmptyString, r1)
      | EmptyString => (EmptyString, r1)
      end in
    if Js.isEmpty ip && Js.isEmpty fp then NaN
    else Double.ofDecimal neg (digitsValue (ip +:+ fp))
                          (readExponent r2 - Z.of_nat (String.length fp)).

End JsNum.

(* ===================================================================== *)
(** ** Printing numbers                                                   *)
(* ===================================================================== *)

(** The decimal digits of a non-negative integer. *)
Module Digits.

Definition digitChar (d : N) : ascii := ascii_of_N (48 + d).

(** The decimal digits of [n] in front of [acc], most significant first. *)
Fixpoint decimalFrom (fuel : nat) (n : N) (acc : string) : string :=
  match fuel with
  | O => acc
  | S f =>
      let acc' := String (digitChar (n mod 10)) acc in
      if (n <? 10)%N then acc' else decimalFrom f (n / 10) acc'
  end.

(** The digits of [n]: no sign, no leading zero, [0] for zero.  This is
    [String(n)] for an integer Number [n] below [10^21]. *)
Definition decimal (n : N) : string :=
  decimalFrom (S (N.to_nat (N.log2 n))) n EmptyString.

End Digits.

(** The shortest decimal numeral that reads back as a given double: the
    digits [Number.prototype.toString] prints, and the ones the ICU library
    under [Intl.NumberFormat] starts from for a double that is not a small
    integer. *)
Module Shortest.

(** The [n] with [10^(n-1) <= a / b < 10^n], for positive [a] and [b]. *)
Definition magnitude (a b : N) : Z :=
  if (b <=? a)%N then Z.of_nat (String.length (Digits.decimal (a / b)))
  else
    let j := Z.of_nat (String.length (Digits.decimal (b / a))) in
    if (a * Double.pow10 (j - 1) =? b)%N then (2 - j)%Z else (1 - j)%Z.

(** [a / (b * 10^p)] as a fraction. *)
Definition scaled (a b : N) (p : Z) : N * N :=
  if (0 <=? p)%Z then (a, (b * Double.pow10 p)%N)
  else ((a * Double.pow10 (- p))%N, b).

(** The numeral [s * 10^(n-k)] that reads back as [x] and is nearest to
    [a / b], the value of [x], among the two numerals of that exponent
    around the value; none when neither reads back as [x]. *)
Definition candidate (x : number) (a b : N) (n : Z) (k : nat)
    : option (N * Z) :=
  let p := (n - Z.of_nat k)%Z in
  let '(c, d) := scaled a b p in
  let lo := (c / d)%N in
  let hi := (lo + 1)%N in
  match bool_decide (Double.ofDecimal false lo p = x),
        bool_decide (Double.ofDecimal false hi p = x) with
  | true, true =>
      match (2 * (c mod d) ?= d)%N with
      | Lt => Some (lo, p)
      | Gt => Some (hi, p)
      | Eq => Some (if N.even lo then lo else hi, p)
      end
  | true, false => Some (lo, p)
  | false, true => Some (hi, p)
  | false, false => None
  end.

(** The first success with [k], [k + 1], ... digits. *)
Fixpoint search (x : number) (a b : N) (n : Z) (k : nat) (fuel : nat)
    : N * Z :=
  match fuel with
  | O => (0%N, 0%Z)
  | S f =>
      match candidate x a b n k with
      | Some r => r
      | None => search x a b n (S k) f
      end
  end.

(** The shortest numeral [(s, p)], standing for [s * 10^p], of the positive
    double [m * 2^e]; seventeen digits always suffice. *)
Definition numeral (m : N) (e : Z) : N * Z :=
  let '(a, b) := if (0 <=? e)%Z then ((m * Double.pow2 e)%N, 1%N)
                 else (m, Double.pow2 (- e)) in
  search (Finite false m e) a b (magnitude a b) 1 17.

End Shortest.

(* ===================================================================== *)
(** ** Data model                                                         *)
(* ===================================================================== *)

Module ColumnSchema.
Record t : Type := mk { name : string; type : string; description : string }.
End ColumnSchema.

Module SchemaResponse.
Record t : Type := mk { columns : list ColumnSchema.t }.
End SchemaResponse.

(** The locale and the options a [valueFormatter] closure passes to
    [Intl.NumberFormat]. *)
Module NumberFormat.
Record t : Type := mk {
  locale : string;
  maximumFractionDigits : nat;
  minimumFractionDigits : nat;
  style : string
}.
End NumberFormat.

(** What a formatter prints: a text, or the infinity sign, which is no
    Latin-1 character, with a minus sign before it when negative. *)
Inductive formatted : Type :=
| Text (s : string)
| InfinitySign (negative : bool).

(** [new Intl.NumberFormat('en-IN', {maximumFractionDigits: 2,
    minimumFractionDigits: 0, style: 'decimal'}).format(x)], as the ICU
    library of V8 computes it.  A double that is an integer below [2^53] is
    taken as that integer, any other by its shortest numeral; the value is
    rounded to hundredths, a half away from zero; the integer digits are
    grouped the way of the locale, the last three and then by twos; of the
    two fraction digits the trailing zeros are dropped. *)
Module EnIN.

(** A comma before each digit from which an odd number of digits, three or
    more, run to the end. *)
Fixpoint commas (digits : string) : string :=
  match digits with
  | EmptyString => EmptyString
  | String c r =>
      let n := S (String.length r) in
      if (3 <=? n) && Nat.odd n then String ","%char (String c (commas r))
      else String c (commas r)
  end.

(** The digits of an integer, grouped. *)
Definition group (digits : string) : string :=
  match digits with
  | EmptyString => EmptyString
  | String c r => String c (commas r)
  end.

(** The fraction of [f] hundredths, [f < 100]. *)
Definition fraction (f : N) : string :=
  if (f =? 0)%N then EmptyString
  else if (f mod 10 =? 0)%N
       then String "."%char (String (Digits.digitChar (f / 10)) EmptyString)
       else String "."%char
              (String (Digits.digitChar (f / 10))
                 (String (Digits.digitChar (f mod 10)) EmptyString)).

(** The numeral [s * 10^p] in hundredths, a half rounded up. *)
Definition roundToHundredths (numeral : N * Z) : N :=
  let '(s, p) := numeral in
  if (-2 <=? p)%Z then (s * Double.pow10 (p + 2))%N
  else let d := Double.pow10 (- p - 2) in ((2 * s + d) / (2 * d))%N.

(** The magnitude [m * 2^e] in hundredths. *)
Definition hundredths (m : N) (e : Z) : N :=
  match Double.integer (Finite false m e) with
  | Some z =>
      if (z <? 2 ^ 53)%Z then (Z.to_N z * 100)%N
      else roundToHundredths (Shortest.numeral m e)
  | None => roundToHundredths (Shortest.numeral m e)
  end.

Definition format (x : number) : formatted :=
  match x with
  | NaN => Text "NaN"
  | Infinity negative => InfinitySign negative
  | Finite negative m e =>
      let t := hundredths m e in
      Text ((if negative then "-" else "")
            +:+ group (Digits.decimal (t / 100)) +:+ fraction (t mod 100))
  end.

End EnIN.

(** [new Intl.NumberFormat(locale, options).format(x)] for the locale and
    the options the grid passes; nothing is modelled of any other. *)
Definition formatNumber (f : NumberFormat.t) (x : number) : option formatted :=
  if String.eqb (NumberFormat.locale f) "en-IN"
     && (NumberFormat.maximumFractionDigits f =? 2)
     && (NumberFormat.minimumFractionDigits f =? 0)
     && String.eqb (NumberFormat.style f) "decimal"
  then Some (EnIN.format x)
  else None.

(** The call [valueFormatter(params)] of a closure that passes [f], on a
    cell that is null or undefined ([None]) or a Number. *)
Definition applyFormatter (f : NumberFormat.t) (cell : option number)
    : option formatted :=
  match cell with
  | None => Some (Text "")
  | Some x => formatNumber f x
  end.

(** Digits in groups of three, as the specification words it. *)
Fixpoint thousands (digits : string) : string :=
  match digits with
  | EmptyString => EmptyString
  | String c r =>
      let n := String.length r in
      if (0 <? n) && (n mod 3 =? 0) then String c (String ","%char (thousands r))
      else String c (thousands r)
  end.

Module GridColumn.
Record t : Type := mk {
  field : string;
  headerName : string;
  type : string;
  sortable : bool;
  resizable : bool;
  enableValue : bool;
  width : nat;
  filter : string;
  valueFormatter : option NumberFormat.t;
  aggFunc : option string;
  allowedAggFuncs : option (list string)
}.
End GridColumn.

(** A grid row: a plain object from header name to cell value.  [own] holds
    its own properties; [inherits] says whether its prototype is still
    [Object.prototype], as it is for an object literal. *)
Module GridRow.
Record t : Type := mk { own : gmap string value; inherits : bool }.
End GridRow.

Module TypedGrid.
Record t : Type := mk {
  columns : list GridColumn.t;
  data : list GridRow.t;
  schema : SchemaResponse.t
}.
End TypedGrid.

(** Errors thrown inside the grid branch. *)
Inductive error : Type :=
| FileIsEmpty                       (* [new Error('File is empty')] *)
| InferenceError (message : string) (* rethrown by [getSchemaFromGPT] *).

Inductive result (A : Type) : Type :=
| Ok (a : A)
| Err (e : error).
Arguments Ok {A} a.
Arguments Err {A} e.

#[global] Instance result_ret : MRet result := fun A a => Ok a.
#[global] Instance result_bind : MBind result := fun A B f r =>
  match r with
  | Ok a => f a
  | Err e => Err e
  end.

(* ===================================================================== *)
(** ** The grid branch of handleFileUpload                                *)
(* ===================================================================== *)

(** [l.reduce((acc, x, idx) => f(acc, x, idx), init)]. *)
Fixpoint reduceFrom {A B : Type} (f : B -> A -> nat -> B) (idx : nat)
    (acc : B) (l : list A) : B :=
  match l with
  | [] => acc
  | x :: r => reduceFrom f (S idx) (f acc x idx) r
  end.

Definition reduce {A B : Type} (f : B -> A -> nat -> B) (init : B)
    (l : list A) : B :=
  reduceFrom f 0 init l.

(** [text.split('\n').map(row => row.trim()).filter(row => row.length > 0)] *)
Definition allRows (text : string) : list string :=
  List.filter (fun row => 0 <? String.length row)
    (Js.trim <$> Js.split Js.LF text).

(** [allRows[0].split(delimiter).map(h => h.trim())] *)
Definition headersOf (delimiter : ascii) (row0 : string) : list string :=
  Js.trim <$> Js.split delimiter row0.

(** [allRows.slice(0, 5).join('\n')] *)
Definition sampleData (allRows : list string) : string :=
  Js.join Js.LF (take 5 allRows).

(** [s.toLowerCase().replace(/[_\s]/g, '')] *)
Definition normalizedHeader (s : string) : string :=
  Js.stripUnderscoreSpace (Js.toLowerCase s).



(** [new Map(schema.columns.map(col => [normalized name, col]))]: entries
    are set in order, a later one replacing an earlier one with its key. *)
Definition schemaMap (schema : SchemaResponse.t) : gmap string ColumnSchema.t :=
  foldl (fun m col => <[normalizedHeader (ColumnSchema.name col) := col]> m)
    ∅ (SchemaResponse.columns schema).

(** [schemaCol?.type] for [schemaCol = schemaMap.get(normalizedHeader)]. *)
Definition schemaType (m : gmap string ColumnSchema.t) (header : string)
    : option string :=
  ColumnSchema.type <$> m !! normalizedHeader header.

(** [schemaCol?.type === t] *)
Definition typeIs (ty : option string) (t : string) : bool :=
  match ty with
  | Some s => String.eqb s t
  | None => false
  end.

(** [schemaCol?.type || 'TEXT'] *)
Definition typeOrText (ty : option string) : string :=
  match ty with
  | Some s => if Js.truthy s then s else "TEXT"
  | None => "TEXT"
  end.

(** The formatter of a numeric column:
    [new Intl.NumberFormat('en-IN', {maximumFractionDigits: 2,
    minimumFractionDigits: 0, style: 'decimal'})]. *)
Definition numericFormat : NumberFormat.t :=
  {| NumberFormat.locale := "en-IN";
     NumberFormat.maximumFractionDigits := 2;
     NumberFormat.minimumFractionDigits := 0;
     NumberFormat.style := "decimal" |}.

Definition gridColumn (m : gmap string ColumnSchema.t) (header : string)
    : GridColumn.t :=
  let ty := schemaType m header in
  if typeIs ty "INTEGER" || typeIs ty "NUMERIC" then
    {| GridColumn.field := header;
       GridColumn.headerName := header;
       GridColumn.type := typeOrText ty;
       GridColumn.sortable := true;
       GridColumn.resizable := true;
       GridColumn.enableValue := true;
       GridColumn.width := 150;
       GridColumn.filter := "agNumberColumnFilter";
       GridColumn.valueFormatter := Some numericFormat;
       GridColumn.aggFunc := Some "sum";
       GridColumn.allowedAggFuncs :=
         Some ["sum"; "avg"; "min"; "max"; "count"] |}
  else
    {| GridColumn.field := header;
       GridColumn.headerName := header;
       GridColumn.type := typeOrText ty;
       GridColumn.sortable := true;
       GridColumn.resizable := true;
       GridColumn.enableValue := true;
       GridColumn.width := 150;
       GridColumn.filter := "agTextColumnFilter";
       GridColumn.valueFormatter := None;
       GridColumn.aggFunc := None;
       GridColumn.allowedAggFuncs := None |}.

(** [values[idx]?.trim() || ''] *)
Definition rawValue (values : list string) (idx : nat) : string :=
  match Js.trim <$> values !! idx with
  | Some s => if Js.truthy s then s else EmptyString
  | None => EmptyString
  end.

(** The value assigned to [obj[header]] from [rawValue]. *)
Definition cellValue (m : gmap string ColumnSchema.t) (header : string)
    (rawValue : string) : value :=
  let ty := schemaType m header in
  if typeIs ty "INTEGER" then
    if Js.truthy rawValue then VNumber (JsNum.parseInt rawValue) else VNull
  else if typeIs ty "NUMERIC" then
    if Js.truthy rawValue then VNumber (JsNum.parseFloat rawValue) else VNull
  else VString rawValue.

(** The object literal [{}]. *)
Definition emptyObject : GridRow.t := GridRow.mk ∅ true.

(** [obj[key] = v].  Any name but [__proto__] becomes, or stays, an own
    property holding [v].  The name [__proto__] reaches the setter the
    object inherits from [Object.prototype]: it makes null the prototype
    when [v] is null and does nothing when [v] is a string or a Number, and
    in neither case is there an own property.  Once the prototype is null,
    [__proto__] is a name like any other. *)
Definition assign (obj : GridRow.t) (key : string) (v : value) : GridRow.t :=
  if String.eqb key "__proto__" && GridRow.inherits obj then
    match v with
    | VNull => GridRow.mk (GridRow.own obj) false
    | VString _ | VNumber _ => obj
    end
  else GridRow.mk (<[key := v]> (GridRow.own obj)) (GridRow.inherits obj).

(** The [headers.reduce(...)] of the row callback, from the split fields. *)
Definition gridRowOf (m : gmap string ColumnSchema.t) (headers : list string)
    (values : list string) : GridRow.t :=
  reduce (fun (obj : GridRow.t) header idx =>
            assign obj header (cellValue m header (rawValue values idx)))
         emptyObject headers.

(** The callback of [allRows.slice(1).map(...)]. *)
Definition gridRow (m : gmap string ColumnSchema.t) (headers : list string)
    (delimiter : ascii) (row : string) : GridRow.t :=
  let values := Js.split delimiter row in
  gridRowOf m headers values.

(** What awaiting the schema inference call gives: the parsed response,
    or the error the call rethrows (transport failure, a status that is not
    ok, a body that does not parse). *)
Inductive inference : Type :=
| Resolved (schema : SchemaResponse.t)
| Rejected (message : string).

Definition await (r : inference) : result SchemaResponse.t :=
  match r with
  | Resolved schema => Ok schema
  | Rejected message => Err (InferenceError message)
  end.

Section Pipeline.

Variable getSchemaFromGPT : string -> ascii -> inference.

(** [handleFileUpload(form, 'grid')] from [file.text()] to the argument of
    [setGridData]. *)
Definition handleFileUpload (text : string) : result TypedGrid.t :=
  let delimiter := detectDelimiter text in
  let allRows := allRows text in
  match allRows with
  | [] => Err FileIsEmpty
  | row0 :: _ =>
      let headers := headersOf delimiter row0 in
      let sampleData := sampleData allRows in
      schema ← await (getSchemaFromGPT sampleData delimiter);
      let schemaMap := schemaMap schema in
      let gridColumns := gridColumn schemaMap <$> headers in
      let gridRows := gridRow schemaMap headers delimiter <$> drop 1 allRows in
      Ok {| TypedGrid.columns := gridColumns;
            TypedGrid.data := gridRows;
            TypedGrid.schema := schema |}
  end.

End Pipeline.

(* ===================================================================== *)
(** ** Services and inputs used in examples                               *)
(* ===================================================================== *)

(** A service that answers every request with the same schema. *)
Definition constService (schema : SchemaResponse.t)
    : string -> ascii -> inference :=
  fun _ _ => Resolved schema.

(** A service that rejects with the sample it was sent. *)
Definition echoService : string -> ascii -> inference :=
  fun sampleData _ => Rejected sampleData.

Definition col (name type : string) : ColumnSchema.t :=
  ColumnSchema.mk name type "".

(** The columns and the rows of a returned grid; none when the branch threw. *)
Definition columnsOf (r : result TypedGrid.t) : list GridColumn.t :=
  match r with
  | Ok grid => TypedGrid.columns grid
  | Err _ => []
  end.

Definition dataOf (r : result TypedGrid.t) : list GridRow.t :=
  match r with
  | Ok grid => TypedGrid.data grid
  | Err _ => []
  end.

(** One step of the reduction in the row callback, for a rule [g] giving
    the cell of a header at an index. *)
Definition setCell (g : string -> nat -> value) (obj : GridRow.t)
    (header : string) (idx : nat) : GridRow.t :=
  assign obj header (g header idx).



(** Lines joined by line feeds, to write input texts. *)
Definition lines (l : list string) : string := Js.join Js.LF l.

(** The raw lines of a text that are not blank. *)
Definition nonEmptyLines (text : string) : list string :=
  List.filter (fun line => negb (Js.allWhiteSpace line))
    (Js.split Js.LF text).

(* ===================================================================== *)
(** ** Facts about the string built-ins                                   *)
(* ===================================================================== *)

Section StringFacts.

Implicit Types (s : string) (c sep : ascii).

Lemma isEmpty_true s : Js.isEmpty s = true <-> s = EmptyString.
Proof. destruct s; simpl; split; congruence. Qed.

Lemma length_pos_truthy s : (0 <? String.length s) = Js.truthy s.
Proof. by destruct s. Qed.

Lemma split_not_nil sep s : Js.split sep s <> [].
Proof.
  induction s as [|a r IH]; simpl; [done|].
  destruct (Ascii.eqb a sep); [done|].
  by destruct (Js.split sep r).
Qed.

Lemma length_split sep s :
  length (Js.split sep s) = S (Js.countChar sep s).
Proof.
  induction s as [|a r IH]; simpl; [done|].
  destruct (Ascii.eqb a sep); simpl; [by rewrite IH|].
  destruct (Js.split sep r); simpl in *; congruence.
Qed.

Lemma other_char_neq a c :
  Js.isWhiteSpace a = true -> Js.isWhiteSpace c = false -> Ascii.eqb a c = false.
Proof.
  intros Ha Hc. destruct (Ascii.eqb a c) eqn:E; [|done].
  apply Ascii.eqb_eq in E. congruence.
Qed.

Lemma countChar_trimStart c s :
  Js.isWhiteSpace c = false ->
  Js.countChar c (Js.trimStart s) = Js.countChar c s.
Proof.
  intros Hc. induction s as [|a r IH]; simpl; [done|].
  destruct (Js.isWhiteSpace a) eqn:Ha; [|done].
  by rewrite IH, (other_char_neq a c).
Qed.

Lemma isEmpty_trimEnd s : Js.isEmpty (Js.trimEnd s) = Js.allWhiteSpace s.
Proof.
  induction s as [|a r IH]; simpl; [done|].
  rewrite IH. by destruct (Js.isWhiteSpace a), (Js.allWhiteSpace r).
Qed.

Lemma countChar_trimEnd c s :
  Js.isWhiteSpace c = false ->
  Js.countChar c (Js.trimEnd s) = Js.countChar c s.
Proof.
  intros Hc. induction s as [|a r IH]; simpl; [done|].
  destruct (Js.isWhiteSpace a && Js.isEmpty (Js.trimEnd r)) eqn:E; simpl.
  - apply andb_true_iff in E as [Ha Hr].
    apply isEmpty_true in Hr. rewrite Hr in IH. simpl in IH.
    by rewrite <- IH, (other_char_neq a c).
  - by rewrite IH.
Qed.

(** Trimming neither adds nor removes a character that is not white space:
    a line has as many delimiters after [trim] as before. *)
Lemma countChar_trim c s :
  Js.isWhiteSpace c = false ->
  Js.countChar c (Js.trim s) = Js.countChar c s.
Proof.
  intros Hc. unfold Js.trim.
  by rewrite countChar_trimEnd, countChar_trimStart.
Qed.

Lemma allWhiteSpace_trimStart s :
  Js.allWhiteSpace (Js.trimStart s) = Js.allWhiteSpace s.
Proof.
  induction s as [|a r IH]; simpl; [done|].
  destruct (Js.isWhiteSpace a) eqn:Ha; simpl; [done|by rewrite Ha].
Qed.

(** A line trims to the empty string exactly when it is blank. *)
Lemma isEmpty_trim s : Js.isEmpty (Js.trim s) = Js.allWhiteSpace s.
Proof. unfold Js.trim. by rewrite isEmpty_trimEnd, allWhiteSpace_trimStart. Qed.

Lemma trim_empty_iff s :
  Js.trim s = EmptyString <-> Js.allWhiteSpace s = true.
Proof. by rewrite <- isEmpty_trim, isEmpty_true. Qed.

(** A text is white space throughout exactly when each of its lines is. *)
Lemma allWhiteSpace_split s :
  forallb Js.allWhiteSpace (Js.split Js.LF s) = Js.allWhiteSpace s.
Proof.
  induction s as [|a r IH]; simpl; [done|].
  destruct (Ascii.eqb a Js.LF) eqn:E.
  - apply Ascii.eqb_eq in E. subst a. simpl. by rewrite IH.
  - pose proof (split_not_nil Js.LF r) as Hne.
    destruct (Js.split Js.LF r) as [|f fs]; [done|].
    simpl in *. rewrite <- IH.
    by rewrite andb_assoc.
Qed.

End StringFacts.

Section MoreStringFacts.

Implicit Types (s : string) (c sep : ascii).

Lemma append_cons c s t : String c s +:+ t = String c (s +:+ t).
Proof. reflexivity. Qed.

Lemma trimEnd_idem s : Js.trimEnd (Js.trimEnd s) = Js.trimEnd s.
Proof.
  induction s as [|a r IH]; simpl; [done|].
  destruct (Js.isWhiteSpace a && Js.isEmpty (Js.trimEnd r)) eqn:E; [done|].
  simpl. by rewrite IH, E.
Qed.

Lemma trimStart_trimEnd_trimStart s :
  Js.trimStart (Js.trimEnd (Js.trimStart s)) = Js.trimEnd (Js.trimStart s).
Proof.
  induction s as [|a r IH]; simpl; [done|].
  destruct (Js.isWhiteSpace a) eqn:Ha; [done|].
  simpl. rewrite Ha. simpl. by rewrite Ha.
Qed.

(** [trim] is idempotent: a trimmed field stays as it is. *)
Lemma trim_idem s : Js.trim (Js.trim s) = Js.trim s.
Proof.
  unfold Js.trim. by rewrite trimStart_trimEnd_trimStart, trimEnd_idem.
Qed.

Lemma split_first_line s rest :
  Js.countChar Js.LF s = 0 ->
  Js.split Js.LF (s +:+ String Js.LF rest) = s :: Js.split Js.LF rest.
Proof.
  induction s as [|a r IH]; intros H.
  - reflexivity.
  - rewrite append_cons. simpl in *.
    destruct (Ascii.eqb a Js.LF); [done|].
    by rewrite IH.
Qed.

Lemma split_no_sep sep s :
  Js.countChar sep s = 0 -> Js.split sep s = [s].
Proof.
  induction s as [|a r IH]; intros H; simpl in *; [done|].
  destruct (Ascii.eqb a sep); [done|]. by rewrite IH.
Qed.

Lemma filter_negb_nil {A} (p : A -> bool) (l : list A) :
  List.filter (fun x => negb (p x)) l = [] <-> forallb p l = true.
Proof.
  induction l as [|x l IH]; simpl; [done|].
  destruct (p x); simpl; [done|]. split; discriminate.
Qed.

End MoreStringFacts.

(* ===================================================================== *)
(** ** The row tokenizer                                                  *)
(* ===================================================================== *)

Section Tokenizer.

(** The rows kept are the trimmed non-blank lines, in order. *)
Lemma allRows_nonEmptyLines (text : string) :
  allRows text = Js.trim <$> nonEmptyLines text.
Proof.
  unfold allRows, nonEmptyLines.
  induction (Js.split Js.LF text) as [|l ls IH]; [done|].
  rewrite fmap_cons. cbn [List.filter].
  rewrite length_pos_truthy, IH. unfold Js.truthy. rewrite isEmpty_trim.
  by destruct (Js.allWhiteSpace l).
Qed.

Lemma allRows_nil_iff (text : string) :
  allRows text = [] <-> Js.allWhiteSpace text = true.
Proof.
  rewrite allRows_nonEmptyLines, <- allWhiteSpace_split.
  unfold nonEmptyLines. rewrite <- filter_negb_nil.
  split; [apply fmap_nil_inv | by intros ->].
Qed.

Lemma blank_lines_iff (text : string) :
  Forall (fun line => Js.trim line = EmptyString) (Js.split Js.LF text)
  <-> Js.allWhiteSpace text = true.
Proof.
  rewrite <- allWhiteSpace_split, forallb_forall, List.Forall_forall.
  split; intros H x Hx; by apply trim_empty_iff, H.
Qed.

Lemma length_headersOf (delimiter : ascii) (line : string) :
  Js.isWhiteSpace delimiter = false ->
  length (headersOf delimiter (Js.trim line))
  = length (Js.split delimiter line).
Proof.
  intros Hd. unfold headersOf.
  by rewrite length_fmap, !length_split, countChar_trim.
Qed.

Lemma detectDelimiter_cases (content : string) :
  detectDelimiter content = "|"%char \/ detectDelimiter content = ","%char.
Proof. unfold detectDelimiter. destruct (_ <? _); auto. Qed.

Lemma detectDelimiter_not_space (content : string) :
  Js.isWhiteSpace (detectDelimiter content) = false.
Proof. by destruct (detectDelimiter_cases content) as [-> | ->]. Qed.

End Tokenizer.

(* ===================================================================== *)
(** ** Delimiter detection                                                *)
(* ===================================================================== *)

Lemma firstLine_cons (a : ascii) (r : string) :
  firstLine (String a r)
  = if Ascii.eqb a Js.LF then EmptyString else String a (firstLine r).
Proof.
  unfold firstLine. simpl.
  destruct (Ascii.eqb a Js.LF); [done|].
  pose proof (split_not_nil Js.LF r).
  by destruct (Js.split Js.LF r).
Qed.

Lemma firstLine_no_LF (content : string) :
  Js.countChar Js.LF (firstLine content) = 0.
Proof.
  induction content as [|a r IH]; [done|].
  rewrite firstLine_cons.
  destruct (Ascii.eqb a Js.LF) eqn:E; [done|].
  simpl. by rewrite E.
Qed.

Lemma firstLine_prefix (content : string) :
  content = firstLine content \/
  exists rest, content = firstLine content +:+ String Js.LF rest.
Proof.
  induction content as [|a r IH]; [by left|].
  rewrite firstLine_cons.
  destruct (Ascii.eqb a Js.LF) eqn:E.
  - apply Ascii.eqb_eq in E. subst a. right. by exists r.
  - destruct IH as [IH | [rest IH]].
    + left. by rewrite <- IH.
    + right. exists rest. rewrite append_cons. by rewrite <- IH.
Qed.

Lemma firstLine_append (line rest : string) :
  Js.countChar Js.LF line = 0 ->
  firstLine (line +:+ String Js.LF rest) = line.
Proof. intros H. unfold firstLine. by rewrite split_first_line. Qed.

Lemma firstLine_single (line : string) :
  Js.countChar Js.LF line = 0 -> firstLine line = line.
Proof. intros H. unfold firstLine. by rewrite split_no_sep. Qed.

(** The count the detector takes with a global match is the number of
    occurrences of the character. *)
Lemma countChar_occurrences (c : ascii) (s : string) :
  Js.countChar c s = occurrences c s.
Proof.
  unfold occurrences. induction s as [|a r IH]; [done|].
  simpl. rewrite IH.
  destruct (Ascii.eqb a c) eqn:E.
  - apply Ascii.eqb_eq in E. by rewrite bool_decide_true.
  - apply Ascii.eqb_neq in E. by rewrite bool_decide_false.
Qed.

(** C3: the delimiter detector returns the pipe or the comma, and nothing
    else; it returns the pipe exactly when the first line of the raw text
    holds strictly more pipes than commas and the comma otherwise, also
    when the line holds neither.  The first line is what stands before the
    first line feed, and what follows that line feed has no part in the
    answer.  So a first line with three pipes and one comma gives the pipe,
    one with one pipe and three commas gives the comma, and one with
    neither gives the comma, whatever the lines after it are. *)
Theorem detectDelimiter_first_line (content : string) :
  (detectDelimiter content = "|"%char \/ detectDelimiter content = ","%char) /\
  (detectDelimiter content = "|"%char <->
     occurrences ","%char (firstLine content)
     < occurrences "|"%char (firstLine content)) /\
  (detectDelimiter content = ","%char <->
     occurrences "|"%char (firstLine content)
     <= occurrences ","%char (firstLine content)) /\
  (occurrences "|"%char (firstLine content) = 0 ->
   occurrences ","%char (firstLine content) = 0 ->
   detectDelimiter content = ","%char) /\
  occurrences Js.LF (firstLine content) = 0 /\
  (content = firstLine content \/
   exists rest, content = firstLine content +:+ String Js.LF rest) /\
  (forall line rest, occurrences Js.LF line = 0 ->
     firstLine (line +:+ String Js.LF rest) = line /\
     detectDelimiter (line +:+ String Js.LF rest) = detectDelimiter line) /\
  (forall line rest, occurrences Js.LF line = 0 ->
     (occurrences "|"%char line = 3 -> occurrences ","%char line = 1 ->
      detectDelimiter (line +:+ String Js.LF rest) = "|"%char) /\
     (occurrences "|"%char line = 1 -> occurrences ","%char line = 3 ->
      detectDelimiter (line +:+ String Js.LF rest) = ","%char)) /\
  (forall rest,
     detectDelimiter ("a|b|c|d,e" +:+ String Js.LF rest) = "|"%char /\
     detectDelimiter ("a|b,c,d,e" +:+ String Js.LF rest) = ","%char /\
     detectDelimiter ("abc" +:+ String Js.LF rest) = ","%char) /\
  (detectDelimiter "a|b|c|d,e" = "|"%char /\
   detectDelimiter "a|b,c,d,e" = ","%char /\
   detectDelimiter "abc" = ","%char /\
   detectDelimiter "" = ","%char).
Proof.
  assert (Hline : forall line rest, occurrences Js.LF line = 0 ->
            firstLine (line +:+ String Js.LF rest) = line /\
            detectDelimiter (line +:+ String Js.LF rest) = detectDelimiter line).
  { intros line rest H. rewrite <- countChar_occurrences in H.
    split; [by apply firstLine_append|]. unfold detectDelimiter.
    by rewrite (firstLine_append line rest H), (firstLine_single line H). }
  assert (Hcount : forall line, occurrences Js.LF line = 0 ->
            detectDelimiter line
            = if occurrences ","%char line <? occurrences "|"%char line
              then "|"%char else ","%char).
  { intros line H. rewrite <- countChar_occurrences in H.
    unfold detectDelimiter.
    by rewrite (firstLine_single line H), !countChar_occurrences. }
  assert (Hdef : detectDelimiter content
                 = if occurrences ","%char (firstLine content)
                      <? occurrences "|"%char (firstLine content)
                   then "|"%char else ","%char).
  { unfold detectDelimiter. by rewrite !countChar_occurrences. }
  split; [apply detectDelimiter_cases|].
  split; [|split; [|split; [|split; [|split; [|split; [|split; [|split]]]]]]].
  - rewrite Hdef. destruct (_ <? _) eqn:E.
    + apply Nat.ltb_lt in E. by split.
    + apply Nat.ltb_ge in E. split; [discriminate | lia].
  - rewrite Hdef. destruct (_ <? _) eqn:E.
    + apply Nat.ltb_lt in E. split; [discriminate | lia].
    + apply Nat.ltb_ge in E. by split.
  - intros Hp Hc. by rewrite Hdef, Hp, Hc.
  - rewrite <- countChar_occurrences. apply firstLine_no_LF.
  - apply firstLine_prefix.
  - exact Hline.
  - intros line rest H. destruct (Hline line rest H) as [_ ->].
    rewrite (Hcount line H).
    split; intros -> ->; reflexivity.
  - intros rest. by rewrite !(fun line H => proj2 (Hline line rest H)).
  - by repeat split.
Qed.

(** The three first lines the specification names. *)
Example detectDelimiter_three_pipes_one_comma :
  detectDelimiter (lines ["a|b|c|d,e"; "1,2,3,4,5,6,7"]) = "|"%char.
Proof. reflexivity. Qed.

Example detectDelimiter_one_pipe_three_commas :
  detectDelimiter (lines ["a|b,c,d,e"; "1|2|3|4|5|6|7"]) = ","%char.
Proof. reflexivity. Qed.

Example detectDelimiter_neither :
  detectDelimiter (lines ["abc"; "1|2"]) = ","%char.
Proof. reflexivity. Qed.

(* ===================================================================== *)
(** ** Empty input and the shape of the tokenizer's output                *)
(* ===================================================================== *)

Lemma handleFileUpload_rows (service : string -> ascii -> inference)
    (text row0 : string) (rest : list string) :
  allRows text = row0 :: rest ->
  handleFileUpload service text =
    (schema ← await (service (sampleData (row0 :: rest)) (detectDelimiter text));
     Ok {| TypedGrid.columns :=
             gridColumn (schemaMap schema)
               <$> headersOf (detectDelimiter text) row0;
           TypedGrid.data :=
             gridRow (schemaMap schema)
               (headersOf (detectDelimiter text) row0) (detectDelimiter text)
               <$> rest;
           TypedGrid.schema := schema |}).
Proof. intros H. unfold handleFileUpload. by rewrite H. Qed.

(** C6: the grid branch throws the empty-input error exactly when no line
    is left after trimming every line and dropping the empty ones, that is,
    exactly when every line of the text is blank (the text is white space
    throughout); with one non-blank line the error is not thrown, whatever
    the inference service does. *)
Theorem empty_input_error_iff (service : string -> ascii -> inference)
    (text : string) :
  (handleFileUpload service text = Err FileIsEmpty <-> allRows text = []) /\
  (allRows text = [] <->
     Forall (fun line => Js.trim line = EmptyString) (Js.split Js.LF text)) /\
  (allRows text = [] <-> Js.allWhiteSpace text = true) /\
  (handleFileUpload service text = Err FileIsEmpty <-> nonEmptyLines text = []).
Proof.
  assert (Hrun : handleFileUpload service text = Err FileIsEmpty
                 <-> allRows text = []).
  { split.
    - destruct (allRows text) as [|row0 rest] eqn:E; [done|].
      rewrite (handleFileUpload_rows _ _ _ _ E).
      by destruct (service _ _).
    - intros H. unfold handleFileUpload. by rewrite H. }
  repeat split; try apply Hrun.
  - intros H. by apply blank_lines_iff, allRows_nil_iff.
  - intros H. by apply allRows_nil_iff, blank_lines_iff.
  - apply allRows_nil_iff.
  - apply allRows_nil_iff.
  - intros H. apply Hrun in H. rewrite allRows_nonEmptyLines in H.
    by apply fmap_nil_inv in H.
  - intros H. apply Hrun. by rewrite allRows_nonEmptyLines, H.
Qed.

Example blank_text_is_empty_input :
  handleFileUpload echoService (lines ["  "; ""; String "009" " "; ""])
  = Err FileIsEmpty.
Proof. reflexivity. Qed.

Lemma gridColumn_field (m : gmap string ColumnSchema.t) (header : string) :
  GridColumn.field (gridColumn m header) = header /\
  GridColumn.headerName (gridColumn m header) = header.
Proof. unfold gridColumn. by destruct (_ || _). Qed.

(** C7: when the text has a non-blank line, the header array has as many
    entries as the first non-blank line has delimiter-separated fields, each
    entry being a trimmed field, and there is one data row per further
    non-blank line; a grid the branch returns has these headers as its
    column fields and that many rows. *)
Theorem tokenizer_lengths (text line0 : string) (others : list string) :
  nonEmptyLines text = line0 :: others ->
  let delimiter := detectDelimiter text in
  let headers := headersOf delimiter (Js.trim line0) in
  allRows text = Js.trim line0 :: (Js.trim <$> others) /\
  length headers = length (Js.split delimiter line0) /\
  Forall (fun h => Js.trim h = h) headers /\
  length (drop 1 (allRows text)) = length (nonEmptyLines text) - 1 /\
  forall service : string -> ascii -> inference,
    match handleFileUpload service text with
    | Ok grid =>
        GridColumn.field <$> TypedGrid.columns grid = headers /\
        length (TypedGrid.columns grid) = length (Js.split delimiter line0) /\
        length (TypedGrid.data grid) = length (nonEmptyLines text) - 1
    | Err e => exists message, e = InferenceError message
    end.
Proof.
  intros Hlines delimiter headers.
  assert (Hrows : allRows text = Js.trim line0 :: (Js.trim <$> others)).
  { by rewrite allRows_nonEmptyLines, Hlines. }
  assert (Hlen : length headers = length (Js.split delimiter line0)).
  { apply length_headersOf, detectDelimiter_not_space. }
  split; [done|]. split; [done|]. split; [|split].
  - unfold headers, headersOf. apply Forall_fmap, Forall_true.
    intros f. apply trim_idem.
  - rewrite Hrows, Hlines. change (drop 1 (?x :: ?l)) with l.
    rewrite length_fmap. simpl. lia.
  - intros service. rewrite (handleFileUpload_rows _ _ _ _ Hrows).
    destruct (service _ _) as [schema|message]; simpl; [|by eexists].
    split; [|split].
    + rewrite <- list_fmap_compose. fold delimiter headers.
      rewrite <- (list_fmap_id headers) at 2.
      apply list_fmap_ext. intros i h _. apply gridColumn_field.
    + by rewrite length_fmap.
    + rewrite Hlines, length_fmap, length_fmap. simpl. lia.
Qed.

Lemma tokenizer_lengths_witness :
  let text := lines ["name | age| joined "; "  "; "Alice|30|2020-01-01";
                     ""; "Bob||2021-06-15"] in
  nonEmptyLines text
  = "name | age| joined " :: ["Alice|30|2020-01-01"; "Bob||2021-06-15"] /\
  headersOf (detectDelimiter text) "name | age| joined"
  = ["name"; "age"; "joined"] /\
  length (headersOf (detectDelimiter text) (Js.trim "name | age| joined "))
  = length (Js.split (detectDelimiter text) "name | age| joined ") /\
  length (drop 1 (allRows text)) = length (nonEmptyLines text) - 1.
Proof.
  intros text.
  split; [reflexivity|]. split; [reflexivity|].
  pose proof (tokenizer_lengths text "name | age| joined "
                ["Alice|30|2020-01-01"; "Bob||2021-06-15"] eq_refl)
    as (_ & Hheaders & _ & Hdata & _).
  split; [exact Hheaders | exact Hdata].
Defined.

(* ===================================================================== *)
(** ** Building a grid row                                                *)
(* ===================================================================== *)

Section Assign.

Implicit Types (obj : GridRow.t) (key h : string) (v : value).

Lemma assign_lookup_ne obj key v h :
  key <> h -> GridRow.own (assign obj key v) !! h = GridRow.own obj !! h.
Proof.
  intros Hne. unfold assign.
  destruct (String.eqb key "__proto__" && GridRow.inherits obj).
  - by destruct v.
  - simpl. by rewrite lookup_insert_ne.
Qed.

Lemma assign_lookup_eq obj key v :
  key <> "__proto__" -> GridRow.own (assign obj key v) !! key = Some v.
Proof.
  intros Hne. unfold assign. apply String.eqb_neq in Hne as ->.
  simpl. by rewrite lookup_insert_eq.
Qed.

(** An assignment adds no name but its own, and removes none. *)
Lemma assign_dom obj key v h :
  (h ∈ dom (GridRow.own (assign obj key v)) ->
   h = key \/ h ∈ dom (GridRow.own obj)) /\
  (h ∈ dom (GridRow.own obj) -> h ∈ dom (GridRow.own (assign obj key v))).
Proof.
  unfold assign.
  destruct (String.eqb key "__proto__" && GridRow.inherits obj).
  - destruct v; simpl; auto.
  - simpl. rewrite dom_insert_L, elem_of_union, elem_of_singleton. auto.
Qed.

End Assign.

Section Reduce.

(** The reduction of the row callback, for any rule [g] giving the cell of
    a header at an index. *)
Variable g : string -> nat -> value.

Lemma reduceFrom_lookup_notin (headers : list string) :
  forall (i0 : nat) (acc : GridRow.t) (h : string),
    h ∉ headers ->
    GridRow.own (reduceFrom (setCell g) i0 acc headers) !! h
    = GridRow.own acc !! h.
Proof.
  induction headers as [|x r IH]; intros i0 acc h Hh; simpl; [done|].
  apply not_elem_of_cons in Hh as [Hx Hr].
  rewrite IH by done. unfold setCell. by apply assign_lookup_ne.
Qed.

(** The cell kept under a name other than [__proto__] is the one set at its
    last position. *)
Lemma reduceFrom_lookup_last (headers : list string) :
  forall (j i0 : nat) (acc : GridRow.t) (h : string),
    h <> "__proto__" ->
    headers !! j = Some h ->
    (forall k, j < k -> headers !! k <> Some h) ->
    GridRow.own (reduceFrom (setCell g) i0 acc headers) !! h
    = Some (g h (i0 + j)).
Proof.
  induction headers as [|x r IH]; intros j i0 acc h Hp Hj Hlast; [done|].
  destruct j as [|j]; simpl in *.
  - injection Hj as ->.
    rewrite reduceFrom_lookup_notin.
    + unfold setCell. rewrite assign_lookup_eq by done. by rewrite Nat.add_0_r.
    + intros Hin. apply list_elem_of_lookup in Hin as [k Hk].
      apply (Hlast (S k)); [lia|done].
  - rewrite (IH j (S i0) _ h Hp Hj).
    + f_equal. f_equal. lia.
    + intros k Hk. apply (Hlast (S k)). lia.
Qed.

(** The own names of the result are names of the list or of the start. *)
Lemma reduceFrom_dom_sub (headers : list string) :
  forall (i0 : nat) (acc : GridRow.t) (h : string),
    h ∈ dom (GridRow.own (reduceFrom (setCell g) i0 acc headers)) ->
    h ∈ headers \/ h ∈ dom (GridRow.own acc).
Proof.
  induction headers as [|x r IH]; intros i0 acc h Hh; simpl in *; [by right|].
  apply IH in Hh as [Hh | Hh]; [left; by right|].
  unfold setCell in Hh. apply assign_dom in Hh as [-> | Hh]; [left; by left|by right].
Qed.

End Reduce.


Lemma gridRowOf_reduce (m : gmap string ColumnSchema.t)
    (headers values : list string) :
  gridRowOf m headers values
  = reduceFrom (setCell (fun h idx => cellValue m h (rawValue values idx)))
      0 emptyObject headers.
Proof. reflexivity. Qed.


Lemma rawValue_short (values : list string) (idx : nat) :
  length values <= idx -> rawValue values idx = EmptyString.
Proof. intros H. unfold rawValue. by rewrite lookup_ge_None_2. Qed.

Lemma rawValue_field (values : list string) (idx : nat) (field : string) :
  values !! idx = Some field -> rawValue values idx = Js.trim field.
Proof.
  intros H. unfold rawValue. rewrite H. simpl.
  by destruct (Js.trim field).
Qed.

(** The own names of a row are header names. *)
Lemma gridRowOf_keys (m : gmap string ColumnSchema.t)
    (headers values : list string) (key : string) :
  key ∈ dom (GridRow.own (gridRowOf m headers values)) -> key ∈ headers.
Proof.
  rewrite gridRowOf_reduce. intros H.
  apply reduceFrom_dom_sub in H as [H | H]; [done|].
  simpl in H. by rewrite dom_empty_L in H.
Qed.


Lemma gridRowOf_lookup (m : gmap string ColumnSchema.t)
    (headers values : list string) (idx : nat) (header : string) :
  header <> "__proto__" ->
  headers !! idx = Some header ->
  (forall later, idx < later -> headers !! later <> Some header) ->
  GridRow.own (gridRowOf m headers values) !! header
  = Some (cellValue m header (rawValue values idx)).
Proof.
  intros Hp Hidx Hlast. rewrite gridRowOf_reduce.
  by rewrite (reduceFrom_lookup_last _ headers idx 0 emptyObject header
                Hp Hidx Hlast).
Qed.

(** Every header other than [__proto__] is an own name of the row. *)
Lemma gridRowOf_has (m : gmap string ColumnSchema.t)
    (headers values : list string) (header : string) :
  header ∈ headers -> header <> "__proto__" ->
  is_Some (GridRow.own (gridRowOf m headers values) !! header).
Proof.
  intros Hin Hp.
  assert (Hlast : exists idx, headers !! idx = Some header /\
            forall later, idx < later -> headers !! later <> Some header).
  { clear Hp. induction headers as [|x r IH]; [by apply elem_of_nil in Hin|].
    destruct (decide (header ∈ r)) as [Hr | Hr].
    - destruct (IH Hr) as (idx & Hidx & Hlast).
      exists (S idx). split; [done|].
      intros [|later] Hl; [lia|]. apply Hlast. lia.
    - apply elem_of_cons in Hin as [-> | Hin]; [|done].
      exists 0. split; [done|].
      intros [|later] Hl; [lia|]. simpl. intros E.
      apply Hr. by apply list_elem_of_lookup_2 in E. }
  destruct Hlast as (idx & Hidx & Hlast).
  rewrite (gridRowOf_lookup m headers values idx header Hp Hidx Hlast).
  by eexists.
Qed.




(** Once a null cell has taken the prototype away, [__proto__] is an own
    name like any other. *)
Example proto_header_after_null :
  let schema := SchemaResponse.mk [col "proto" "INTEGER"] in
  dataOf (handleFileUpload (constService schema)
            (lines ["__proto__,__proto__"; ",7"]))
  = [GridRow.mk (<["__proto__" := VNumber (Double.ofDecimal false 7 0)]> ∅)
                false].
Proof. reflexivity. Qed.

(* ===================================================================== *)
(** ** Numeric parsing                                                    *)
(* ===================================================================== *)

Section Parsing.

Implicit Types (s : string).

Lemma spanDigits_empty s :
  Js.isEmpty (fst (JsNum.spanDigits s)) = negb (JsNum.startsWithDigit s).
Proof.
  destruct s as [|c r]; simpl; [done|].
  destruct (Js.isDigit c); [|done].
  by destruct (JsNum.spanDigits r).
Qed.

Lemma nearest_not_NaN (negative : bool) (a b : N) :
  Double.nearest negative a b <> NaN.
Proof.
  unfold Double.nearest. destruct (a =? 0)%N; [done|].
  destruct (if (_ =? 2 ^ 53)%N then _ else _) as [m e].
  by destruct (971 <? e)%Z.
Qed.

(** Reading a numeral never gives NaN. *)
Lemma ofDecimal_not_NaN (negative : bool) (digits : N) (exponent : Z) :
  Double.ofDecimal negative digits exponent <> NaN.
Proof.
  unfold Double.ofDecimal. destruct (0 <=? exponent)%Z; apply nearest_not_NaN.
Qed.

Ltac not_a_NaN :=
  solve [discriminate | let E := fresh in intros E; by apply ofDecimal_not_NaN in E].

(** [parseInt] gives NaN exactly when no digit follows the leading white
    space and the optional sign. *)
Lemma parseInt_NaN_iff s :
  JsNum.parseInt s = NaN <->
  JsNum.startsWithDigit (snd (JsNum.readSign (Js.trimStart s))) = false.
Proof.
  unfold JsNum.parseInt.
  destruct (JsNum.readSign (Js.trimStart s)) as [neg r]. simpl.
  pose proof (spanDigits_empty r) as H.
  destruct (JsNum.spanDigits r) as [z t]. simpl in H. rewrite H.
  destruct (JsNum.startsWithDigit r); simpl; [|done].
  split; [not_a_NaN | done].
Qed.

(** [parseFloat] gives NaN exactly when what follows the white space and
    the sign is neither [Infinity], nor a digit, nor a dot and a digit. *)
Lemma parseFloat_NaN_iff s :
  let r := snd (JsNum.readSign (Js.trimStart s)) in
  JsNum.parseFloat s = NaN <->
  String.prefix "Infinity" r = false /\
  JsNum.startsWithDigit r = false /\
  (forall t, r = String "."%char t -> JsNum.startsWithDigit t = false).
Proof.
  unfold JsNum.parseFloat.
  destruct (JsNum.readSign (Js.trimStart s)) as [neg r]. simpl.
  destruct (String.prefix "Infinity" r).
  { split; [not_a_NaN | by intros [? _]]. }
  pose proof (spanDigits_empty r) as Hip.
  destruct (JsNum.spanDigits r) as [ip r1] eqn:Eip. simpl in Hip.
  destruct (JsNum.startsWithDigit r) eqn:Er.
  - (* a digit first: an integer part was read *)
    destruct ip; [not_a_NaN|].
    destruct r1 as [|c t]; [|destruct (Ascii.eqb c "."%char);
                              destruct (JsNum.spanDigits t)];
      simpl; (split; [not_a_NaN | by intros (_ & ? & _)]).
  - (* no integer part: what follows the digits is [r] itself *)
    destruct ip; [|not_a_NaN].
    assert (r1 = r) as ->.
    { destruct r as [|c t]; simpl in *; [congruence|].
      rewrite Er in Eip. congruence. }
    destruct r as [|c t]; simpl.
    { split; [|done]. intros _. repeat split. intros t. not_a_NaN. }
    destruct (Ascii.eqb c "."%char) eqn:Ec.
    + apply Ascii.eqb_eq in Ec. subst c.
      pose proof (spanDigits_empty t) as Hfp.
      destruct (JsNum.spanDigits t) as [fp r2]. simpl in Hfp. rewrite Hfp.
      destruct (JsNum.startsWithDigit t) eqn:Et; simpl.
      * split; [not_a_NaN|].
        intros (_ & _ & H). specialize (H t eq_refl). congruence.
      * split; [|done]. intros _. repeat split.
        intros t' [= <-]. done.
    + simpl. split; [|done]. intros _. repeat split.
      intros t' [= -> ?]. by rewrite Ascii.eqb_refl in Ec.
Qed.

(** The value of a run of digits is positional, base ten. *)
Lemma digitsValueFrom_app (acc : N) s t :
  JsNum.digitsValueFrom acc (s +:+ t)
  = JsNum.digitsValueFrom (JsNum.digitsValueFrom acc s) t.
Proof.
  revert acc. induction s as [|c r IH]; intros acc; [done|].
  rewrite append_cons. simpl. apply IH.
Qed.

Lemma digitsValue_snoc s c :
  JsNum.digitsValue (s +:+ String c EmptyString)
  = (JsNum.digitsValue s * 10 + (N_of_ascii c - 48))%N.
Proof. unfold JsNum.digitsValue. by rewrite digitsValueFrom_app. Qed.

End Parsing.

Example parseFloat_stops_at_comma :
  JsNum.parseFloat "1,234.5" = Double.ofDecimal false 1 0.
Proof. reflexivity. Qed.

Example parseInt_examples :
  JsNum.parseInt "30" = Double.ofDecimal false 30 0 /\
  JsNum.parseInt "-7 apples" = Double.ofDecimal true 7 0 /\
  JsNum.parseInt "abc" = NaN /\
  JsNum.parseFloat "2.50e1x" = Double.ofDecimal false 250 (-1) /\
  JsNum.parseFloat "n/a" = NaN.
Proof. repeat split. Qed.

(* ===================================================================== *)
(** ** Cell coercion                                                      *)
(* ===================================================================== *)

Lemma typeIs_true (ty : option string) (t : string) :
  typeIs ty t = true <-> ty = Some t.
Proof.
  destruct ty as [s|]; simpl; [|split; discriminate].
  rewrite String.eqb_eq. split; congruence.
Qed.

Lemma typeIs_false (ty : option string) (t : string) :
  typeIs ty t = false <-> ty <> Some t.
Proof.
  rewrite <- typeIs_true. by destruct (typeIs ty t).
Qed.

Lemma cellValue_integer (m : gmap string ColumnSchema.t) (header raw : string) :
  schemaType m header = Some "INTEGER" ->
  cellValue m header raw
  = if Js.isEmpty raw then VNull else VNumber (JsNum.parseInt raw).
Proof.
  intros H. unfold cellValue. rewrite H. simpl.
  by destruct raw.
Qed.

Lemma cellValue_numeric (m : gmap string ColumnSchema.t) (header raw : string) :
  schemaType m header = Some "NUMERIC" ->
  cellValue m header raw
  = if Js.isEmpty raw then VNull else VNumber (JsNum.parseFloat raw).
Proof.
  intros H. unfold cellValue. rewrite H. simpl.
  by destruct raw.
Qed.

Lemma cellValue_other (m : gmap string ColumnSchema.t) (header raw : string) :
  schemaType m header <> Some "INTEGER" ->
  schemaType m header <> Some "NUMERIC" ->
  cellValue m header raw = VString raw.
Proof.
  intros Hi Hn. unfold cellValue.
  apply typeIs_false in Hi, Hn. by rewrite Hi, Hn.
Qed.

(** A cell is null only as the empty text of a numeric column. *)
Lemma cellValue_null_iff (m : gmap string ColumnSchema.t) (header raw : string) :
  cellValue m header raw = VNull <->
  (schemaType m header = Some "INTEGER" \/
   schemaType m header = Some "NUMERIC") /\ raw = EmptyString.
Proof.
  unfold cellValue.
  destruct (typeIs (schemaType m header) "INTEGER") eqn:Ei.
  - apply typeIs_true in Ei.
    destruct raw; simpl; split; try done; [by auto | by intros [_ ?]].
  - destruct (typeIs (schemaType m header) "NUMERIC") eqn:En.
    + apply typeIs_true in En.
      destruct raw; simpl; split; try done; [by auto | by intros [_ ?]].
    + apply typeIs_false in Ei, En.
      split; [done | by intros [[?|?] _]].
Qed.

(** C1, as the code has it: under a header other than [__proto__] the row
    holds the coercion of the trimmed field at the header's position (its
    last position when the name repeats), the empty string when the row has
    no such field.  In an INTEGER column the empty string gives null and
    any other text the result of [parseInt(text, 10)]; in a NUMERIC column
    the empty string gives null and any other text the result of
    [parseFloat(text)]; text that cannot be parsed gives NaN, which is a
    Number and not null.  Every other column keeps the trimmed string, the
    empty one included.  The coercion is total: no text makes it fail. *)
Theorem cell_coercion (m : gmap string ColumnSchema.t)
    (headers : list string) (delimiter : ascii) (row : string)
    (idx : nat) (header : string) :
  header <> "__proto__" ->
  headers !! idx = Some header ->
  (forall later, idx < later -> headers !! later <> Some header) ->
  let values := Js.split delimiter row in
  let raw := rawValue values idx in
  let ty := schemaType m header in
  GridRow.own (gridRow m headers delimiter row) !! header
  = Some (cellValue m header raw) /\
  raw = match values !! idx with
        | Some field => Js.trim field
        | None => EmptyString
        end /\
  (ty = Some "INTEGER" ->
   cellValue m header raw
   = if Js.isEmpty raw then VNull else VNumber (JsNum.parseInt raw)) /\
  (ty = Some "NUMERIC" ->
   cellValue m header raw
   = if Js.isEmpty raw then VNull else VNumber (JsNum.parseFloat raw)) /\
  (ty <> Some "INTEGER" -> ty <> Some "NUMERIC" ->
   cellValue m header raw = VString raw) /\
  (cellValue m header raw = VNull <->
   (ty = Some "INTEGER" \/ ty = Some "NUMERIC") /\ raw = EmptyString) /\
  (JsNum.parseInt raw = NaN <->
   JsNum.startsWithDigit (snd (JsNum.readSign (Js.trimStart raw))) = false) /\
  (JsNum.parseFloat raw = NaN <->
   String.prefix "Infinity" (snd (JsNum.readSign (Js.trimStart raw))) = false /\
   JsNum.startsWithDigit (snd (JsNum.readSign (Js.trimStart raw))) = false /\
   (forall t, snd (JsNum.readSign (Js.trimStart raw)) = String "."%char t ->
      JsNum.startsWithDigit t = false)).
Proof.
  intros Hp Hidx Hlast values raw ty.
  split; [by apply gridRowOf_lookup|].
  split.
  { unfold raw. destruct (values !! idx) as [field|] eqn:E.
    - by apply rawValue_field.
    - apply rawValue_short. by apply lookup_ge_None. }
  split; [apply cellValue_integer|].
  split; [apply cellValue_numeric|].
  split; [apply cellValue_other|].
  split; [apply cellValue_null_iff|].
  split; [apply parseInt_NaN_iff | apply parseFloat_NaN_iff].
Qed.

(** An INTEGER column holding [abc]: the cell is NaN, not null. *)
Lemma cell_coercion_witness :
  GridRow.own
    (gridRow (schemaMap (SchemaResponse.mk [col "age" "INTEGER"]))
       ["name"; "age"] ","%char "Bob,abc") !! "age"
  = Some (VNumber NaN).
Proof.
  refine (eq_trans
    (proj1 (cell_coercion (schemaMap (SchemaResponse.mk [col "age" "INTEGER"]))
              ["name"; "age"] ","%char "Bob,abc" 1 "age" _ eq_refl _))
    eq_refl).
  - discriminate.
  - intros later Hlater.
    destruct later as [|[|[|later]]]; simpl; solve [lia | discriminate].
Defined.

(** C1 as stated fails.  Text that cannot be parsed does not become null:
    with [age] resolved to INTEGER and [score] to NUMERIC, the row
    [Bob,abc,n/a] gets NaN in both cells, while the row [Al,,] gets null.
    And not every header has a cell: under the header line [__proto__,b]
    the row [x,y] holds [y] under [b] and nothing under [__proto__]. *)
Lemma unparsable_numeric_text_counterexample :
  (let schema := SchemaResponse.mk [col "age" "INTEGER"; col "score" "NUMERIC"] in
   let rows := dataOf (handleFileUpload (constService schema)
                         (lines ["name,age,score"; "Bob,abc,n/a"; "Al,,"])) in
   (fun row => GridRow.own row !! "age") <$> rows
   = [Some (VNumber NaN); Some VNull] /\
   (fun row => GridRow.own row !! "score") <$> rows
   = [Some (VNumber NaN); Some VNull]) /\
  VNumber NaN <> VNull /\
  (let rows := dataOf (handleFileUpload (constService (SchemaResponse.mk []))
                         (lines ["__proto__,b"; "x,y"])) in
   (fun row => (GridRow.own row !! "__proto__", GridRow.own row !! "b")) <$> rows
   = [(None, Some (VString "y"))]).
Proof. split; [by vm_compute|]. split; [discriminate | by vm_compute]. Qed.

(** The two end-to-end scenarios of the specification. *)
Example end_to_end_scenario :
  let schema := SchemaResponse.mk
    [col "name" "TEXT"; col "age" "INTEGER"; col "joined" "DATE"] in
  dataOf (handleFileUpload (constService schema)
            (lines ["name,age,joined"; "Alice,30,2020-01-01";
                    "Bob,,2021-06-15"]))
  = [ GridRow.mk
        (<["joined" := VString "2020-01-01"]>
           (<["age" := VNumber (Double.ofDecimal false 30 0)]>
              (<["name" := VString "Alice"]> ∅))) true;
      GridRow.mk
        (<["joined" := VString "2021-06-15"]>
           (<["age" := VNull]> (<["name" := VString "Bob"]> ∅))) true ].
Proof. reflexivity. Qed.

Example short_row_scenario :
  let schema := SchemaResponse.mk
    [col "a" "TEXT"; col "b" "TEXT"; col "c" "NUMERIC"] in
  (fun row : GridRow.t =>
     (GridRow.own row !! "a", GridRow.own row !! "b", GridRow.own row !! "c"))
    <$> dataOf (handleFileUpload (constService schema) (lines ["a,b,c"; "x"]))
  = [(Some (VString "x"), Some (VString ""), Some VNull)].
Proof. reflexivity. Qed.

(* ===================================================================== *)
(** ** Header normalization and the schema map                            *)
(* ===================================================================== *)

Section SchemaMap.

Implicit Types (cols : list ColumnSchema.t) (m : gmap string ColumnSchema.t).










End SchemaMap.

Section Normalization.

Implicit Types (s : string).






End Normalization.


(** The service answers [customer_id]; the file says [Customer ID]. *)
Example header_resolves_across_spellings :
  let schema := SchemaResponse.mk
    [col "order_no" "INTEGER"; col "customer_id" "TEXT"] in
  schemaType (schemaMap schema) "Customer ID" = Some "TEXT" /\
  schemaType (schemaMap schema) "CUSTOMERID" = Some "TEXT" /\
  schemaType (schemaMap schema) "Order No" = Some "INTEGER" /\
  schemaType (schemaMap schema) "Customer-ID" = None.
Proof. by repeat split. Qed.

(* ===================================================================== *)
(** ** Column configuration                                               *)
(* ===================================================================== *)

Lemma typeOrText_some (t : string) :
  t <> EmptyString -> typeOrText (Some t) = t.
Proof. by destruct t. Qed.

Lemma gridColumn_numeric (m : gmap string ColumnSchema.t) (header : string) :
  schemaType m header = Some "INTEGER" \/
  schemaType m header = Some "NUMERIC" ->
  gridColumn m header
  = {| GridColumn.field := header;
       GridColumn.headerName := header;
       GridColumn.type := typeOrText (schemaType m header);
       GridColumn.sortable := true;
       GridColumn.resizable := true;
       GridColumn.enableValue := true;
       GridColumn.width := 150;
       GridColumn.filter := "agNumberColumnFilter";
       GridColumn.valueFormatter := Some numericFormat;
       GridColumn.aggFunc := Some "sum";
       GridColumn.allowedAggFuncs :=
         Some ["sum"; "avg"; "min"; "max"; "count"] |}.
Proof.
  intros H. unfold gridColumn.
  destruct H as [H | H]; apply typeIs_true in H; rewrite H;
    by rewrite ?orb_true_r.
Qed.

Lemma gridColumn_text (m : gmap string ColumnSchema.t) (header : string) :
  schemaType m header <> Some "INTEGER" ->
  schemaType m header <> Some "NUMERIC" ->
  gridColumn m header
  = {| GridColumn.field := header;
       GridColumn.headerName := header;
       GridColumn.type := typeOrText (schemaType m header);
       GridColumn.sortable := true;
       GridColumn.resizable := true;
       GridColumn.enableValue := true;
       GridColumn.width := 150;
       GridColumn.filter := "agTextColumnFilter";
       GridColumn.valueFormatter := None;
       GridColumn.aggFunc := None;
       GridColumn.allowedAggFuncs := None |}.
Proof.
  intros Hi Hn. unfold gridColumn.
  apply typeIs_false in Hi, Hn. by rewrite Hi, Hn.
Qed.

Lemma gridColumn_type (m : gmap string ColumnSchema.t) (header : string) :
  GridColumn.type (gridColumn m header) = typeOrText (schemaType m header).
Proof. unfold gridColumn. by destruct (_ || _). Qed.

(* ===================================================================== *)
(** ** The sample sent to the inference service                           *)
(* ===================================================================== *)

(** C4, as the code has it: the sample sent to the inference service is the
    first five kept rows joined by line feeds, that is, the header row and
    the first four data rows (all of them when there are fewer than four);
    with four data rows or more the sample has exactly five rows. *)
Theorem sample_is_first_five_rows (text row0 : string) (rest : list string) :
  allRows text = row0 :: rest ->
  sampleData (allRows text) = Js.join Js.LF (row0 :: take 4 rest) /\
  handleFileUpload echoService text
  = Err (InferenceError (Js.join Js.LF (row0 :: take 4 rest))) /\
  (4 <= length rest -> length (row0 :: take 4 rest) = 5) /\
  (forall service : string -> ascii -> inference,
     handleFileUpload service text
     = (schema ← await (service (Js.join Js.LF (row0 :: take 4 rest))
                          (detectDelimiter text));
        handleFileUpload (constService schema) text)).
Proof.
  intros Hrows.
  assert (Hs : sampleData (row0 :: rest) = Js.join Js.LF (row0 :: take 4 rest))
    by reflexivity.
  split; [by rewrite Hrows|].
  split; [by rewrite (handleFileUpload_rows _ _ _ _ Hrows), Hs|].
  split.
  { intros H. simpl. rewrite length_take. lia. }
  intros service. rewrite (handleFileUpload_rows _ _ _ _ Hrows), Hs.
  destruct (service _ _) as [schema|message]; simpl; [|done].
  by rewrite (handleFileUpload_rows _ _ _ _ Hrows).
Qed.

Lemma sample_is_first_five_rows_witness :
  allRows (lines ["h"; "1"; ""; "2"; "3"; "4"; "5"])
  = "h" :: ["1"; "2"; "3"; "4"; "5"] /\
  sampleData (allRows (lines ["h"; "1"; ""; "2"; "3"; "4"; "5"]))
  = lines ["h"; "1"; "2"; "3"; "4"].
Proof.
  split; [reflexivity|].
  exact (proj1 (sample_is_first_five_rows
                  (lines ["h"; "1"; ""; "2"; "3"; "4"; "5"]) "h"
                  ["1"; "2"; "3"; "4"; "5"] eq_refl)).
Defined.

(** C4 as stated fails: with a header and five data rows the service is
    sent the header and four data rows, not the header and five. *)
Lemma sample_five_data_rows_counterexample :
  let text := lines ["h"; "1"; "2"; "3"; "4"; "5"] in
  let rows := allRows text in
  5 <= length (drop 1 rows) /\
  handleFileUpload echoService text
  = Err (InferenceError (lines ["h"; "1"; "2"; "3"; "4"])) /\
  lines ["h"; "1"; "2"; "3"; "4"]
  <> Js.join Js.LF (take 1 rows ++ take 5 (drop 1 rows)).
Proof. split; [vm_compute; lia|]. split; [reflexivity|discriminate]. Qed.

(* ===================================================================== *)
(** ** Determinism of the branch                                          *)
(* ===================================================================== *)

(** A column as the grid receives it: its configuration, and the function
    object that is its [valueFormatter], known by its address in the store.
    Each evaluation of the arrow function of a numeric column makes a
    function object that was not there before. *)
Module ColumnObject.
Record t : Type := mk { config : GridColumn.t; formatter : option nat }.
End ColumnObject.

Module GridObject.
Record t : Type := mk {
  columns : list ColumnObject.t;
  data : list GridRow.t;
  schema : SchemaResponse.t
}.
End GridObject.

(** The column object of a configuration, in a store whose first free
    address is [next], and the first address free after it. *)
Definition allocate (config : GridColumn.t) (next : nat)
    : ColumnObject.t * nat :=
  match GridColumn.valueFormatter config with
  | Some _ => (ColumnObject.mk config (Some next), S next)
  | None => (ColumnObject.mk config None, next)
  end.

(** The callback of [headers.map], column after column. *)
Fixpoint allocateAll (configs : list GridColumn.t) (next : nat)
    : list ColumnObject.t * nat :=
  match configs with
  | [] => ([], next)
  | config :: rest =>
      let '(column, next) := allocate config next in
      let '(columns, next) := allocateAll rest next in
      (column :: columns, next)
  end.

(** A run of the grid branch in a store whose first free address is
    [next]: the argument of [setGridData], or the error thrown, and the
    first address free after the run. *)
Definition run (service : string -> ascii -> inference) (text : string)
    (next : nat) : result GridObject.t * nat :=
  match handleFileUpload service text with
  | Ok grid =>
      let '(columns, next) := allocateAll (TypedGrid.columns grid) next in
      (Ok {| GridObject.columns := columns;
             GridObject.data := TypedGrid.data grid;
             GridObject.schema := TypedGrid.schema grid |}, next)
  | Err e => (Err e, next)
  end.


Section Allocation.

Implicit Types (configs : list GridColumn.t) (next : nat).





End Allocation.




(* ===================================================================== *)
(** ** Shape of the grid                                                  *)
(* ===================================================================== *)

Lemma length_remove_dups_le (l : list string) :
  length (remove_dups l) <= length l.
Proof.
  induction l as [|a l IH]; simpl; [done|].
  destruct (decide_rel _ a l); simpl; lia.
Qed.

Lemma length_remove_dups_eq (l : list string) :
  length (remove_dups l) = length l <-> NoDup l.
Proof.
  induction l as [|a l IH]; simpl.
  - split; [constructor|done].
  - pose proof (length_remove_dups_le l).
    destruct (decide_rel _ a l) as [Hin | Hin]; simpl.
    + split; [lia|]. intros Hnd. by apply NoDup_cons in Hnd as [? _].
    + rewrite NoDup_cons. split.
      * intros [= Hlen]. split; [done | by apply IH].
      * intros [_ Hnd]. f_equal. by apply IH.
Qed.

(** C2, as the code has it: a returned grid has one column per header
    field of the first non-blank line, in order, repeated names included;
    that number is the number of distinct header strings exactly when no
    header repeats, and is never below it.  Every own name of a row of the
    grid is a header name, and every row holds a value, possibly null,
    under every header name other than [__proto__]. *)
Theorem grid_shape (service : string -> ascii -> inference)
    (text row0 : string) (rest : list string) (grid : TypedGrid.t) :
  allRows text = row0 :: rest ->
  handleFileUpload service text = Ok grid ->
  let headers := headersOf (detectDelimiter text) row0 in
  GridColumn.field <$> TypedGrid.columns grid = headers /\
  length (TypedGrid.columns grid) = length headers /\
  length (remove_dups headers) <= length (TypedGrid.columns grid) /\
  (length (TypedGrid.columns grid) = length (remove_dups headers)
   <-> NoDup headers) /\
  length (TypedGrid.data grid) = length rest /\
  Forall (fun row : GridRow.t =>
            (forall key, key ∈ dom (GridRow.own row) -> key ∈ headers) /\
            forall h, h ∈ headers -> h <> "__proto__" ->
                      is_Some (GridRow.own row !! h))
         (TypedGrid.data grid).
Proof.
  intros Hrows Hrun headers.
  rewrite (handleFileUpload_rows _ _ _ _ Hrows) in Hrun.
  destruct (service _ _) as [schema|message]; simpl in Hrun; [|done].
  injection Hrun as <-. simpl. fold headers.
  assert (Hfield : GridColumn.field <$> (gridColumn (schemaMap schema) <$> headers)
                   = headers).
  { rewrite <- list_fmap_compose.
    rewrite <- (list_fmap_id headers) at 2.
    apply list_fmap_ext. intros i h _. apply gridColumn_field. }
  split; [done|].
  rewrite !length_fmap.
  split; [done|].
  split; [apply length_remove_dups_le|].
  split.
  { rewrite <- length_remove_dups_eq. split; congruence. }
  split; [done|].
  apply Forall_fmap, Forall_true. intros row. simpl.
  unfold gridRow. split; [intros key; apply gridRowOf_keys|].
  intros h Hh Hp. by apply gridRowOf_has.
Qed.

Lemma grid_shape_witness :
  let schema := SchemaResponse.mk [col "name" "TEXT"; col "age" "INTEGER"] in
  let text := lines ["name,age"; "Alice,30"; "Bob,"] in
  allRows text = "name,age" :: ["Alice,30"; "Bob,"] /\
  length (columnsOf (handleFileUpload (constService schema) text)) = 2 /\
  Forall (fun row : GridRow.t =>
            (forall key, key ∈ dom (GridRow.own row) -> key ∈ ["name"; "age"]) /\
            forall h, h ∈ ["name"; "age"] -> h <> "__proto__" ->
                      is_Some (GridRow.own row !! h))
         (dataOf (handleFileUpload (constService schema) text)).
Proof.
  intros schema text.
  pose proof (grid_shape (constService schema) text "name,age"
                ["Alice,30"; "Bob,"]
                {| TypedGrid.columns :=
                     columnsOf (handleFileUpload (constService schema) text);
                   TypedGrid.data :=
                     dataOf (handleFileUpload (constService schema) text);
                   TypedGrid.schema := schema |}
                eq_refl eq_refl) as (_ & Hlen & _ & _ & _ & Hrows).
  split; [reflexivity|]. split; [exact Hlen | exact Hrows].
Defined.

(** C2 as stated fails.  The header line [a,a] gives two columns for one
    distinct header string.  And the header line [__proto__,b] gives rows
    that hold no value under the header [__proto__]. *)
Lemma duplicate_headers_counterexample :
  (let run := handleFileUpload (constService (SchemaResponse.mk []))
                (lines ["a,a"; "1,2"]) in
   (exists grid, run = Ok grid) /\
   GridColumn.field <$> columnsOf run = ["a"; "a"] /\
   length (columnsOf run) = 2 /\
   length (remove_dups (GridColumn.field <$> columnsOf run)) = 1) /\
  (let run := handleFileUpload (constService (SchemaResponse.mk []))
                (lines ["__proto__,b"; "1,2"]) in
   GridColumn.field <$> columnsOf run = ["__proto__"; "b"] /\
   (fun row => GridRow.own row !! "__proto__") <$> dataOf run = [None]).
Proof. split; [split; [by eexists | by vm_compute] | by vm_compute]. Qed.

(* ===================================================================== *)
(** * The application state reducer                                       *)
(* ===================================================================== *)

(** [reducer], [initialState] and the types [State] and [Action] of
    frontend/src/App.tsx.  Numbers are stored and never computed with; they
    are integers here.  The [any] of a table's columns and rows is the
    cell [value] of the grid. *)
Module Reducer.

Record FileEntry : Type := mkFile { content : string; filename : string }.

Record Files : Type := mkFiles {
  files_main : option FileEntry;
  files_summary : option FileEntry
}.

Record Table : Type := mkTable {
  table_columns : list value;
  table_data : list value
}.

Record Tables : Type := mkTables {
  tables_main : option Table;
  tables_summary : option Table
}.

Record Chart : Type := mkChart { url : string; timestamp : Z }.

Record TableInfo : Type := mkTableInfo {
  tableName : option string;
  rowCount : Z;
  columns : list string
}.

Record State : Type := mkState {
  files : Files;
  tables : Tables;
  loading : bool;
  error : option string;
  status : string;
  progress : Z;
  charts : list Chart;
  tableInfo : TableInfo
}.

Inductive Action : Type :=
| SET_FILES (payload : Files)
| SET_LOADING (payload : bool)
| SET_ERROR (payload : option string)
| SET_STATUS (payload : string)
| SET_PROGRESS (payload : Z)
| ADD_CHART (payload : Chart)
| RESET
| SET_TABLE_INFO (tableName : string) (rowCount : Z) (columns : list string).

Definition initialState : State :=
  {| files := {| files_main := None; files_summary := None |};
     tables := {| tables_main := None; tables_summary := None |};
     loading := false;
     error := None;
     status := "pending";
     progress := 0;
     charts := [];
     tableInfo := {| tableName := None; rowCount := 0; columns := [] |} |}.

Definition reducer (state : State) (action : Action) : State :=
  match action with
  | SET_FILES payload =>
      {| files := payload; tables := tables state; loading := loading state;
         error := error state; status := status state;
         progress := progress state; charts := charts state;
         tableInfo := tableInfo state |}
  | SET_LOADING payload =>
      {| files := files state; tables := tables state; loading := payload;
         error := error state; status := status state;
         progress := progress state; charts := charts state;
         tableInfo := tableInfo state |}
  | SET_ERROR payload =>
      {| files := files state; tables := tables state; loading := loading state;
         error := payload; status := status state;
         progress := progress state; charts := charts state;
         tableInfo := tableInfo state |}
  | SET_STATUS payload =>
      {| files := files state; tables := tables state; loading := loading state;
         error := error state; status := payload;
         progress := progress state; charts := charts state;
         tableInfo := tableInfo state |}
  | SET_PROGRESS payload =>
      {| files := files state; tables := tables state; loading := loading state;
         error := error state; status := status state;
         progress := payload; charts := charts state;
         tableInfo := tableInfo state |}
  | RESET => initialState
  | ADD_CHART payload =>
      let newCharts := charts state ++ [payload] in
      {| files := files state; tables := tables state; loading := loading state;
         error := error state; status := status state;
         progress := progress state; charts := newCharts;
         tableInfo := tableInfo state |}
  | SET_TABLE_INFO name rows cols =>
      {| files := files state; tables := tables state; loading := loading state;
         error := error state; status := status state;
         progress := progress state; charts := charts state;
         tableInfo := {| tableName := Some name; rowCount := rows;
                         columns := cols |} |}
  end.

(** The state after a sequence of dispatched actions. *)
Definition dispatchAll (state : State) (actions : list Action) : State :=
  foldl reducer state actions.

(** The key of the state an action writes; [RESET] writes all of them. *)
Inductive Field : Type :=
| FFiles | FLoading | FError | FStatus | FProgress | FCharts | FTableInfo.

Definition target (action : Action) : option Field :=
  match action with
  | SET_FILES _ => Some FFiles
  | SET_LOADING _ => Some FLoading
  | SET_ERROR _ => Some FError
  | SET_STATUS _ => Some FStatus
  | SET_PROGRESS _ => Some FProgress
  | ADD_CHART _ => Some FCharts
  | RESET => None
  | SET_TABLE_INFO _ _ _ => Some FTableInfo
  end.

Definition isReset (action : Action) : bool :=
  match action with RESET => true | _ => false end.

(** The payloads of the [ADD_CHART] actions of a sequence, in order. *)
Definition addedCharts (actions : list Action) : list Chart :=
  omap (fun a => match a with ADD_CHART c => Some c | _ => None end) actions.

Lemma dispatchAll_app (state : State) (xs ys : list Action) :
  dispatchAll state (xs ++ ys) = dispatchAll (dispatchAll state xs) ys.
Proof. apply foldl_app. Qed.

Lemma charts_no_reset (actions : list Action) :
  forall state, forallb (fun a => negb (isReset a)) actions = true ->
    charts (dispatchAll state actions) = charts state ++ addedCharts actions.
Proof.
  induction actions as [|a r IH]; intros state H.
  - simpl. by rewrite app_nil_r.
  - simpl in H. apply andb_true_iff in H as [Ha Hr].
    change (dispatchAll state (a :: r)) with (dispatchAll (reducer state a) r).
    rewrite IH by done.
    destruct a; simpl in *; try done.
    by rewrite <- app_assoc.
Qed.

(** The charts shown are the charts added since the last reset, oldest
    first: whatever happened before a [RESET] leaves no chart behind, no
    action other than [RESET] removes or reorders a chart, and [ADD_CHART]
    is the only action that adds one. *)
Theorem reducer_charts_log (state : State) (before after : list Action) :
  forallb (fun a => negb (isReset a)) after = true ->
  charts (dispatchAll state (before ++ RESET :: after)) = addedCharts after /\
  charts (dispatchAll state after) = charts state ++ addedCharts after.
Proof.
  intros H. split; [|by apply charts_no_reset].
  rewrite dispatchAll_app. change (RESET :: after) with ([RESET] ++ after).
  rewrite dispatchAll_app. by rewrite charts_no_reset.
Qed.

Lemma reducer_charts_log_witness :
  let a := mkChart "blob:a" 1 in
  let b := mkChart "blob:b" 2 in
  let c := mkChart "blob:c" 3 in
  charts (dispatchAll initialState
            ([ADD_CHART a; SET_STATUS "x"] ++
             RESET :: [ADD_CHART b; SET_LOADING true; ADD_CHART c]))
  = [b; c].
Proof.
  intros a b c.
  apply (reducer_charts_log initialState [ADD_CHART a; SET_STATUS "x"]
           [ADD_CHART b; SET_LOADING true; ADD_CHART c]).
  reflexivity.
Defined.

(** A [RESET] erases the past: the state reached afterwards is the one
    reached from the initial state by the later actions alone. *)
Theorem reducer_reset_forgets (state : State) (before after : list Action) :
  dispatchAll state (before ++ RESET :: after) = dispatchAll initialState after.
Proof.
  rewrite dispatchAll_app. reflexivity.
Qed.

(** No action fills [tables]: from the initial state it stays
    [{main: null, summary: null}] for ever, and from any state it is either
    what it was or, after a [RESET], the initial one. *)
Theorem reducer_tables_never_set (actions : list Action) :
  tables (dispatchAll initialState actions) = tables initialState /\
  forall state,
    tables (dispatchAll state actions) = tables state \/
    tables (dispatchAll state actions) = tables initialState.
Proof.
  assert (H : forall state,
             tables (dispatchAll state actions) = tables state \/
             tables (dispatchAll state actions) = tables initialState).
  { induction actions as [|a r IH]; intros state; [by left|].
    change (dispatchAll state (a :: r)) with (dispatchAll (reducer state a) r).
    destruct (IH (reducer state a)) as [E | E]; [|by right].
    rewrite E. destruct a; simpl; auto. }
  split; [|done]. by destruct (H initialState).
Qed.

(** Two actions that write different keys of the state can be dispatched
    in either order. *)
Theorem reducer_commute (state : State) (a b : Action) :
  is_Some (target a) -> is_Some (target b) -> target a <> target b ->
  reducer (reducer state a) b = reducer (reducer state b) a.
Proof.
  intros [fa Ha] [fb Hb] Hne.
  destruct a, b; simpl in *; try done.
Qed.

Lemma reducer_commute_witness :
  reducer (reducer initialState (ADD_CHART (mkChart "blob:a" 1)))
          (SET_TABLE_INFO "sales" 10 ["id"])
  = reducer (reducer initialState (SET_TABLE_INFO "sales" 10 ["id"]))
            (ADD_CHART (mkChart "blob:a" 1)).
Proof.
  apply (reducer_commute initialState (ADD_CHART (mkChart "blob:a" 1))
           (SET_TABLE_INFO "sales" 10 ["id"])).
  - by eexists.
  - by eexists.
  - discriminate.
Defined.

(** For the keys that are overwritten (all but the charts) the last write
    wins: an earlier write to the same key leaves no trace. *)
Theorem reducer_last_write_wins (state : State) (a b : Action) :
  target a = target b -> target b <> Some FCharts ->
  reducer (reducer state a) b = reducer state b.
Proof.
  intros Heq Hb.
  destruct a, b; simpl in *; try done.
Qed.

Lemma reducer_last_write_wins_witness :
  reducer (reducer initialState (SET_STATUS "uploading")) (SET_STATUS "success")
  = reducer initialState (SET_STATUS "success").
Proof.
  apply (reducer_last_write_wins initialState (SET_STATUS "uploading")
           (SET_STATUS "success")); [reflexivity | discriminate].
Defined.

End Reducer.

(* ===================================================================== *)
(** * Schema analysis of an uploaded table                                *)
(* ===================================================================== *)

(** [fetchAndAnalyzeSchema], [fetchAndAnalyzeSchemaCustomDB] and
    [sendSchemaToAgent] of frontend/src/App.tsx, with the built-ins they
    call.  A record of a sample row is an ordinary object: its own
    properties are kept in creation order, and [Object.keys] lists the
    array-index names first, in ascending order, then the other names in
    creation order.  An HTTP exchange is a function from what is sent to
    what comes back. *)
Module SchemaAnalysis.

(* --------------------------------------------------------------------- *)
(** ** Built-ins                                                          *)

(** Characters [encodeURIComponent] leaves as they are. *)
Definition isUnreserved (c : ascii) : bool :=
  let n := N_of_ascii c in
  ((65 <=? n)%N && (n <=? 90)%N) || ((97 <=? n)%N && (n <=? 122)%N)
  || Js.isDigit c
  || existsb (Ascii.eqb c)
       ["-"; "_"; "."; "!"; "~"; "*"; "'"; "("; ")"]%char.

Definition hexDigit (n : N) : ascii :=
  if (n <? 10)%N then ascii_of_N (48 + n) else ascii_of_N (55 + n).

(** [%XX] for one octet. *)
Definition percent (n : N) (rest : string) : string :=
  String "%" (String (hexDigit (n / 16)) (String (hexDigit (n mod 16)) rest)).

(** [encodeURIComponent] on code units below 256: an octet for a code unit
    below 128, the two octets of its UTF-8 form otherwise. *)
Fixpoint encodeURIComponent (s : string) : string :=
  match s with
  | EmptyString => EmptyString
  | String c r =>
      let n := N_of_ascii c in
      if isUnreserved c then String c (encodeURIComponent r)
      else if (n <? 128)%N then percent n (encodeURIComponent r)
      else percent (192 + n / 64) (percent (128 + n mod 64)
                                     (encodeURIComponent r))
  end.

(** [s.replace(pattern, replacement)] for a string pattern that is not
    empty and a replacement without [$]: the first occurrence only. *)
Fixpoint replaceFirst (pattern replacement s : string) : string :=
  if String.prefix pattern s
  then replacement +:+ String.substring (String.length pattern)
                         (String.length s - String.length pattern) s
  else match s with
       | EmptyString => EmptyString
       | String c r => String c (replaceFirst pattern replacement r)
       end.

(** [s.replace(/^public\./, '')] *)
Definition stripPublic (s : string) : string :=
  if String.prefix "public." s
  then String.substring 7 (String.length s - 7) s
  else s.

(** A template literal prints [undefined] for a missing value. *)
Definition show (v : option string) : string := default "undefined" v.

(** [values.join(',')]: an undefined element prints as the empty string. *)
Definition joinValues (values : list (option string)) : string :=
  Js.join ","%char (default EmptyString <$> values).

(* --------------------------------------------------------------------- *)
(** ** Ordinary objects with string values                                *)

(** Own properties in creation order; a value may be [undefined]. *)
Abbreviation Obj := (list (string * option string)).

Fixpoint objUpdate (obj : Obj) (k : string) (v : option string) : Obj :=
  match obj with
  | [] => []
  | (k', v') :: r =>
      if String.eqb k' k then (k', v) :: r else (k', v') :: objUpdate r k v
  end.

Definition hasKey (obj : Obj) (k : string) : bool :=
  existsb (fun p => String.eqb (fst p) k) obj.

(** [obj[k] = v] on an object created by [{}], for [v] a string or
    undefined.  The name [__proto__] reaches the accessor inherited from
    [Object.prototype], which ignores such a value and creates nothing. *)
Definition objSet (obj : Obj) (k : string) (v : option string) : Obj :=
  if String.eqb k "__proto__" then obj
  else if hasKey obj k then objUpdate obj k v
  else obj ++ [(k, v)].

(** [obj[k]] for an own property; [None] when there is none. *)
Fixpoint objGet (obj : Obj) (k : string) : option (option string) :=
  match obj with
  | [] => None
  | (k', v) :: r => if String.eqb k' k then Some v else objGet r k
  end.

(** The array index a property name denotes: a canonical decimal numeral
    (no sign, no leading zero) of value at most 2^32 - 2. *)
Definition arrayIndex (k : string) : option N :=
  match k with
  | EmptyString => None
  | String c r =>
      if forallb Js.isDigit (list_ascii_of_string k)
         && (Js.isEmpty r || negb (Ascii.eqb c "0"))
         && (JsNum.digitsValue k <=? 4294967294)%N
      then Some (JsNum.digitsValue k) else None
  end.

Fixpoint insertIndex (x : N * string) (l : list (N * string))
    : list (N * string) :=
  match l with
  | [] => [x]
  | y :: r => if (fst x <=? fst y)%N then x :: l else y :: insertIndex x r
  end.

Definition sortIndices (l : list (N * string)) : list (N * string) :=
  foldr insertIndex [] l.

Definition indexed (k : string) : option (N * string) :=
  (fun n => (n, k)) <$> arrayIndex k.

Definition isName (k : string) : bool :=
  match arrayIndex k with Some _ => false | None => true end.

(** The order of [Object.keys], from the names in creation order. *)
Definition keyOrder (names : list string) : list string :=
  (snd <$> sortIndices (omap indexed names)) ++ List.filter isName names.

(** [Object.keys(obj)] *)
Definition ownKeys (obj : Obj) : list string := keyOrder (fst <$> obj).

(** [Object.values(obj)] *)
Definition ownValues (obj : Obj) : list (option string) :=
  (fun k => default None (objGet obj k)) <$> ownKeys obj.

(* --------------------------------------------------------------------- *)
(** ** Parsing a response text                                            *)

(** [text.split('\n').filter(row => row.trim())] *)
Definition nonBlankRows (text : string) : list string :=
  List.filter (fun row => Js.truthy (Js.trim row)) (Js.split Js.LF text).

(** [row.split(',').map(val => val.trim())] *)
Definition fieldsOf (row : string) : list string :=
  Js.trim <$> Js.split ","%char row.

Record StructureRow : Type := mkStructureRow {
  column_name : option string;
  data_type : option string
}.

(** [const [column_name, data_type] = ...; return { column_name, data_type }] *)
Definition structureRow (row : string) : StructureRow :=
  let values := fieldsOf row in
  {| column_name := values !! 0; data_type := values !! 1 |}.

Definition structureRows (text : string) : list StructureRow :=
  structureRow <$> nonBlankRows text.

Definition sampleRows (text : string) : list (list string) :=
  fieldsOf <$> nonBlankRows text.

Definition setField (row : list string) (obj : Obj) (header : string)
    (index : nat) : Obj :=
  objSet obj header (row !! index).

(** [headers.reduce((obj, header, index) => { obj[header] = row[index];
    return obj }, {})] *)
Definition rowObject (headers row : list string) : Obj :=
  reduce (setField row) [] headers.

(** [sampleRows.slice(1).map(row => headers.reduce(...))] with
    [headers = sampleRows[0]], which is read only when there is a row to
    map. *)
Definition sampleData (text : string) : list Obj :=
  match sampleRows text with
  | [] => []
  | headers :: rows => rowObject headers <$> rows
  end.

Record SchemaAnalysisResponse : Type := mkAnalysis {
  structure : list StructureRow;
  analysisSample : list Obj
}.

(* --------------------------------------------------------------------- *)
(** ** Requests                                                           *)

(** What a [fetch] of a text comes to. *)
Inductive fetched : Type :=
| FetchFailed                    (* the promise rejects *)
| Status (ok : bool) (body : string).

Inductive failure : Type :=
| ParseFailure     (* 'Failed to parse database response. Please try again.' *)
| TypeError        (* [Object.keys(undefined)] *)
| SendFailure      (* 'Failed to send schema to agent' *)
| Rejection.       (* the request, or reading its body, rejected *)

Inductive outcome (A : Type) : Type :=
| Done (a : A)
| Thrown (e : failure).
Arguments Done {A} a.
Arguments Thrown {A} e.

(** The body of a response whose status is ok; anything else throws. *)
Definition okBody (r : fetched) : option string :=
  match r with
  | Status true body => Some body
  | _ => None
  end.

Definition structureQuery (tableName : string) : string :=
  "SELECT column_name, data_type FROM information_schema.columns WHERE table_schema = 'public' AND table_name = '"
  +:+ tableName +:+ "'".

Definition sampleQuery (tableName : string) : string :=
  "SELECT * FROM public." +:+ tableName +:+ " LIMIT 10".

Definition queryUrl (query : string) : string :=
  "https://rexdb.hosting.tigzig.com/sqlquery/?sqlquery="
  +:+ encodeURIComponent query +:+ "&cloud=neon".

Section Fetch.

Variable fetch : string -> fetched.

(** Everything thrown inside the [try] is replaced by one error. *)
Definition fetchAndAnalyzeSchema (tableName : string)
    : outcome SchemaAnalysisResponse :=
  match okBody (fetch (queryUrl (structureQuery tableName))) with
  | None => Thrown ParseFailure
  | Some structureText =>
      let structureRows := structureRows structureText in
      match okBody (fetch (queryUrl (sampleQuery tableName))) with
      | None => Thrown ParseFailure
      | Some sampleText =>
          Done {| structure := structureRows;
                  analysisSample := sampleData sampleText |}
      end
  end.

End Fetch.

(** [structureTable] of [sendSchemaToAgent]. *)
Definition structureTable (structure : list StructureRow) : string :=
  Js.join Js.LF
    ((fun col => show (column_name col) +:+ " (" +:+ show (data_type col) +:+ ")")
       <$> structure).

(** [sampleDataTable] of [sendSchemaToAgent]; [Object.keys] throws on the
    undefined first element of an empty sample. *)
Definition sampleDataTable (sample : list Obj) : outcome string :=
  match sample with
  | [] => Thrown TypeError
  | first :: _ =>
      Done (Js.join Js.LF
              (Js.join ","%char (ownKeys first)
               :: ((fun row => joinValues (ownValues row)) <$> sample)))
  end.


(** A reply of the chat-flow service, as far as the code reads it: [text],
    [message] and [chatId] when they are strings, and the artifacts. *)
Record Artifact : Type := mkArtifact {
  art_type : option string;
  art_data : option string
}.

Record Reply : Type := mkReply {
  text : option string;
  message : option string;
  artifacts : list Artifact;
  chatId : option string
}.

(** [a || b] on values that are strings or undefined. *)
Definition orElse (a b : option string) : option string :=
  match a with
  | Some s => if Js.truthy s then a else b
  | None => b
  end.

Record Message : Type := mkMessage {
  role : string;
  content : option string
}.

(** What a POST of a question comes to: a rejection, or a status and the
    body parsed as JSON when it parses. *)
Inductive posted : Type :=
| PostFailed
| PostStatus (ok : bool) (json : option Reply).

(** The prompt of [sendSchemaToAgent], a template literal. *)
Definition schemaPrompt (tableName structureTable sampleDataTable : string)
    : string :=
  "I am sharing the schema and sample data for a PostgreSQL table. Note that you already have access to the data structure report and analysis report in your conversation history.

Database Details:
- Warehouse: Neon (PostgreSQL)
- Schema: public unless otherwise specified
- Table Name: "
  +:+ tableName
  +:+ "
- Connection: Available through SQL query tools

Table Structure:
"
  +:+ structureTable
  +:+ "

Sample Data (10 rows):
"
  +:+ sampleDataTable
  +:+ "

Instructions:
1. You already have access to the data structure and analysis reports from our previous conversation
2. Study this additional schema information
3. Note that you can use SQL query tools to access this database
5. The table name '"
  +:+ tableName
  +:+ "' must be used in all queries
6. Respond  with: Confirm that you have studied the schema and all. Share a few lines of your undrestanding of dataset and the kind of anlaysis that can be done. 
And then show your eagerness to assist with any questions and analysis that the user might have. 
Restrict your initial respose to 150 words

Please analyze this information and prepare to assist with queries and analysis.".

Section Post.

Variable post : string -> string -> posted.

Definition sendSchemaToAgent (schemaData : SchemaAnalysisResponse)
    (sessionId tableName : string) : outcome Reply :=
  let structureTable := structureTable (structure schemaData) in
  match sampleDataTable (analysisSample schemaData) with
  | Thrown e => Thrown e
  | Done sampleDataTable =>
      let prompt := schemaPrompt tableName structureTable sampleDataTable in
      match post prompt sessionId with
      | PostFailed => Thrown Rejection
      | PostStatus false _ => Thrown SendFailure
      | PostStatus true None => Thrown Rejection
      | PostStatus true (Some reply) => Done reply
      end
  end.

Variable fetch : string -> fetched.

Inductive toast : Type :=
| SchemaAnalysisComplete
| SchemaAnalysisFailed.

Record Analysis : Type := mkFlow {
  appended : list Message;       (* [setSharedMessages(prev => [...prev, m])] *)
  toasted : toast;
  chatTabActivated : bool
}.

(** The schema analysis that follows a successful upload in database mode
    ([handleFileUpload], after [SET_TABLE_INFO]). *)
Definition analyzeUploaded (sessionId tableName : string) : Analysis :=
  match fetchAndAnalyzeSchema fetch tableName with
  | Thrown _ => mkFlow [] SchemaAnalysisFailed false
  | Done schemaData =>
      match sendSchemaToAgent schemaData sessionId tableName with
      | Thrown _ => mkFlow [] SchemaAnalysisFailed false
      | Done schemaResponse =>
          mkFlow [ {| role := "assistant";
                      content := orElse (text schemaResponse)
                                        (message schemaResponse) |} ]
                 SchemaAnalysisComplete true
      end
  end.

End Post.

(* --------------------------------------------------------------------- *)
(** ** Facts about [split], [join] and [trim]                             *)

Section SplitJoin.

Implicit Types (s t : string) (c sep : ascii) (l : list string).

Lemma countChar_app c s t :
  Js.countChar c (s +:+ t) = Js.countChar c s + Js.countChar c t.
Proof.
  induction s as [|a r IH]; [done|].
  rewrite append_cons. simpl. rewrite IH. lia.
Qed.

(** No field of a split holds the separator. *)
Lemma split_fields_free sep s :
  Forall (fun f => Js.countChar sep f = 0) (Js.split sep s).
Proof.
  induction s as [|a r IH]; simpl; [by repeat constructor|].
  destruct (Ascii.eqb a sep) eqn:E; [by constructor|].
  destruct (Js.split sep r) as [|f fs]; [by repeat constructor; simpl; rewrite E|].
  apply Forall_cons in IH as [Hf Hfs].
  constructor; [|done]. simpl. by rewrite E.
Qed.

(** A field of a split holds no more of a character than the whole. *)
Lemma split_fields_le sep c s :
  Forall (fun f => Js.countChar c f <= Js.countChar c s) (Js.split sep s).
Proof.
  induction s as [|a r IH]; simpl; [by repeat constructor|].
  destruct (Ascii.eqb a sep) eqn:E.
  - constructor; [simpl; lia|].
    eapply Forall_impl; [exact IH|]. simpl. intros f Hf. lia.
  - destruct (Js.split sep r) as [|f fs]; [repeat constructor; simpl; lia|].
    apply Forall_cons in IH as [Hf Hfs].
    constructor; [simpl; lia|].
    eapply Forall_impl; [exact Hfs|]. simpl. intros g Hg. lia.
Qed.

Lemma countChar_trimStart_le c s :
  Js.countChar c (Js.trimStart s) <= Js.countChar c s.
Proof.
  induction s as [|a r IH]; simpl; [done|].
  destruct (Js.isWhiteSpace a); simpl; lia.
Qed.

Lemma countChar_trimEnd_le c s :
  Js.countChar c (Js.trimEnd s) <= Js.countChar c s.
Proof.
  induction s as [|a r IH]; simpl; [done|].
  destruct (Js.isWhiteSpace a && Js.isEmpty (Js.trimEnd r)); simpl; lia.
Qed.

Lemma countChar_trim_le c s :
  Js.countChar c (Js.trim s) <= Js.countChar c s.
Proof.
  unfold Js.trim.
  pose proof (countChar_trimEnd_le c (Js.trimStart s)).
  pose proof (countChar_trimStart_le c s). lia.
Qed.

Lemma split_sep_append sep s t :
  Js.countChar sep s = 0 ->
  Js.split sep (s +:+ String sep t) = s :: Js.split sep t.
Proof.
  induction s as [|a r IH]; intros H.
  - simpl. by rewrite Ascii.eqb_refl.
  - rewrite append_cons. simpl in *.
    destruct (Ascii.eqb a sep); [done|]. by rewrite IH.
Qed.

Lemma join_cons sep s l :
  l <> [] -> Js.join sep (s :: l) = s +:+ String sep (Js.join sep l).
Proof. by destruct l. Qed.

(** Joining fields that are free of the separator and splitting again
    gives the fields back. *)
Lemma split_join sep l :
  l <> [] -> Forall (fun f => Js.countChar sep f = 0) l ->
  Js.split sep (Js.join sep l) = l.
Proof.
  induction l as [|f fs IH]; intros Hne Hfree; [done|].
  apply Forall_cons in Hfree as [Hf Hfs].
  destruct fs as [|g gs].
  - simpl. by apply split_no_sep.
  - rewrite join_cons by done.
    rewrite (split_sep_append sep f _ Hf). by rewrite IH.
Qed.

Lemma countChar_join_other sep c l :
  Ascii.eqb sep c = false ->
  Forall (fun f => Js.countChar c f = 0) l ->
  Js.countChar c (Js.join sep l) = 0.
Proof.
  intros Hc. induction l as [|f fs IH]; intros H; [done|].
  apply Forall_cons in H as [Hf Hfs].
  destruct fs as [|g gs]; [done|].
  rewrite join_cons by done.
  rewrite countChar_app.
  change (Js.countChar c (String sep ?x))
    with ((if Ascii.eqb sep c then 1 else 0) + Js.countChar c x).
  by rewrite Hc, Hf, IH.
Qed.

End SplitJoin.

(* --------------------------------------------------------------------- *)
(** ** Facts about objects                                                *)

(** What assigning to the name [k] does to the list of own names. *)
Definition addName (names : list string) (k : string) : list string :=
  if String.eqb k "__proto__" then names
  else if existsb (fun k' => String.eqb k' k) names then names
  else names ++ [k].

(** The own names of a row object, in creation order. *)
Definition createdNames (headers : list string) : list string :=
  foldl addName [] headers.

Section Objects.

Implicit Types (obj : Obj) (k : string) (v : option string).

Lemma hasKey_names obj k :
  hasKey obj k = existsb (fun k' => String.eqb k' k) (fst <$> obj).
Proof.
  unfold hasKey. induction obj as [|[k' v'] r IH]; [done|].
  rewrite fmap_cons. simpl. by rewrite IH.
Qed.

Lemma names_objUpdate obj k v : fst <$> objUpdate obj k v = fst <$> obj.
Proof.
  induction obj as [|[k' v'] r IH]; [done|]. simpl.
  destruct (String.eqb k' k); [done|].
  rewrite !fmap_cons. by rewrite IH.
Qed.

Lemma names_objSet obj k v : fst <$> objSet obj k v = addName (fst <$> obj) k.
Proof.
  unfold objSet, addName. destruct (String.eqb k "__proto__"); [done|].
  rewrite hasKey_names.
  destruct (existsb _ (fst <$> obj)); [apply names_objUpdate|].
  by rewrite fmap_app.
Qed.

Lemma names_reduceFrom (row headers : list string) :
  forall i obj,
    fst <$> reduceFrom (setField row) i obj headers
    = foldl addName (fst <$> obj) headers.
Proof.
  induction headers as [|h hs IH]; intros i obj; [done|].
  simpl. rewrite IH. unfold setField. by rewrite names_objSet.
Qed.

(** The own names of a row object do not depend on the row. *)
Lemma names_rowObject (headers row : list string) :
  fst <$> rowObject headers row = createdNames headers.
Proof. unfold rowObject, reduce. by rewrite names_reduceFrom. Qed.

Lemma elem_addNames k (headers : list string) :
  forall names, k ∈ foldl addName names headers ->
    k ∈ names \/ (k ∈ headers /\ k <> "__proto__").
Proof.
  induction headers as [|h hs IH]; intros names Hk; [by left|].
  simpl in Hk. apply IH in Hk as [Hk | [Hk Hp]].
  - unfold addName in Hk.
    destruct (String.eqb h "__proto__") eqn:Ep; [by left|].
    destruct (existsb _ names); [by left|].
    apply elem_of_app in Hk as [Hk | Hk]; [by left|].
    apply list_elem_of_singleton in Hk as ->.
    right. split; [by left|]. intros ->. by rewrite String.eqb_refl in Ep.
  - right. split; [by right | done].
Qed.

Lemma elem_createdNames k (headers : list string) :
  k ∈ createdNames headers -> k ∈ headers /\ k <> "__proto__".
Proof.
  intros H. apply elem_addNames in H as [H | H]; [|done].
  by apply elem_of_nil in H.
Qed.

Lemma objGet_objUpdate_eq obj k v :
  hasKey obj k = true -> objGet (objUpdate obj k v) k = Some v.
Proof.
  unfold hasKey. induction obj as [|[k' v'] r IH]; [done|]. simpl.
  destruct (String.eqb k' k) eqn:E; simpl; rewrite E; [done|]. apply IH.
Qed.

Lemma objGet_objUpdate_ne obj k k' v :
  k <> k' -> objGet (objUpdate obj k v) k' = objGet obj k'.
Proof.
  intros Hne. induction obj as [|[k0 v0] r IH]; [done|]. simpl.
  destruct (String.eqb k0 k) eqn:E; simpl.
  - apply String.eqb_eq in E. subst k0.
    by apply String.eqb_neq in Hne as ->.
  - by rewrite IH.
Qed.

Lemma objGet_snoc_eq obj k v :
  hasKey obj k = false -> objGet (obj ++ [(k, v)]) k = Some v.
Proof.
  unfold hasKey. induction obj as [|[k' v'] r IH]; simpl.
  - by rewrite String.eqb_refl.
  - destruct (String.eqb k' k); [done|]. apply IH.
Qed.

Lemma objGet_snoc_ne obj k k' v :
  k <> k' -> objGet (obj ++ [(k, v)]) k' = objGet obj k'.
Proof.
  intros Hne. induction obj as [|[k0 v0] r IH]; simpl.
  - by apply String.eqb_neq in Hne as ->.
  - by rewrite IH.
Qed.

(** Reading back what was assigned. *)
Lemma objGet_objSet_eq obj k v :
  k <> "__proto__" -> objGet (objSet obj k v) k = Some v.
Proof.
  intros Hp. unfold objSet. apply String.eqb_neq in Hp as ->.
  destruct (hasKey obj k) eqn:E;
    [by apply objGet_objUpdate_eq | by apply objGet_snoc_eq].
Qed.

(** An assignment leaves the other properties alone. *)
Lemma objGet_objSet_ne obj k k' v :
  k <> k' -> objGet (objSet obj k v) k' = objGet obj k'.
Proof.
  intros Hne. unfold objSet. destruct (String.eqb k "__proto__"); [done|].
  destruct (hasKey obj k);
    [by apply objGet_objUpdate_ne | by apply objGet_snoc_ne].
Qed.

Lemma objGet_reduce_notin (row headers : list string) k :
  forall i obj, k ∉ headers ->
    objGet (reduceFrom (setField row) i obj headers) k = objGet obj k.
Proof.
  induction headers as [|h hs IH]; intros i obj Hk; [done|].
  apply not_elem_of_cons in Hk as [Hh Hhs].
  simpl. rewrite IH by done. unfold setField.
  by apply objGet_objSet_ne.
Qed.

(** The value kept under a name is the field at its last position. *)
Lemma objGet_reduce_last (row headers : list string) k :
  forall j i obj,
    headers !! j = Some k -> k <> "__proto__" ->
    (forall l, j < l -> headers !! l <> Some k) ->
    objGet (reduceFrom (setField row) i obj headers) k = Some (row !! (i + j)).
Proof.
  induction headers as [|h hs IH]; intros j i obj Hj Hp Hlast; [done|].
  destruct j as [|j]; simpl in *.
  - injection Hj as ->.
    rewrite objGet_reduce_notin.
    + unfold setField. rewrite objGet_objSet_eq by done.
      by rewrite Nat.add_0_r.
    + intros Hin. apply list_elem_of_lookup in Hin as [l Hl].
      apply (Hlast (S l)); [lia|done].
  - rewrite (IH j (S i) _ Hj Hp).
    + do 2 f_equal. lia.
    + intros l Hl. apply (Hlast (S l)). lia.
Qed.

Lemma last_position (headers : list string) k :
  k ∈ headers ->
  exists j, headers !! j = Some k /\ forall l, j < l -> headers !! l <> Some k.
Proof.
  induction headers as [|h hs IH]; intros Hk; [by apply elem_of_nil in Hk|].
  destruct (decide (k ∈ hs)) as [Hin | Hnot].
  - destruct (IH Hin) as (j & Hj & Hlast).
    exists (S j). split; [done|].
    intros [|l] Hl; [lia|]. simpl. apply Hlast. lia.
  - apply elem_of_cons in Hk as [-> | Hk]; [|done].
    exists 0. split; [done|].
    intros [|l] Hl; [lia|]. simpl. intros Hl'.
    apply Hnot. by apply list_elem_of_lookup_2 in Hl'.
Qed.

Lemma insertIndex_perm (x : N * string) (l : list (N * string)) :
  insertIndex x l ≡ₚ x :: l.
Proof.
  induction l as [|y r IH]; [done|]. simpl.
  destruct (fst x <=? fst y)%N; [done|].
  rewrite IH. apply Permutation_swap.
Qed.

Lemma sortIndices_perm (l : list (N * string)) : sortIndices l ≡ₚ l.
Proof.
  induction l as [|x r IH]; [done|].
  simpl. rewrite insertIndex_perm. by rewrite IH.
Qed.

Lemma indexed_names (names : list string) :
  snd <$> omap indexed names
  = List.filter (fun k => negb (isName k)) names.
Proof.
  induction names as [|k r IH]; [done|].
  cbn [omap list_omap List.filter]. unfold indexed at 1, isName at 1.
  destruct (arrayIndex k); simpl; [f_equal|]; exact IH.
Qed.

Lemma filter_split_perm {A} (p : A -> bool) (l : list A) :
  List.filter (fun x => negb (p x)) l ++ List.filter p l ≡ₚ l.
Proof.
  induction l as [|x r IH]; [done|]. simpl.
  destruct (p x); simpl.
  - rewrite <- Permutation_middle. by rewrite IH.
  - by rewrite IH.
Qed.

(** [Object.keys] rearranges the own names and loses none. *)
Lemma keyOrder_perm (names : list string) : keyOrder names ≡ₚ names.
Proof.
  unfold keyOrder.
  rewrite (fmap_Permutation snd _ _ (sortIndices_perm _)).
  rewrite indexed_names. apply filter_split_perm.
Qed.

(** Names that are not array indices keep their creation order. *)
Lemma keyOrder_names (names : list string) :
  Forall (fun k => arrayIndex k = None) names -> keyOrder names = names.
Proof.
  intros H. unfold keyOrder.
  assert (Hi : omap indexed names = []).
  { induction H as [|k r Hk Hr IH]; [done|].
    cbn [omap list_omap]. unfold indexed at 1. by rewrite Hk. }
  assert (Hn : List.filter isName names = names).
  { clear Hi. induction H as [|k r Hk Hr IH]; [done|].
    cbn [List.filter]. unfold isName at 1. rewrite Hk. by f_equal. }
  by rewrite Hi, Hn.
Qed.

End Objects.

(* --------------------------------------------------------------------- *)
(** ** The sample table sent to the agent                                 *)

(** A field that holds neither a comma nor a line feed. *)
Definition clean (f : string) : Prop :=
  Js.countChar ","%char f = 0 /\ Js.countChar Js.LF f = 0.

Section SampleTable.

Implicit Types (headers row : list string) (text : string).

Lemma objGet_rowObject headers row (j : nat) (k : string) :
  headers !! j = Some k -> k <> "__proto__" ->
  (forall l, j < l -> headers !! l <> Some k) ->
  objGet (rowObject headers row) k = Some (row !! j).
Proof.
  intros Hj Hp Hlast. unfold rowObject, reduce.
  by rewrite (objGet_reduce_last row headers k j 0 [] Hj Hp Hlast).
Qed.

Lemma ownKeys_rowObject headers row :
  ownKeys (rowObject headers row) = keyOrder (createdNames headers).
Proof. unfold ownKeys. by rewrite names_rowObject. Qed.

(** Each listed name is a header, and its listed value is the field at the
    last position of that header. *)
Lemma ownValues_lookup headers row (p : nat) (k : string) :
  ownKeys (rowObject headers row) !! p = Some k ->
  k <> "__proto__" /\
  exists j, headers !! j = Some k /\
            (forall l, j < l -> headers !! l <> Some k) /\
            ownValues (rowObject headers row) !! p = Some (row !! j).
Proof.
  intros Hp.
  assert (Hk : k ∈ createdNames headers).
  { rewrite <- (keyOrder_perm (createdNames headers)),
      <- (ownKeys_rowObject headers row).
    by apply list_elem_of_lookup_2 in Hp. }
  apply elem_createdNames in Hk as [Hin Hproto].
  split; [done|].
  destruct (last_position headers k Hin) as (j & Hj & Hlast).
  exists j. split; [done|]. split; [done|].
  unfold ownValues. rewrite list_lookup_fmap, Hp. simpl.
  by rewrite (objGet_rowObject headers row j k Hj Hproto Hlast).
Qed.

Lemma clean_lookup row (j : nat) :
  Forall clean row -> clean (default EmptyString (row !! j)).
Proof.
  intros H. destruct (row !! j) as [f|] eqn:E; simpl; [|by split].
  by apply (Forall_lookup_1 _ _ _ _ H E).
Qed.

Lemma ownKeys_clean headers row :
  Forall clean headers -> Forall clean (ownKeys (rowObject headers row)).
Proof.
  intros H. apply Forall_forall. intros k Hk.
  rewrite ownKeys_rowObject, keyOrder_perm in Hk.
  apply elem_createdNames in Hk as [Hin _].
  by apply (proj1 (Forall_forall _ _) H).
Qed.

Lemma ownValues_clean headers row :
  Forall clean headers -> Forall clean row ->
  Forall clean (default EmptyString <$> ownValues (rowObject headers row)).
Proof.
  intros Hh Hr. apply Forall_lookup. intros p f Hp.
  rewrite list_lookup_fmap in Hp.
  destruct (ownValues (rowObject headers row) !! p) as [v|] eqn:Ev; [|done].
  injection Hp as <-.
  assert (Hlen : p < length (ownKeys (rowObject headers row))).
  { apply lookup_lt_Some in Ev. unfold ownValues in Ev.
    by rewrite length_fmap in Ev. }
  destruct (lookup_lt_is_Some_2 _ _ Hlen) as [k Hk].
  destruct (ownValues_lookup headers row p k Hk) as (_ & j & _ & _ & Hv).
  rewrite Ev in Hv. injection Hv as ->. by apply clean_lookup.
Qed.

Lemma length_ownValues (obj : Obj) :
  length (ownValues obj) = length (ownKeys obj).
Proof. unfold ownValues. by rewrite length_fmap. Qed.

Lemma nonBlankRows_no_LF text :
  Forall (fun r => Js.countChar Js.LF r = 0) (nonBlankRows text).
Proof.
  unfold nonBlankRows. apply Forall_forall. intros r Hr.
  apply list_elem_of_In, filter_In in Hr as [Hr _].
  apply list_elem_of_In in Hr.
  by apply (proj1 (Forall_forall _ _) (split_fields_free Js.LF text)).
Qed.

Lemma fieldsOf_clean (r : string) :
  Js.countChar Js.LF r = 0 -> Forall clean (fieldsOf r).
Proof.
  intros Hr. unfold fieldsOf. apply Forall_fmap, Forall_forall.
  intros f Hf. split; simpl.
  - pose proof (proj1 (Forall_forall _ _) (split_fields_free ","%char r) f Hf).
    pose proof (countChar_trim_le ","%char f). simpl in *. lia.
  - pose proof (proj1 (Forall_forall _ _) (split_fields_le ","%char Js.LF r) f Hf).
    pose proof (countChar_trim_le Js.LF f). simpl in *. lia.
Qed.

Lemma length_split_join (sep : ascii) (l : list string) :
  Forall (fun f => Js.countChar sep f = 0) l ->
  length (Js.split sep (Js.join sep l)) = Nat.max 1 (length l).
Proof.
  intros H. destruct l as [|f fs]; [done|].
  rewrite split_join by done. simpl. lia.
Qed.

(** A printed line: as many fields as there are own names (one when there
    is none), and no line feed. *)
Lemma printed_line (l : list string) :
  Forall clean l ->
  length (Js.split ","%char (Js.join ","%char l)) = Nat.max 1 (length l) /\
  Js.countChar Js.LF (Js.join ","%char l) = 0.
Proof.
  intros H. split.
  - apply length_split_join. eapply Forall_impl; [exact H|]. by intros f [? _].
  - apply countChar_join_other; [done|].
    eapply Forall_impl; [exact H|]. by intros f [_ ?].
Qed.

Lemma sampleRows_cons text (row0 : string) (rows : list string) :
  nonBlankRows text = row0 :: rows ->
  sampleData text = rowObject (fieldsOf row0) <$> (fieldsOf <$> rows).
Proof. intros H. unfold sampleData, sampleRows. by rewrite H. Qed.

End SampleTable.

(** The lines of the sample table for given headers and data rows. *)
Definition tableLines (headers : list string) (rows : list (list string))
    : list string :=
  Js.join ","%char (keyOrder (createdNames headers))
  :: ((fun row => joinValues (ownValues (rowObject headers row))) <$> rows).

Section SampleTableShape.

Implicit Types (headers row : list string) (rows : list (list string)).

Lemma sampleDataTable_lines headers rows :
  rows <> [] ->
  sampleDataTable (rowObject headers <$> rows)
  = Done (Js.join Js.LF (tableLines headers rows)).
Proof.
  intros Hne. destruct rows as [|row rest]; [done|].
  unfold tableLines. rewrite fmap_cons. unfold sampleDataTable.
  rewrite ownKeys_rowObject. do 3 f_equal.
  rewrite <- (fmap_cons (rowObject headers) row rest).
  by rewrite <- list_fmap_compose.
Qed.

Lemma tableLines_shape headers rows :
  Forall clean headers -> Forall (Forall clean) rows ->
  Forall (fun line =>
            Js.countChar Js.LF line = 0 /\
            length (Js.split ","%char line)
            = Nat.max 1 (length (keyOrder (createdNames headers))))
         (tableLines headers rows).
Proof.
  intros Hh Hrows. unfold tableLines. constructor.
  - pose proof (ownKeys_clean headers [] Hh) as Hk.
    rewrite ownKeys_rowObject in Hk.
    destruct (printed_line _ Hk) as [Hlen Hlf]. by split.
  - apply Forall_fmap, Forall_forall. intros row Hrow. simpl.
    pose proof (proj1 (Forall_forall _ _) Hrows row Hrow) as Hr.
    destruct (printed_line _ (ownValues_clean headers row Hh Hr)) as [Hlen Hlf].
    unfold joinValues. split; [done|].
    by rewrite Hlen, length_fmap, length_ownValues, ownKeys_rowObject.
Qed.

Lemma sample_rows_clean (text row0 : string) (rs : list string) :
  nonBlankRows text = row0 :: rs ->
  Forall clean (fieldsOf row0) /\ Forall (Forall clean) (fieldsOf <$> rs).
Proof.
  intros E. pose proof (nonBlankRows_no_LF text) as H. rewrite E in H.
  apply Forall_cons in H as [H0 Hrs].
  split; [by apply fieldsOf_clean|].
  apply Forall_fmap. eapply Forall_impl; [exact Hrs|].
  intros r Hr. by apply fieldsOf_clean.
Qed.

End SampleTableShape.

Lemma Done_inj {A} (a b : A) : Done a = Done b -> a = b.
Proof. congruence. Qed.

(** The table of sample data sent to the agent is rectangular whatever the
    response looked like: it has one line per non-blank line of the
    response, and every line has the same number of comma-separated fields,
    short rows being padded with empty fields and long rows cut. *)
Theorem sample_table_rectangular (text table : string) :
  sampleDataTable (sampleData text) = Done table ->
  length (Js.split Js.LF table) = length (nonBlankRows text) /\
  exists n, Forall (fun line => length (Js.split ","%char line) = n)
                   (Js.split Js.LF table).
Proof.
  intros H.
  destruct (nonBlankRows text) as [|row0 rs] eqn:E.
  { unfold sampleData, sampleRows in H. by rewrite E in H. }
  rewrite (sampleRows_cons _ _ _ E) in H.
  destruct rs as [|r1 rs]; [done|].
  rewrite sampleDataTable_lines in H by done.
  apply Done_inj in H. subst table.
  destruct (sample_rows_clean _ _ _ E) as [Hh Hrows].
  pose proof (tableLines_shape _ _ Hh Hrows) as Hshape.
  rewrite split_join.
  - split; [unfold tableLines; simpl; by rewrite !length_fmap|].
    eexists. eapply Forall_impl; [exact Hshape|]. by intros line [_ ?].
  - done.
  - eapply Forall_impl; [exact Hshape|]. by intros line [? _].
Qed.

Lemma sample_table_rectangular_witness :
  let text := lines ["id, name ,city"; "1,Ann"; ""; "2,Bob,Oslo,extra"] in
  sampleDataTable (sampleData text)
  = Done (lines ["id,name,city"; "1,Ann,"; "2,Bob,Oslo"]) /\
  length (Js.split Js.LF (lines ["id,name,city"; "1,Ann,"; "2,Bob,Oslo"]))
  = length (nonBlankRows text).
Proof.
  intros text. split; [reflexivity|].
  apply (sample_table_rectangular text). reflexivity.
Defined.

(** In the sample table a value stands under its own header.  The names
    are listed by [Object.keys] (array-index names first, repeated names
    once), and the value listed at the position of a name is the field the
    row has at the last position of that name in the header line,
    undefined when the row is too short. *)
Theorem sample_values_under_headers (headers row : list string)
    (p : nat) (k : string) :
  ownKeys (rowObject headers row) !! p = Some k ->
  k <> "__proto__" /\
  exists j, headers !! j = Some k /\
            (forall l, j < l -> headers !! l <> Some k) /\
            ownValues (rowObject headers row) !! p = Some (row !! j).
Proof. apply ownValues_lookup. Qed.

Lemma sample_values_under_headers_witness :
  ownKeys (rowObject ["b"; "2020"; "2019"; "b"] ["1"; "2"; "3"; "4"])
  = ["2019"; "2020"; "b"] /\
  ownValues (rowObject ["b"; "2020"; "2019"; "b"] ["1"; "2"; "3"; "4"])
  = [Some "3"; Some "2"; Some "4"] /\
  exists j, ["b"; "2020"; "2019"; "b"] !! j = Some "b" /\
            ownValues (rowObject ["b"; "2020"; "2019"; "b"] ["1"; "2"; "3"; "4"])
              !! 2 = Some (["1"; "2"; "3"; "4"] !! j).
Proof.
  split; [reflexivity|]. split; [reflexivity|].
  destruct (sample_values_under_headers ["b"; "2020"; "2019"; "b"]
              ["1"; "2"; "3"; "4"] 2 "b" eq_refl) as (_ & j & Hj & _ & Hv).
  by exists j.
Defined.

Lemma createdNames_nodup (headers : list string) :
  forall names,
    NoDup (names ++ headers) -> Forall (fun h => h <> "__proto__") headers ->
    foldl addName names headers = names ++ headers.
Proof.
  induction headers as [|h hs IH]; intros names Hnd Hp; simpl.
  - by rewrite app_nil_r.
  - apply Forall_cons in Hp as [Hh Hhs].
    assert (Hadd : addName names h = names ++ [h]).
    { unfold addName. apply String.eqb_neq in Hh as ->.
      destruct (existsb _ names) eqn:Ex; [|done].
      apply existsb_exists in Ex as (k & Hk & Ek).
      apply String.eqb_eq in Ek. subst k.
      apply NoDup_app in Hnd as (_ & Hdis & _).
      exfalso. apply (Hdis h); [by apply list_elem_of_In | by left]. }
    rewrite Hadd, IH; [by rewrite <- app_assoc | by rewrite <- app_assoc | done].
Qed.

(** Round trip.  When the header names are pairwise distinct, none of them
    is an array index or [__proto__], and every data row has as many fields
    as the header line, the sample table sent to the agent is the response
    itself with blank lines dropped and every field trimmed. *)
Theorem sample_table_round_trip (text row0 : string) (rows : list string) :
  nonBlankRows text = row0 :: rows -> rows <> [] ->
  NoDup (fieldsOf row0) ->
  Forall (fun h => arrayIndex h = None /\ h <> "__proto__") (fieldsOf row0) ->
  Forall (fun r => length (fieldsOf r) = length (fieldsOf row0)) rows ->
  sampleDataTable (sampleData text)
  = Done (Js.join Js.LF
            ((fun r => Js.join ","%char (fieldsOf r)) <$> (row0 :: rows))).
Proof.
  intros E Hne Hnd Hnames Hlen.
  rewrite (sampleRows_cons _ _ _ E).
  rewrite sampleDataTable_lines by (by destruct rows).
  set (headers := fieldsOf row0) in *.
  assert (Hcreated : createdNames headers = headers).
  { unfold createdNames. rewrite createdNames_nodup; [done|done|].
    eapply Forall_impl; [exact Hnames|]. by intros h [_ ?]. }
  assert (Hkeys : keyOrder headers = headers).
  { apply keyOrder_names. eapply Forall_impl; [exact Hnames|]. by intros h [? _]. }
  do 2 f_equal. unfold tableLines. rewrite Hcreated, Hkeys, fmap_cons.
  f_equal. rewrite <- list_fmap_compose.
  apply Forall_fmap_ext_1. eapply Forall_impl; [exact Hlen|].
  intros r Hr. simpl. unfold joinValues. f_equal.
  apply list_eq. intros i.
  unfold ownValues. rewrite ownKeys_rowObject, Hcreated, Hkeys.
  rewrite !list_lookup_fmap.
  destruct (headers !! i) as [h|] eqn:Eh; simpl.
  - assert (Hh : h <> "__proto__").
    { by apply (Forall_lookup_1 _ _ _ _ Hnames Eh). }
    rewrite (objGet_rowObject headers (fieldsOf r) i h Eh Hh).
    + simpl. apply lookup_lt_Some in Eh. rewrite <- Hr in Eh.
      by destruct (lookup_lt_is_Some_2 _ _ Eh) as [f ->].
    + intros l Hl El.
      pose proof (NoDup_lookup _ _ _ _ Hnd Eh El). lia.
  - apply lookup_ge_None in Eh. rewrite <- Hr in Eh.
    by rewrite (lookup_ge_None_2 _ _ Eh).
Qed.

Lemma sample_table_round_trip_witness :
  let text := lines [" id , name"; ""; "1, Ann "; "   "; "2,Bob"] in
  nonBlankRows text = " id , name" :: ["1, Ann "; "2,Bob"] /\
  sampleDataTable (sampleData text) = Done (lines ["id,name"; "1,Ann"; "2,Bob"]).
Proof.
  intros text. split; [reflexivity|].
  apply (sample_table_round_trip text " id , name" ["1, Ann "; "2,Bob"]).
  - reflexivity.
  - discriminate.
  - change (NoDup ["id"; "name"]).
    apply NoDup_cons. split; [|apply NoDup_singleton].
    intros H. apply list_elem_of_singleton in H. discriminate.
  - repeat constructor; discriminate.
  - by repeat constructor.
Defined.

(* --------------------------------------------------------------------- *)
(** ** A table without rows                                               *)

(** When both database requests succeed, the agent is sent the schema
    exactly when the sample response has a data row under its header line.
    With a header line only, or nothing, the analysis ends in the failure
    toast, no message is added and no request reaches the agent: the
    outcome is the same whatever the agent would have answered. *)
Theorem empty_table_analysis_fails (fetch : string -> fetched)
    (post : string -> string -> posted)
    (sessionId tableName structureText sampleText : string) :
  fetch (queryUrl (structureQuery tableName)) = Status true structureText ->
  fetch (queryUrl (sampleQuery tableName)) = Status true sampleText ->
  (length (nonBlankRows sampleText) <= 1 ->
   fetchAndAnalyzeSchema fetch tableName
   = Done {| structure := structureRows structureText; analysisSample := [] |} /\
   analyzeUploaded post fetch sessionId tableName
   = mkFlow [] SchemaAnalysisFailed false) /\
  (2 <= length (nonBlankRows sampleText) ->
   exists table,
     sampleDataTable (sampleData sampleText) = Done table /\
     analyzeUploaded post fetch sessionId tableName
     = match post (schemaPrompt tableName
                     (structureTable (structureRows structureText)) table)
                  sessionId with
       | PostStatus true (Some reply) =>
           mkFlow [ {| role := "assistant";
                       content := orElse (text reply) (message reply) |} ]
                  SchemaAnalysisComplete true
       | _ => mkFlow [] SchemaAnalysisFailed false
       end).
Proof.
  intros Hs Hd.
  assert (Hrun : fetchAndAnalyzeSchema fetch tableName
                 = Done {| structure := structureRows structureText;
                           analysisSample := sampleData sampleText |}).
  { unfold fetchAndAnalyzeSchema. by rewrite Hs, Hd. }
  split.
  - intros Hlen.
    assert (Hempty : sampleData sampleText = []).
    { unfold sampleData, sampleRows.
      destruct (nonBlankRows sampleText) as [|r0 [|r1 rs]]; simpl in *;
        [done | done | lia]. }
    unfold analyzeUploaded. rewrite Hrun, Hempty. by split.
  - intros Hlen.
    destruct (nonBlankRows sampleText) as [|r0 [|r1 rs]] eqn:E;
      simpl in Hlen; [lia | lia |].
    pose proof (sampleRows_cons _ _ _ E) as Hdata.
    pose proof (sampleDataTable_lines (fieldsOf r0) (fieldsOf <$> r1 :: rs)) as Ht.
    rewrite <- Hdata in Ht. specialize (Ht ltac:(done)).
    eexists. split; [exact Ht|].
    unfold analyzeUploaded, sendSchemaToAgent. rewrite Hrun. simpl.
    rewrite Ht.
    by destruct (post _ sessionId) as [|[] []].
Qed.

Lemma empty_table_analysis_fails_witness :
  let fetch := fun _ : string => Status true "id,name" in
  let post := fun _ _ : string =>
    PostStatus true (Some (mkReply (Some "ready") None [] None)) in
  length (nonBlankRows "id,name") <= 1 /\
  analyzeUploaded post fetch "session" "sales"
  = mkFlow [] SchemaAnalysisFailed false.
Proof.
  intros fetch post. split; [vm_compute; lia|].
  apply (empty_table_analysis_fails fetch post "session" "sales"
           "id,name" "id,name" eq_refl eq_refl).
  vm_compute. lia.
Defined.

(* --------------------------------------------------------------------- *)
(** ** Request URLs                                                       *)

Record ParsedDbCredentials : Type := mkCredentials {
  host : string;
  database : string;
  user : string;
  password : string;
  schema : string;
  port : string;
  db_type : string
}.

(** [parsedCredentials.schema || 'public'] *)
Definition schemaOrPublic (c : ParsedDbCredentials) : string :=
  if Js.truthy (schema c) then schema c else "public".

(** The two queries of [fetchAndAnalyzeSchemaCustomDB]. *)
Definition customStructureQuery (c : ParsedDbCredentials) (tableName : string)
    : string :=
  if String.eqb (db_type c) "mysql"
  then "SELECT column_name, data_type FROM information_schema.columns 
         WHERE table_schema = DATABASE() AND table_name = '"
       +:+ tableName +:+ "'"
  else "SELECT column_name, data_type FROM information_schema.columns 
         WHERE table_schema = '"
       +:+ schemaOrPublic c +:+ "' AND table_name = '" +:+ tableName +:+ "'".

Definition customSampleQuery (c : ParsedDbCredentials) (tableName : string)
    : string :=
  if String.eqb (db_type c) "mysql"
  then "SELECT * FROM " +:+ tableName +:+ " LIMIT 10"
  else "SELECT * FROM " +:+ schemaOrPublic c +:+ "."
       +:+ stripPublic tableName +:+ " LIMIT 10".

(** The URL both requests of [fetchAndAnalyzeSchemaCustomDB] are sent to. *)
Definition customUrl (c : ParsedDbCredentials) (query : string) : string :=
  "https://rexdb.hosting.tigzig.com/connect-db/?host=" +:+ host c
  +:+ "&database=" +:+ database c
  +:+ "&user=" +:+ user c
  +:+ "&password=" +:+ password c
  +:+ "&sqlquery=" +:+ encodeURIComponent query
  +:+ "&port=" +:+ port c
  +:+ "&db_type=" +:+ db_type c.

(** The encoding of one character. *)
Definition encodeChar (c : ascii) : string :=
  encodeURIComponent (String c EmptyString).

Section Urls.

Lemma encodeURIComponent_cons (c : ascii) (r : string) :
  encodeURIComponent (String c r) = encodeChar c +:+ encodeURIComponent r.
Proof.
  unfold encodeChar. simpl.
  destruct (isUnreserved c); [done|].
  by destruct (N_of_ascii c <? 128)%N.
Qed.

(** An encoded character holds none of the characters that structure a
    URL. *)
Lemma encodeChar_safe (c : ascii) :
  Js.countChar "&"%char (encodeChar c) = 0 /\
  Js.countChar "="%char (encodeChar c) = 0 /\
  Js.countChar "?"%char (encodeChar c) = 0 /\
  Js.countChar "#"%char (encodeChar c) = 0 /\
  Js.countChar "/"%char (encodeChar c) = 0 /\
  Js.countChar " "%char (encodeChar c) = 0.
Proof. destruct c as [[] [] [] [] [] [] [] []]; by vm_compute. Qed.

Lemma encodeURIComponent_safe (s : string) :
  Js.countChar "&"%char (encodeURIComponent s) = 0 /\
  Js.countChar "="%char (encodeURIComponent s) = 0 /\
  Js.countChar "?"%char (encodeURIComponent s) = 0 /\
  Js.countChar "#"%char (encodeURIComponent s) = 0 /\
  Js.countChar "/"%char (encodeURIComponent s) = 0 /\
  Js.countChar " "%char (encodeURIComponent s) = 0.
Proof.
  induction s as [|c r IH]; [done|].
  rewrite encodeURIComponent_cons, !countChar_app.
  destruct (encodeChar_safe c) as (-> & -> & -> & -> & -> & ->).
  exact IH.
Qed.

End Urls.

(** Whatever the table name, the URL of a query of
    [fetchAndAnalyzeSchema] has its two parameters [sqlquery] and [cloud]
    and no fragment: the encoded query adds no [&], [=], [?] or [#]. *)
Theorem query_url_parameters (query : string) :
  Js.countChar "?"%char (queryUrl query) = 1 /\
  Js.countChar "&"%char (queryUrl query) = 1 /\
  Js.countChar "="%char (queryUrl query) = 2 /\
  Js.countChar "#"%char (queryUrl query) = 0 /\
  Js.countChar " "%char (queryUrl query) = 0.
Proof.
  unfold queryUrl. rewrite !countChar_app.
  destruct (encodeURIComponent_safe query) as (-> & -> & -> & -> & _ & ->).
  by repeat split.
Qed.

(** How the text of a URL is read (RFC 3986): the fragment starts at the
    first [#], the query stands after the first [?] of what is before the
    fragment, its parameters are separated by [&], and the name of a
    parameter ends at its first [=].  Nothing is decoded. *)
Fixpoint beforeChar (c : ascii) (s : string) : string :=
  match s with
  | EmptyString => EmptyString
  | String a r => if Ascii.eqb a c then EmptyString else String a (beforeChar c r)
  end.

Fixpoint afterChar (c : ascii) (s : string) : option string :=
  match s with
  | EmptyString => None
  | String a r => if Ascii.eqb a c then Some r else afterChar c r
  end.

Definition urlQuery (url : string) : string :=
  default EmptyString (afterChar "?"%char (beforeChar "#"%char url)).

(** A parameter as written: its name, and its value when it has an [=]. *)
Definition parameter (piece : string) : string * option string :=
  (beforeChar "="%char piece, afterChar "="%char piece).

Definition urlParameters (url : string) : list (string * option string) :=
  parameter <$> Js.split "&"%char (urlQuery url).

(** The text of a parameter. *)
Definition written (p : string * option string) : string :=
  match p with
  | (name, Some v) => name +:+ String "="%char v
  | (name, None) => name
  end.

Section UrlReading.

Lemma append_assoc (s t u : string) : (s +:+ t) +:+ u = s +:+ (t +:+ u).
Proof. induction s as [|c r IH]; [done|]. rewrite !append_cons. by rewrite IH. Qed.

Lemma beforeChar_app (c : ascii) (s t : string) :
  Js.countChar c s = 0 -> beforeChar c (s +:+ t) = s +:+ beforeChar c t.
Proof.
  induction s as [|a r IH]; intros H; [done|].
  rewrite !append_cons. simpl in *.
  destruct (Ascii.eqb a c); [done|]. by rewrite IH.
Qed.

Lemma afterChar_app (c : ascii) (s t : string) :
  Js.countChar c s = 0 -> afterChar c (s +:+ t) = afterChar c t.
Proof.
  induction s as [|a r IH]; intros H; [done|].
  rewrite append_cons. simpl in *.
  destruct (Ascii.eqb a c); [done|]. by rewrite IH.
Qed.

Lemma beforeChar_free (c : ascii) (s : string) :
  beforeChar c s = s <-> Js.countChar c s = 0.
Proof.
  induction s as [|a r IH]; [done|]. simpl.
  destruct (Ascii.eqb a c); [done|]. simpl. rewrite <- IH.
  split; [by intros [= ->] | by intros ->].
Qed.

Lemma written_parameter (piece : string) : written (parameter piece) = piece.
Proof.
  unfold parameter. induction piece as [|a r IH]; [done|]. simpl.
  destruct (Ascii.eqb a "=") eqn:E.
  - apply Ascii.eqb_eq in E. by subst.
  - simpl in *. destruct (afterChar "=" r); rewrite ?append_cons;
      by rewrite IH.
Qed.

Lemma join_split (sep : ascii) (s : string) :
  Js.join sep (Js.split sep s) = s.
Proof.
  induction s as [|a r IH]; [done|]. simpl.
  destruct (Ascii.eqb a sep) eqn:E.
  - apply Ascii.eqb_eq in E. subst a.
    rewrite join_cons by apply split_not_nil. by rewrite IH.
  - pose proof (split_not_nil sep r).
    destruct (Js.split sep r) as [|f fs]; [done|].
    destruct fs as [|g gs]; simpl in *; by rewrite <- IH.
Qed.

(** The parameters, written out and joined, are the query. *)
Lemma written_urlParameters (url : string) :
  Js.join "&"%char (written <$> urlParameters url) = urlQuery url.
Proof.
  unfold urlParameters. rewrite <- list_fmap_compose.
  assert (H : forall l : list string, (written ∘ parameter) <$> l = l).
  { induction l as [|x r IH]; [done|].
    rewrite fmap_cons, IH. f_equal. apply written_parameter. }
  rewrite H. apply join_split.
Qed.

End UrlReading.

(** The parameters of the URL of [fetchAndAnalyzeSchemaCustomDB], were
    every field kept inside its own. *)
Definition customParameters (c : ParsedDbCredentials) (query : string)
    : list (string * option string) :=
  [("host", Some (host c)); ("database", Some (database c));
   ("user", Some (user c)); ("password", Some (password c));
   ("sqlquery", Some (encodeURIComponent query));
   ("port", Some (port c)); ("db_type", Some (db_type c))].

Lemma customUrl_written (c : ParsedDbCredentials) (query : string) :
  customUrl c query
  = "https://rexdb.hosting.tigzig.com/connect-db/?"
    +:+ Js.join "&"%char (written <$> customParameters c query).
Proof.
  unfold customUrl, customParameters. cbn [list_fmap fmap written Js.join].
  rewrite !append_assoc. reflexivity.
Qed.

(** In the URL of [fetchAndAnalyzeSchemaCustomDB] only the query is
    encoded; the credentials are written as they are.  The URL has as many
    ampersands as its six separators and the fields hold together.  Read as
    a URL, its text has the seven parameters host, database, user,
    password, sqlquery, port and db_type, each with its field as written,
    exactly when none of the six fields holds an ampersand or a hash: an
    ampersand ends the parameter, and a hash ends the query. *)
Theorem custom_url_separators (c : ParsedDbCredentials) (query : string) :
  Js.countChar "&"%char (customUrl c query)
  = 6 + (Js.countChar "&"%char (host c) + Js.countChar "&"%char (database c)
         + Js.countChar "&"%char (user c) + Js.countChar "&"%char (password c)
         + Js.countChar "&"%char (port c) + Js.countChar "&"%char (db_type c)) /\
  (Js.countChar "&"%char (customUrl c query) = 6 <->
   Forall (fun f => Js.countChar "&"%char f = 0)
     [host c; database c; user c; password c; port c; db_type c]) /\
  (urlParameters (customUrl c query)
   = [("host", Some (host c)); ("database", Some (database c));
      ("user", Some (user c)); ("password", Some (password c));
      ("sqlquery", Some (encodeURIComponent query));
      ("port", Some (port c)); ("db_type", Some (db_type c))] <->
   Forall (fun f => Js.countChar "&"%char f = 0 /\ Js.countChar "#"%char f = 0)
     [host c; database c; user c; password c; port c; db_type c]).
Proof.
  assert (H : Js.countChar "&"%char (customUrl c query)
              = 6 + (Js.countChar "&"%char (host c)
                     + Js.countChar "&"%char (database c)
                     + Js.countChar "&"%char (user c)
                     + Js.countChar "&"%char (password c)
                     + Js.countChar "&"%char (port c)
                     + Js.countChar "&"%char (db_type c))).
  { unfold customUrl. rewrite !countChar_app.
    destruct (encodeURIComponent_safe query) as (-> & _).
    simpl. lia. }
  split; [exact H|]. split.
  { rewrite H. split.
    - intros Hsum. repeat constructor; lia.
    - intros Hall.
      repeat (apply Forall_cons in Hall as [? Hall]). lia. }
  fold (customParameters c query).
  set (text := Js.join "&"%char (written <$> customParameters c query)).
  assert (Hhash : Js.countChar "#"%char text
                  = Js.countChar "#"%char (host c)
                    + Js.countChar "#"%char (database c)
                    + Js.countChar "#"%char (user c)
                    + Js.countChar "#"%char (password c)
                    + Js.countChar "#"%char (port c)
                    + Js.countChar "#"%char (db_type c)).
  { assert (E : Js.countChar "#"%char (customUrl c query)
                = Js.countChar "#"%char text)
      by (rewrite customUrl_written, countChar_app; by fold text).
    rewrite <- E. unfold customUrl. rewrite !countChar_app.
    destruct (encodeURIComponent_safe query) as (_ & _ & _ & -> & _).
    simpl. lia. }
  assert (Hamp : Js.countChar "&"%char text
                 = 6 + (Js.countChar "&"%char (host c)
                        + Js.countChar "&"%char (database c)
                        + Js.countChar "&"%char (user c)
                        + Js.countChar "&"%char (password c)
                        + Js.countChar "&"%char (port c)
                        + Js.countChar "&"%char (db_type c))).
  { rewrite <- H, customUrl_written, countChar_app. by fold text. }
  assert (Hquery : urlQuery (customUrl c query) = beforeChar "#"%char text).
  { rewrite customUrl_written. fold text. unfold urlQuery.
    change ("https://rexdb.hosting.tigzig.com/connect-db/?" +:+ text)
      with ("https://rexdb.hosting.tigzig.com/connect-db/"
            +:+ String "?"%char text).
    rewrite beforeChar_app by reflexivity.
    rewrite afterChar_app by reflexivity.
    cbn [beforeChar afterChar]. by change (Ascii.eqb "?" "#") with false. }
  split.
  - intros Hparams.
    pose proof (written_urlParameters (customUrl c query)) as Hw.
    rewrite Hparams, Hquery in Hw. fold text in Hw. symmetry in Hw.
    apply beforeChar_free in Hw.
    pose proof (f_equal length Hparams) as Hlen.
    unfold urlParameters in Hlen.
    rewrite length_fmap, length_split, Hquery in Hlen.
    rewrite (proj2 (beforeChar_free _ _) Hw), Hamp in Hlen.
    change (length (customParameters c query)) with 7 in Hlen.
    rewrite Hhash in Hw.
    repeat constructor; lia.
  - intros Hall.
    assert (Hfree : Js.countChar "#"%char text = 0).
    { rewrite Hhash. repeat (apply Forall_cons in Hall as [[? ?] Hall]). lia. }
    unfold urlParameters.
    rewrite Hquery, (proj2 (beforeChar_free _ _) Hfree).
    unfold text. rewrite split_join.
    + unfold customParameters. cbn [list_fmap fmap written].
      unfold parameter.
      repeat (apply Forall_cons in Hall as [[? ?] Hall]).
      repeat (rewrite ?beforeChar_app, ?afterChar_app by reflexivity;
              cbn [beforeChar afterChar Ascii.eqb]).
      reflexivity.
    + done.
    + unfold customParameters. cbn [list_fmap fmap written].
      repeat (apply Forall_cons in Hall as [[? ?] Hall]).
      destruct (encodeURIComponent_safe query) as (Henc & _).
      repeat constructor; rewrite countChar_app; simpl; lia.
Qed.

(** A password with an ampersand adds a parameter and a password with a
    hash cuts the query short. *)
Example custom_url_password_with_hash :
  urlParameters
    (customUrl (mkCredentials "h" "d" "u" "p#x" "public" "5432" "postgresql")
       "SELECT 1")
  = [("host", Some "h"); ("database", Some "d"); ("user", Some "u");
     ("password", Some "p")] /\
  urlParameters
    (customUrl (mkCredentials "h" "d" "u" "p&port=1" "public" "5432" "postgresql")
       "SELECT 1")
  = [("host", Some "h"); ("database", Some "d"); ("user", Some "u");
     ("password", Some "p"); ("port", Some "1");
     ("sqlquery", Some "SELECT%201"); ("port", Some "5432");
     ("db_type", Some "postgresql")].
Proof. by split. Qed.

Example custom_url_password_with_ampersand :
  Js.countChar "&"%char
    (customUrl (mkCredentials "h" "d" "u" "p&port=1" "public" "5432" "postgresql")
       "SELECT 1") = 7.
Proof. reflexivity. Qed.

End SchemaAnalysis.

(* ===================================================================== *)
(** * The chat box                                                        *)
(* ===================================================================== *)

(** [query] and [handleSubmit] of the chat box component.  A reply is a
    JSON object; the state the handler touches is the text of the input
    and the loading flag; what it does to the shared conversation is the
    list of messages it appends, in order, and what it dispatches is the
    list of [newChart] events. *)
Module ChatBox.

Import SchemaAnalysis.

Record State : Type := mkState {
  input : string;
  isLoading : bool
}.

Record Effects : Type := mkEffects {
  state : State;
  appended : list Message;          (* [onMessageUpdate(prev => [...prev, m])] *)
  newCharts : list Reducer.Chart;   (* [new CustomEvent('newChart', ...)] *)
  questions : list string           (* the questions sent by [query] *)
}.

Definition apology : string :=
  "Sorry, I encountered an error. Please try again.".

(** [response.text || response.message || response.toString()] *)
Definition messageContent (response : Reply) : string :=
  default "[object Object]" (orElse (orElse (text response) (message response)) None).

(** [artifact.type === 'png' || artifact.type === 'gif'] *)
Definition isImage (a : Artifact) : bool :=
  match art_type a with
  | Some t => String.eqb t "png" || String.eqb t "gif"
  | None => false
  end.

(** [response.artifacts.find(...)] *)
Definition imageArtifact (response : Reply) : option Artifact :=
  List.find isImage (artifacts response).

Definition imageUrl (response : Reply) (fileName : string) : string :=
  "https://flowise.tigzig.com/api/v1/get-upload-file?chatflowId=ef7c4c91-dec7-42a6-9ab6-add8dc6a4475&chatId="
  +:+ show (chatId response) +:+ "&fileName=" +:+ fileName.

(** The stored file an answer points to, when its first image artifact has
    string data that starts with [FILE-STORAGE::]. *)
Definition storedFile (response : Reply) : option string :=
  match imageArtifact response with
  | Some a =>
      match art_data a with
      | Some data =>
          if String.prefix "FILE-STORAGE::" data
          then Some (replaceFirst "FILE-STORAGE::" "" data)
          else None
      | None => None
      end
  | None => None
  end.

Section Handlers.

(** The POST of a question, the download of an image (the local URL made
    for it when the download succeeds), and the clock. *)
Variable post : string -> string -> posted.
Variable download : string -> option string.
Variable now : Z.
Variable sessionId : string.

(** [query(question)]: the parsed reply, or a throw. *)
Definition query (question : string) : option Reply :=
  match post question sessionId with
  | PostStatus true (Some result) => Some result
  | _ => None
  end.

Definition chartEvents (response : Reply) : list Reducer.Chart :=
  match storedFile response with
  | Some fileName =>
      match download (imageUrl response fileName) with
      | Some localUrl => [Reducer.mkChart localUrl now]
      | None => []
      end
  | None => []
  end.

Definition handleSubmit (st : State) : Effects :=
  if negb (Js.truthy (Js.trim (input st))) then mkEffects st [] [] []
  else
    let userMessage := input st in
    let asked := {| role := "user"; content := Some userMessage |} in
    match query userMessage with
    | Some response =>
        mkEffects (mkState "" false)
          [asked; {| role := "assistant";
                     content := Some (messageContent response) |}]
          (chartEvents response) [userMessage]
    | None =>
        mkEffects (mkState "" false)
          [asked; {| role := "assistant"; content := Some apology |}]
          [] [userMessage]
    end.

End Handlers.

(** The conversation after a submit that nothing interleaves with. *)
Definition conversation (messages : list Message) (e : Effects) : list Message :=
  messages ++ appended e.

Lemma prefix_append (pattern name : string) :
  String.prefix pattern (pattern +:+ name) = true.
Proof.
  induction pattern as [|c r IH]; [by destruct name|].
  rewrite append_cons. simpl.
  destruct (ascii_dec c c); [exact IH|done].
Qed.

Lemma substring_append (pattern name : string) (n : nat) :
  String.substring (String.length pattern) n (pattern +:+ name)
  = String.substring 0 n name.
Proof.
  induction pattern as [|c r IH]; [done|].
  rewrite append_cons. simpl. apply IH.
Qed.

Lemma substring_full (name : string) :
  String.substring 0 (String.length name) name = name.
Proof. induction name as [|c r IH]; [done|]. simpl. by rewrite IH. Qed.

Lemma string_app_assoc_l (s t u : string) : s +:+ (t +:+ u) = (s +:+ t) +:+ u.
Proof. induction s as [|c r IH]; [done|]. rewrite !append_cons. by rewrite IH. Qed.

Lemma length_append (s t : string) :
  String.length (s +:+ t) = String.length s + String.length t.
Proof.
  induction s as [|c r IH]; [done|]. rewrite append_cons. simpl. by rewrite IH.
Qed.



Definition userMessage (content : string) : Message :=
  {| role := "user"; content := Some content |}.

Definition assistantMessage (content : string) : Message :=
  {| role := "assistant"; content := Some content |}.

Lemma blank_input (st : State) :
  negb (Js.truthy (Js.trim (input st))) = Js.allWhiteSpace (input st).
Proof.
  unfold Js.truthy. rewrite isEmpty_trim. by destruct (Js.allWhiteSpace _).
Qed.

(** The conversation after a run of submits, each with the input as it was
    typed before it, nothing interleaving. *)
Definition submitAll (post : string -> string -> posted)
    (download : string -> option string) (now : Z) (sessionId : string)
    (messages : list Message) (inputs : list string) : list Message :=
  foldl (fun messages typed =>
           conversation messages
             (handleSubmit post download now sessionId (mkState typed false)))
        messages inputs.

(** A submit with a blank input does nothing at all and sends nothing.
    Any other submit clears the input, ends with the loading flag off,
    sends the input as typed (untrimmed) once, and appends exactly two
    messages: the user's, with the input as typed, then one from the
    assistant.  When the request succeeds the assistant's message is the
    [text] of the reply if that is not empty, else its [message] if that is
    not empty, else [[object Object]]; when the request fails, or its body
    is no JSON, it is the apology.  So a run of submits adds to the
    conversation one user message and one assistant message, in that
    order, for each input that is not blank. *)
Theorem chat_submit_appends_pair (post : string -> string -> posted)
    (download : string -> option string) (now : Z) (sessionId : string)
    (st : State) :
  (Js.allWhiteSpace (input st) = true ->
   handleSubmit post download now sessionId st = mkEffects st [] [] []) /\
  (Js.allWhiteSpace (input st) = false ->
   state (handleSubmit post download now sessionId st) = mkState "" false /\
   questions (handleSubmit post download now sessionId st) = [input st] /\
   exists answer : string,
     appended (handleSubmit post download now sessionId st)
     = [ {| role := "user"; content := Some (input st) |};
         {| role := "assistant"; content := Some answer |} ] /\
     (forall reply : Reply,
        post (input st) sessionId = PostStatus true (Some reply) ->
        match text reply, message reply with
        | Some (String c t), _ => answer = String c t
        | _, Some (String c m) => answer = String c m
        | _, _ => answer = "[object Object]"
        end) /\
     ((forall reply : Reply,
         post (input st) sessionId <> PostStatus true (Some reply)) ->
      answer = "Sorry, I encountered an error. Please try again.")) /\
  (forall (messages : list Message) (inputs : list string),
     role <$> submitAll post download now sessionId messages inputs
     = (role <$> messages)
       ++ concat ((fun _ => ["user"; "assistant"])
                    <$> List.filter (fun typed => negb (Js.allWhiteSpace typed))
                                    inputs) /\
     length (submitAll post download now sessionId messages inputs)
     = length messages
       + 2 * length (List.filter (fun typed => negb (Js.allWhiteSpace typed))
                                 inputs)).
Proof.
  split; [|split].
  - unfold handleSubmit. rewrite blank_input. by intros ->.
  - unfold handleSubmit, query. rewrite blank_input. intros ->. cbv iota.
    destruct (post (input st) sessionId) as [|[] [reply|]] eqn:E; simpl;
      (split; [done|]); (split; [done|]).
    all: try (eexists; split; [reflexivity|]; split;
              [by intros other [=] | done]).
    exists (messageContent reply). split; [done|]. split.
    + intros reply' [= <-]. unfold messageContent, orElse.
      destruct (text reply) as [[|c t]|], (message reply) as [[|d m]|]; done.
    + intros H. by destruct (H reply).
  - intros messages inputs.
    assert (Hroles :
      role <$> submitAll post download now sessionId messages inputs
      = (role <$> messages)
        ++ concat ((fun _ => ["user"; "assistant"])
                     <$> List.filter (fun typed => negb (Js.allWhiteSpace typed))
                                     inputs)).
    { revert messages. induction inputs as [|typed rest IH]; intros messages.
      { simpl. by rewrite app_nil_r. }
      unfold submitAll in *. cbn [foldl List.filter]. rewrite IH.
      unfold conversation, handleSubmit. rewrite blank_input. cbn [input].
      destruct (Js.allWhiteSpace typed); cbn [negb].
      - cbn [appended]. by rewrite app_nil_r.
      - rewrite fmap_cons. cbn [concat].
        destruct (query post sessionId typed); cbn [appended];
          by rewrite fmap_app, <- app_assoc. }
    split; [exact Hroles|].
    apply (f_equal length) in Hroles.
    rewrite length_fmap, length_app, length_fmap in Hroles. rewrite Hroles.
    f_equal. clear Hroles.
    induction (List.filter _ inputs) as [|x r IH]; [done|].
    rewrite fmap_cons. cbn [concat]. rewrite length_app, IH. simpl. lia.
Qed.

Example chat_reply_contents :
  let submit := fun reply =>
    appended (handleSubmit (fun _ _ => reply) (fun _ => None) 0 "s"
                (mkState " hi " false)) in
  submit (PostStatus true (Some (mkReply (Some "") (Some "done") [] None)))
  = [ {| role := "user"; content := Some " hi " |};
      {| role := "assistant"; content := Some "done" |} ] /\
  submit (PostStatus true (Some (mkReply None None [] None)))
  = [ {| role := "user"; content := Some " hi " |};
      {| role := "assistant"; content := Some "[object Object]" |} ] /\
  submit (PostStatus false (Some (mkReply (Some "late") None [] None)))
  = [ {| role := "user"; content := Some " hi " |};
      {| role := "assistant";
         content := Some "Sorry, I encountered an error. Please try again." |} ].
Proof. by repeat split. Qed.



Example chat_chart_from_second_artifact_ignored :
  let reply := mkReply (Some "see chart") None
    [mkArtifact (Some "png") (Some "inline-data");
     mkArtifact (Some "png") (Some "FILE-STORAGE::chart.png")] (Some "c1") in
  storedFile reply = None.
Proof. reflexivity. Qed.

End ChatBox.

(* ===================================================================== *)
(** * The database credentials form                                       *)
(* ===================================================================== *)

(** [handleMyDbCredentialsChange], [validateMyDbForm] and the reset of
    [myDbCredentials] (Cancel, or a finished push).  The credentials object
    is a finite map: a spread followed by a computed key adds or replaces
    an own property. *)
Module DbForm.

Definition initialCredentials : gmap string string :=
  <["host" := ""]> (<["database" := ""]> (<["user" := ""]>
  (<["password" := ""]> (<["schema" := ""]> (<["port" := ""]>
  (<["db_type" := ""]> ∅)))))).

Definition defaultPort (db_type : string) : string :=
  if String.eqb db_type "postgresql" then "5432"
  else if String.eqb db_type "mysql" then "3306"
  else "".

Definition handleMyDbCredentialsChange (field value : string)
    (prev : gmap string string) : gmap string string :=
  let updated := <[field := value]> prev in
  if String.eqb field "db_type"
  then <["port" := defaultPort value]> updated
  else updated.

(** [c.k.trim() !== ''], which throws when [c.k] is undefined. *)
Definition filled (c : gmap string string) (k : string) : option bool :=
  (fun v => negb (Js.isEmpty (Js.trim v))) <$> c !! k.

(** [a && b] when evaluating [a] or [b] may throw. *)
Definition andThen (a b : option bool) : option bool :=
  match a with
  | Some true => b
  | other => other
  end.

(** [c.db_type !== '']: an undefined type is not the empty string. *)
Definition typeChosen (c : gmap string string) : bool :=
  match c !! "db_type" with
  | Some v => negb (Js.isEmpty v)
  | None => true
  end.

(** [validateMyDbForm()]; [None] when reading a field throws. *)
Definition validateMyDbForm (c : gmap string string) : option bool :=
  andThen (filled c "host")
    (andThen (filled c "database")
       (andThen (filled c "user")
          (andThen (filled c "password") (Some (typeChosen c))))).

(** What the user can do to the form. *)
Inductive event : Type :=
| Change (field value : string)
| Reset.

Definition step (c : gmap string string) (e : event) : gmap string string :=
  match e with
  | Change field value => handleMyDbCredentialsChange field value c
  | Reset => initialCredentials
  end.

Definition run (events : list event) : gmap string string :=
  foldl step initialCredentials events.

Definition fieldNames : list string :=
  ["host"; "database"; "user"; "password"; "schema"; "port"; "db_type"].

Definition complete (c : gmap string string) : Prop :=
  Forall (fun k => is_Some (c !! k)) fieldNames.

Lemma complete_initial : complete initialCredentials.
Proof. repeat constructor; by eexists. Qed.

Lemma is_Some_insert (c : gmap string string) (k k' v : string) :
  is_Some (c !! k) -> is_Some (<[k' := v]> c !! k).
Proof.
  intros H. destruct (decide (k' = k)) as [-> | Hne].
  - rewrite lookup_insert_eq. by eexists.
  - by rewrite lookup_insert_ne.
Qed.

Lemma complete_change (field value : string) (c : gmap string string) :
  complete c -> complete (handleMyDbCredentialsChange field value c).
Proof.
  unfold complete, handleMyDbCredentialsChange. intros H.
  eapply Forall_impl; [exact H|]. intros k Hk. simpl in *.
  destruct (String.eqb field "db_type"); repeat apply is_Some_insert; done.
Qed.

Lemma complete_run (events : list event) : complete (run events).
Proof.
  unfold run. generalize complete_initial.
  generalize initialCredentials as c.
  induction events as [|e r IH]; intros c Hc; [done|].
  simpl. apply IH. destruct e; [by apply complete_change | apply complete_initial].
Qed.

Lemma filled_spec (c : gmap string string) (k v : string) :
  c !! k = Some v -> filled c k = Some (negb (Js.allWhiteSpace v)).
Proof. intros H. unfold filled. by rewrite H, <- isEmpty_trim. Qed.

(** Whatever the user did to the form, validation can be evaluated: the
    seven fields are always there.  The form is valid exactly when host,
    database, user and password hold more than white space and a database
    type is chosen; the port and the schema play no part. *)
Theorem form_validation (events : list event) :
  exists host database user password db_type : string,
    run events !! "host" = Some host /\
    run events !! "database" = Some database /\
    run events !! "user" = Some user /\
    run events !! "password" = Some password /\
    run events !! "db_type" = Some db_type /\
    is_Some (run events !! "schema") /\ is_Some (run events !! "port") /\
    validateMyDbForm (run events)
    = Some (negb (Js.allWhiteSpace host) && negb (Js.allWhiteSpace database)
            && negb (Js.allWhiteSpace user) && negb (Js.allWhiteSpace password)
            && negb (Js.isEmpty db_type)).
Proof.
  pose proof (complete_run events) as H. unfold complete, fieldNames in H.
  repeat (apply Forall_cons in H as [? H]).
  repeat match goal with Hx : is_Some (_ !! _) |- _ =>
    let v := fresh "v" in let E := fresh "E" in destruct Hx as [v E] end.
  repeat eexists; try eassumption.
  unfold validateMyDbForm.
  repeat match goal with E : _ !! _ = Some _ |- _ =>
    rewrite (filled_spec _ _ _ E) end.
  unfold typeChosen.
  match goal with E : run events !! "db_type" = Some _ |- _ => rewrite E end.
  simpl.
  repeat match goal with |- context [Js.allWhiteSpace ?x] =>
    destruct (Js.allWhiteSpace x); simpl; try done end.
Qed.

(** An event that leaves the port alone: a change of a field other than
    the port and the type. *)
Definition keepsPort (e : event) : bool :=
  match e with
  | Change field _ => negb (String.eqb field "port" || String.eqb field "db_type")
  | Reset => false
  end.

Lemma foldl_step_port (later : list event) (c : gmap string string) :
  forallb keepsPort later = true ->
  foldl step c later !! "port" = c !! "port".
Proof.
  revert c. induction later as [|e r IH]; intros c H; [done|].
  simpl in H. apply andb_true_iff in H as [He Hr].
  simpl. rewrite IH by done.
  destruct e as [field value|]; [|done]. simpl in *.
  apply negb_true_iff, orb_false_iff in He as [Hport Htype].
  unfold handleMyDbCredentialsChange. rewrite Htype.
  apply String.eqb_neq in Hport. by rewrite lookup_insert_ne.
Qed.

(** Choosing a database type sets the port to the default of that type,
    [5432] for [postgresql], [3306] for [mysql] and the empty string for
    anything else, whatever the port was; every other change writes its own
    field and nothing else, so a port typed after the type was chosen is
    kept.  Whatever was done to the form before, the port is the default of
    the type chosen last for as long as neither the port nor the type is
    changed and the form is not reset. *)
Theorem form_port_follows_type (c : gmap string string) (field value : string) :
  handleMyDbCredentialsChange "db_type" "postgresql" c !! "port" = Some "5432" /\
  handleMyDbCredentialsChange "db_type" "mysql" c !! "port" = Some "3306" /\
  (value <> "postgresql" -> value <> "mysql" ->
   handleMyDbCredentialsChange "db_type" value c !! "port" = Some "") /\
  handleMyDbCredentialsChange "db_type" value c !! "db_type" = Some value /\
  (field <> "db_type" ->
   handleMyDbCredentialsChange field value c !! field = Some value) /\
  (forall k, k <> field -> (field = "db_type" -> k <> "port") ->
     handleMyDbCredentialsChange field value c !! k = c !! k) /\
  (forall port,
     handleMyDbCredentialsChange "port" port
       (handleMyDbCredentialsChange "db_type" value c) !! "port" = Some port) /\
  (forall before later : list event,
     forallb keepsPort later = true ->
     run (before ++ Change "db_type" value :: later) !! "port"
     = Some (if String.eqb value "postgresql" then "5432"
             else if String.eqb value "mysql" then "3306"
             else "")) /\
  (forall before later : list event,
     forallb keepsPort later = true ->
     run (before ++ Reset :: later) !! "port" = Some "").
Proof.
  unfold handleMyDbCredentialsChange.
  split; [simpl; by rewrite lookup_insert_eq|].
  split; [simpl; by rewrite lookup_insert_eq|].
  split.
  { intros Hp Hm. simpl. rewrite lookup_insert_eq. unfold defaultPort.
    apply String.eqb_neq in Hp, Hm. by rewrite Hp, Hm. }
  split.
  { simpl. rewrite lookup_insert_ne by done. by rewrite lookup_insert_eq. }
  split.
  { intros Hne. apply String.eqb_neq in Hne as ->. by rewrite lookup_insert_eq. }
  split.
  { intros k Hk Hport.
    destruct (String.eqb field "db_type") eqn:E.
    + apply String.eqb_eq in E.
      rewrite lookup_insert_ne by (intros <-; by apply Hport).
      by rewrite lookup_insert_ne.
    + by rewrite lookup_insert_ne. }
  split.
  { intros port. simpl. by rewrite lookup_insert_eq. }
  split.
  - intros before later H. unfold run. rewrite foldl_app. cbn [foldl].
    rewrite (foldl_step_port later _ H). cbn [step].
    unfold handleMyDbCredentialsChange. simpl. by rewrite lookup_insert_eq.
  - intros before later H. unfold run. rewrite foldl_app. cbn [foldl].
    by rewrite (foldl_step_port later _ H).
Qed.

Example form_port_after_typing :
  run [Change "port" "6000"; Change "db_type" "mysql"; Change "host" "h"]
    !! "port" = Some "3306" /\
  run [Change "db_type" "mysql"; Change "port" "6000"; Change "host" "h"]
    !! "port" = Some "6000" /\
  run [Change "db_type" "sqlite"] !! "port" = Some "".
Proof. by vm_compute. Qed.

End DbForm.

(* ===================================================================== *)
(** * Validation of parsed credentials                                    *)
(* ===================================================================== *)

(** The part of [parseCredentialsWithAI] that follows the request.  The
    parsed content is an object whose values are strings, as the type
    [ParsedDbCredentials] declares; its fields may be absent. *)
Module ParseCredentials.

(** What the code up to and including [JSON.parse(content)] comes to. *)
Inductive parsed : Type :=
| Content (parsedCredentials : gmap string string)
| Threw (message : string).

Definition requiredFields : list string :=
  ["host"; "database"; "user"; "password"; "schema"; "port"; "db_type"].

(** [!parsedCredentials[field]] *)
Definition missing (c : gmap string string) (field : string) : bool :=
  match c !! field with
  | Some v => Js.isEmpty v
  | None => true
  end.

(** [l.join(', ')] *)
Fixpoint joinComma (l : list string) : string :=
  match l with
  | [] => ""
  | [x] => x
  | x :: r => x +:+ ", " +:+ joinComma r
  end.

Definition quote : string := String "034" "".

Definition invalidType : string :=
  "Invalid database type. Must be either " +:+ quote +:+ "postgresql"
  +:+ quote +:+ " or " +:+ quote +:+ "mysql" +:+ quote.

Definition failed (message : string) : string :=
  "Failed to parse database credentials: " +:+ message.

(** [['postgresql', 'mysql'].includes(parsedCredentials.db_type)] *)
Definition knownType (c : gmap string string) : bool :=
  match c !! "db_type" with
  | Some t => String.eqb t "postgresql" || String.eqb t "mysql"
  | None => false
  end.

(** The result: the credentials, or the message of the error thrown. *)
Definition parseCredentialsWithAI (p : parsed)
    : string + gmap string string :=
  match p with
  | Threw message => inl (failed message)
  | Content parsedCredentials =>
      let missingFields := List.filter (missing parsedCredentials) requiredFields in
      if 0 <? length missingFields
      then inl (failed ("Missing required fields: " +:+ joinComma missingFields))
      else if negb (knownType parsedCredentials)
      then inl (failed invalidType)
      else inr parsedCredentials
  end.

Lemma no_missing_iff (c : gmap string string) :
  List.filter (missing c) requiredFields = [] <->
  Forall (fun f => exists v, c !! f = Some v /\ v <> "") requiredFields.
Proof.
  induction requiredFields as [|f r IH]; simpl.
  - split; [constructor | done].
  - unfold missing at 1.
    destruct (c !! f) as [v|] eqn:E.
    + destruct v as [|a v]; simpl.
      * split; [done|]. intros H. apply Forall_cons in H as [(v & Hv & Hne) _].
        congruence.
      * rewrite IH. split.
        -- intros H. constructor; [|done]. by eexists.
        -- intros H. by apply Forall_cons in H as [_ H].
    + split; [done|]. intros H. apply Forall_cons in H as [(v & Hv & _) _].
      congruence.
Qed.

Lemma knownType_iff (c : gmap string string) :
  knownType c = true <->
  c !! "db_type" = Some "postgresql" \/ c !! "db_type" = Some "mysql".
Proof.
  unfold knownType. destruct (c !! "db_type") as [t|].
  - rewrite orb_true_iff, !String.eqb_eq. split.
    + intros [-> | ->]; auto.
    + intros [[= ->] | [= ->]]; auto.
  - split; [done | by intros [? | ?]].
Qed.

Lemma credentials_validation_core (p : parsed) :
  forall c, parseCredentialsWithAI p = inr c <->
    p = Content c /\
    Forall (fun f => exists v, c !! f = Some v /\ v <> "") requiredFields /\
    (c !! "db_type" = Some "postgresql" \/ c !! "db_type" = Some "mysql").
Proof.
  intros c. destruct p as [c'|message]; unfold parseCredentialsWithAI.
  - destruct (List.filter (missing c') requiredFields) as [|m ms] eqn:Em; simpl.
    + apply no_missing_iff in Em.
      destruct (knownType c') eqn:Ek; simpl.
      * apply knownType_iff in Ek. split.
        -- intros [= <-]. done.
        -- by intros ([= <-] & _).
      * split; [done|]. intros ([= <-] & _ & Hk).
        apply knownType_iff in Hk. congruence.
    + split; [done|]. intros ([= <-] & Hall & _).
      apply no_missing_iff in Hall. congruence.
  - split; [done | by intros [? _]].
Qed.

Lemma joinComma_concat (l : list string) : joinComma l = String.concat ", " l.
Proof.
  induction l as [|x r IH]; [done|].
  destruct r as [|y r]; [done|].
  change (joinComma (x :: y :: r)) with (x +:+ ", " +:+ joinComma (y :: r)).
  by rewrite IH.
Qed.

Lemma missing_decide (c : gmap string string) (field : string) :
  missing c field = bool_decide (c !! field = None \/ c !! field = Some "").
Proof.
  unfold missing. destruct (c !! field) as [[|a v]|].
  - rewrite bool_decide_true; [done | by right].
  - rewrite bool_decide_false; [done | by intros [? | ?]].
  - rewrite bool_decide_true; [done | by left].
Qed.

Lemma filter_missing (c : gmap string string) (l : list string) :
  List.filter (missing c) l
  = List.filter (fun f => bool_decide (c !! f = None \/ c !! f = Some "")) l.
Proof.
  induction l as [|f r IH]; [done|].
  cbn [List.filter]. by rewrite IH, missing_decide.
Qed.

(** Credentials are accepted exactly when the content was parsed, each of
    host, database, user, password, schema, port and db_type is present
    and not empty, and db_type is postgresql or mysql; they are returned as
    parsed.  In every other case an error is thrown whose message starts
    with [Failed to parse database credentials: ].  When fields are absent
    or empty it goes on with [Missing required fields: ] and their names,
    in the order above, separated by a comma and a space, whatever the
    type is; when all are there and the type is neither postgresql nor
    mysql it goes on with the words on the invalid type; when the code
    before the validation threw, with the message of that error. *)
Theorem credentials_validation (p : parsed) :
  (forall c, parseCredentialsWithAI p = inr c <->
     p = Content c /\
     Forall (fun f => exists v, c !! f = Some v /\ v <> "")
       ["host"; "database"; "user"; "password"; "schema"; "port"; "db_type"] /\
     (c !! "db_type" = Some "postgresql" \/ c !! "db_type" = Some "mysql")) /\
  (forall message, parseCredentialsWithAI p = inl message ->
     String.prefix "Failed to parse database credentials: " message = true) /\
  (forall c, p = Content c ->
     let absent :=
       List.filter (fun f => bool_decide (c !! f = None \/ c !! f = Some ""))
         ["host"; "database"; "user"; "password"; "schema"; "port"; "db_type"] in
     absent <> [] ->
     parseCredentialsWithAI p
     = inl ("Failed to parse database credentials: Missing required fields: "
            +:+ String.concat ", " absent)) /\
  (forall c, p = Content c ->
     Forall (fun f => exists v, c !! f = Some v /\ v <> "")
       ["host"; "database"; "user"; "password"; "schema"; "port"; "db_type"] ->
     c !! "db_type" <> Some "postgresql" -> c !! "db_type" <> Some "mysql" ->
     parseCredentialsWithAI p
     = inl ("Failed to parse database credentials: Invalid database type. Must be either "
            +:+ String "034" ("postgresql"
            +:+ String "034" (" or "
            +:+ String "034" ("mysql"
            +:+ String "034" ""))))) /\
  (forall message, p = Threw message ->
     parseCredentialsWithAI p
     = inl ("Failed to parse database credentials: " +:+ message)).
Proof.
  split; [apply credentials_validation_core|].
  split.
  { intros message. unfold parseCredentialsWithAI, failed.
    destruct p as [c|m].
    + destruct (0 <? _); [|destruct (negb _)]; intros [= <-];
        try apply ChatBox.prefix_append.
    + intros [= <-]. apply ChatBox.prefix_append. }
  split.
  { intros c -> absent Hne. unfold parseCredentialsWithAI.
    fold requiredFields in absent.
    rewrite filter_missing. fold absent.
    destruct absent as [|f r] eqn:E; [done|].
    cbn [length Nat.ltb Nat.leb]. by rewrite joinComma_concat. }
  split.
  { intros c -> Hall Hp Hm. unfold parseCredentialsWithAI.
    apply no_missing_iff in Hall. rewrite Hall. simpl.
    assert (Hk : knownType c = false).
    { destruct (knownType c) eqn:E; [|done].
      apply knownType_iff in E as [E | E]; congruence. }
    by rewrite Hk. }
  by intros message ->.
Qed.

Example credentials_invalid_type :
  parseCredentialsWithAI
    (Content (<["host" := "h"]> (<["database" := "d"]> (<["user" := "u"]>
             (<["password" := "p"]> (<["schema" := "s"]> (<["port" := "1"]>
             (<["db_type" := "oracle"]> ∅))))))))
  = inl ("Failed to parse database credentials: Invalid database type. Must be either "
         +:+ String "034" ("postgresql"
         +:+ String "034" (" or "
         +:+ String "034" ("mysql"
         +:+ String "034" "")))).
Proof. reflexivity. Qed.

Example credentials_missing_fields :
  parseCredentialsWithAI
    (Content (<["host" := "h"]> (<["user" := "u"]> (<["db_type" := "oracle"]>
             (<["port" := ""]> ∅)))))
  = inl "Failed to parse database credentials: Missing required fields: database, password, schema, port".
Proof. reflexivity. Qed.

End ParseCredentials.

(* ===================================================================== *)
(** * Maximizing a panel                                                  *)
(* ===================================================================== *)

(** [toggleMaximize] of the application (panels) and of the analysis tabs
    (tab names): the same rule over a set of names. *)
Module Maximize.

Section Toggle.

Context {Name : Type} `{EqDecision Name}.

Record PanelState : Type := mkPanels {
  expanded : option Name;
  maximized : option Name
}.

(** [maximized === panel ? null : panel], the rule of both components. *)
Definition toggle (panel : Name) (maximized : option Name) : option Name :=
  if decide (maximized = Some panel) then None else Some panel.

(** [prev => ({ expanded: prev.expanded,
                maximized: prev.maximized === panel ? null : panel })] *)
Definition toggleMaximize (panel : Name) (prev : PanelState) : PanelState :=
  {| expanded := expanded prev;
     maximized := toggle panel (maximized prev) |}.

(** Toggling a panel maximizes it unless it is the one maximized, which it
    restores.  Toggling another panel takes over directly.  The expanded
    panel is never touched.  Two toggles of a panel restore the state
    exactly when nothing or that panel was maximized; three toggles are
    one. *)
Theorem toggle_maximize_cycle (panel : Name) (prev : PanelState) :
  expanded (toggleMaximize panel prev) = expanded prev /\
  (maximized (toggleMaximize panel prev) = None <-> maximized prev = Some panel) /\
  (maximized prev <> Some panel ->
   maximized (toggleMaximize panel prev) = Some panel) /\
  (toggleMaximize panel (toggleMaximize panel prev) = prev <->
   maximized prev = None \/ maximized prev = Some panel) /\
  toggleMaximize panel (toggleMaximize panel (toggleMaximize panel prev))
  = toggleMaximize panel prev /\
  (forall other, other <> panel ->
     maximized (toggleMaximize other (toggleMaximize panel prev)) = Some other).
Proof.
  destruct prev as [e m]. unfold toggleMaximize, toggle. simpl.
  split; [done|].
  split.
  { destruct (decide (m = Some panel)); split; done. }
  split.
  { intros H. by destruct (decide (m = Some panel)). }
  split.
  { destruct (decide (m = Some panel)) as [-> | Hne]; simpl.
    - destruct (decide (None = Some panel)); [done|]. split; auto.
    - destruct (decide (Some panel = Some panel)); [|done].
      split.
      + intros [= <-]. by left.
      + intros [-> | ->]; done. }
  split.
  { destruct (decide (m = Some panel)) as [-> | Hne]; simpl.
    - destruct (decide (None = Some panel)); [done|]. simpl.
      by destruct (decide (Some panel = Some panel)).
    - destruct (decide (Some panel = Some panel)); [|done]. simpl.
      by destruct (decide (None = Some panel)). }
  intros other Hne.
  destruct (decide (m = Some panel)); simpl.
  - by destruct (decide (None = Some other)).
  - destruct (decide (Some panel = Some other)) as [[= ->]|]; done.
Qed.

End Toggle.

(** The panels of the application. *)
Inductive Panel : Type :=
| analysis | quickAnalysis | chat | charts | documents.

#[global] Instance Panel_eq_dec : EqDecision Panel.
Proof. solve_decision. Defined.

Example toggle_charts_then_documents :
  maximized (toggleMaximize documents
               (toggleMaximize charts (mkPanels (Some analysis) None)))
  = Some documents.
Proof. reflexivity. Qed.

End Maximize.

(* ===================================================================== *)
(** * Pushing a file to the user's database                               *)
(* ===================================================================== *)

(** The endpoint, the query parameters and the error label of
    [handleCustomPushToDb], on credentials as [parseCredentialsWithAI]
    returns them. *)
Module Upload.

(** [v || fallback] for a value that is a string or undefined. *)
Definition orDefault (v : option string) (fallback : string) : string :=
  match v with
  | Some s => if Js.truthy s then s else fallback
  | None => fallback
  end.

(** [parsedCredentials?.db_type || 'postgresql'] *)
Definition dbType (c : gmap string string) : string :=
  orDefault (c !! "db_type") "postgresql".

Definition endpoint (c : gmap string string) : string :=
  if String.eqb (dbType c) "postgresql"
  then "/upload-file-custom-db-pg/"
  else "/upload-file-custom-db-mysql/".

(** The label of the error thrown when the upload fails. *)
Definition label (c : gmap string string) : string :=
  if String.eqb (dbType c) "postgresql" then "PostgreSQL" else "MySQL".

(** The object given to [URLSearchParams]; every [CUSTOM_DB_CREDENTIALS]
    fallback is the string [not-used]. *)
Definition queryParams (c : gmap string string) : list (string * string) :=
  (fun k => (k, orDefault (c !! k) "not-used"))
    <$> ["host"; "database"; "user"; "password"; "schema"; "port"].

(** Credentials that passed [parseCredentialsWithAI] are sent as they are:
    no fallback of [handleCustomPushToDb] is ever taken for them, neither
    the [not-used] of a query parameter nor the default database type, and
    the endpoint and the error label are those of the parsed type. *)
Theorem validated_credentials_need_no_fallback (p : ParseCredentials.parsed)
    (c : gmap string string) :
  ParseCredentials.parseCredentialsWithAI p = inr c ->
  (forall k v, (k, v) ∈ queryParams c -> c !! k = Some v) /\
  c !! "db_type" = Some (dbType c) /\
  (dbType c = "postgresql" /\ endpoint c = "/upload-file-custom-db-pg/"
   /\ label c = "PostgreSQL"
   \/ dbType c = "mysql" /\ endpoint c = "/upload-file-custom-db-mysql/"
      /\ label c = "MySQL").
Proof.
  intros H.
  apply (ParseCredentials.credentials_validation_core p c) in H
    as (_ & Hall & Htype).
  assert (Hfield : forall k, k ∈ ParseCredentials.requiredFields ->
                     c !! k = Some (orDefault (c !! k) "not-used")).
  { intros k Hk.
    destruct (proj1 (Forall_forall _ _) Hall k Hk) as (v & Hv & Hne).
    rewrite Hv. simpl. by destruct v. }
  split.
  - intros k v Hkv. unfold queryParams in Hkv.
    apply list_elem_of_fmap in Hkv as (k' & [= -> ->] & Hk').
    apply Hfield. unfold ParseCredentials.requiredFields.
    repeat (apply elem_of_cons in Hk' as [-> | Hk']; [by repeat constructor|]).
    by apply elem_of_nil in Hk'.
  - unfold endpoint, label, dbType.
    destruct Htype as [-> | ->]; simpl; split; auto.
Qed.

Lemma validated_credentials_need_no_fallback_witness :
  let c : gmap string string :=
    <["host" := "db.example.com"]> (<["database" := "shop"]>
    (<["user" := "ann"]> (<["password" := "s3cret"]> (<["schema" := "public"]>
    (<["port" := "3306"]> (<["db_type" := "mysql"]> ∅)))))) in
  ParseCredentials.parseCredentialsWithAI (ParseCredentials.Content c) = inr c /\
  endpoint c = "/upload-file-custom-db-mysql/" /\
  c !! "db_type" = Some (dbType c).
Proof.
  intros c. split; [reflexivity|]. split; [reflexivity|].
  apply (validated_credentials_need_no_fallback (ParseCredentials.Content c) c).
  reflexivity.
Defined.

(** Without validation a type that is neither of the two goes to MySQL. *)
Example unvalidated_type_goes_to_mysql :
  endpoint (<["db_type" := "oracle"]> ∅) = "/upload-file-custom-db-mysql/" /\
  endpoint ∅ = "/upload-file-custom-db-pg/".
Proof. by split. Qed.

End Upload.

(* ===================================================================== *)
(** * Integers as doubles                                                 *)
(* ===================================================================== *)

Section NumberFacts.

Local Open Scope N_scope.

Lemma roundHalfEven_one (a : N) : Double.roundHalfEven a 1 = a.
Proof.
  unfold Double.roundHalfEven. rewrite N.mod_1_r, N.div_1_r. reflexivity.
Qed.

Lemma pow2_of_N (k : N) : Double.pow2 (Z.of_N k) = 2 ^ k.
Proof. unfold Double.pow2. by rewrite N2Z.id. Qed.

(** A positive integer below [2^53] is a double: its bits, moved up to
    the top of the significand. *)
Lemma ofDecimal_small (negative : bool) (n : N) :
  0 < n -> n < 2 ^ 53 ->
  Double.ofDecimal negative n 0
  = Finite negative (n * 2 ^ (52 - N.log2 n)) (Z.of_N (N.log2 n) - 52).
Proof.
  intros Hpos Hlt.
  pose proof (N.log2_spec n Hpos) as [Hlo Hhi].
  assert (Hl : N.log2 n <= 52).
  { apply N.lt_succ_r. apply (N.pow_lt_mono_r_iff 2); [lia|]. 
    eapply N.le_lt_trans; [exact Hlo|]. exact Hlt. }
  unfold Double.ofDecimal. change (0 <=? 0)%Z with true. cbv iota.
  change (Double.pow10 0) with 1. rewrite N.mul_1_r.
  unfold Double.nearest.
  rewrite (proj2 (N.eqb_neq n 0)) by lia.
  assert (Hk : Double.binaryExponent n 1 = Z.of_N (N.log2 n)).
  { unfold Double.binaryExponent. change (N.log2 1) with 0.
    rewrite Z.sub_0_r. unfold Double.atLeastPow2.
    rewrite (proj2 (Z.leb_le 0 _)) by lia.
    rewrite pow2_of_N, N.mul_1_l.
    by rewrite (proj2 (N.leb_le _ _) Hlo). }
  rewrite Hk. rewrite Z.max_l by lia.
  set (l := N.log2 n) in *.
  assert (Hm : (if (0 <=? Z.of_N l - 52)%Z
                then Double.roundHalfEven n (1 * Double.pow2 (Z.of_N l - 52))
                else Double.roundHalfEven (n * Double.pow2 (- (Z.of_N l - 52))) 1)
               = n * 2 ^ (52 - l)).
  { destruct (0 <=? Z.of_N l - 52)%Z eqn:E.
    - apply Z.leb_le in E. assert (l = 52) as -> by lia.
      change (Double.pow2 (Z.of_N 52 - 52)) with 1.
      change (2 ^ (52 - 52)) with 1.
      rewrite ?N.mul_1_r, ?N.mul_1_l. apply roundHalfEven_one.
    - apply Z.leb_gt in E. rewrite roundHalfEven_one.
      f_equal. unfold Double.pow2. f_equal. lia. }
  rewrite Hm.
  assert (Hsmall : n * 2 ^ (52 - l) < 2 ^ 53).
  { replace (2 ^ 53) with (2 ^ N.succ l * 2 ^ (52 - l)).
    - apply N.mul_lt_mono_pos_r; [|done]. apply N.neq_0_lt_0, N.pow_nonzero. lia.
    - rewrite <- N.pow_add_r. f_equal. lia. }
  rewrite (proj2 (N.eqb_neq _ _)) by lia.
  by rewrite (proj2 (Z.ltb_ge _ _)) by lia.
Qed.

Lemma integer_small (negative : bool) (n : N) :
  N.log2 n <= 52 ->
  Double.integer (Finite negative (n * 2 ^ (52 - N.log2 n))
                    (Z.of_N (N.log2 n) - 52))
  = Some ((if negative then -1 else 1) * Z.of_N n)%Z.
Proof.
  intros Hl. unfold Double.integer.
  set (l := N.log2 n) in *.
  destruct (0 <=? Z.of_N l - 52)%Z eqn:E.
  - apply Z.leb_le in E. assert (l = 52) as -> by lia.
    change (Double.pow2 (Z.of_N 52 - 52)) with 1.
    change (2 ^ (52 - 52)) with 1. by rewrite !N.mul_1_r.
  - apply Z.leb_gt in E.
    assert (Hp : Double.pow2 (- (Z.of_N l - 52)) = 2 ^ (52 - l)).
    { unfold Double.pow2. f_equal. lia. }
    rewrite Hp.
    assert (Hne : 2 ^ (52 - l) <> 0) by (apply N.pow_nonzero; lia).
    rewrite N.Div0.mod_mul, N.div_mul by done. reflexivity.
Qed.

(** An integer of magnitude at most [2^53] is read exactly. *)
Lemma ofDecimal_exact (negative : bool) (n : N) :
  n <= 2 ^ 53 ->
  exists m e,
    Double.ofDecimal negative n 0 = Finite negative m e /\
    forall sign : bool,
      Double.integer (Finite sign m e)
      = Some ((if sign then -1 else 1) * Z.of_N n)%Z.
Proof.
  intros Hn.
  destruct (N.eq_dec n 0) as [-> | Hpos].
  { exists 0, (-1074)%Z. split; [by vm_compute|]. intros []; by vm_compute. }
  destruct (N.eq_dec n (2 ^ 53)) as [-> | Hne].
  { exists (2 ^ 52), 1%Z. split; [by vm_compute|]. intros []; by vm_compute. }
  eexists _, _. split; [apply ofDecimal_small; lia|].
  intros sign. apply integer_small.
  apply N.lt_succ_r, (N.pow_lt_mono_r_iff 2); [lia|].
  pose proof (N.log2_spec n ltac:(lia)) as [Hlo _].
  eapply N.le_lt_trans; [exact Hlo|]. lia.
Qed.

End NumberFacts.

(* ===================================================================== *)
(** * Printing and reading integers                                       *)
(* ===================================================================== *)

(** The decimal numeral of a natural number, which is [String(n)] for an
    integer Number below [10^21], and what [parseInt] and [parseFloat] read
    back from it. *)
Module Numerals.

Export Digits.

Fixpoint allDigits (s : string) : bool :=
  match s with
  | EmptyString => true
  | String c r => Js.isDigit c && allDigits r
  end.

Section Digits.

Local Open Scope N_scope.

Lemma digitChar_value (d : N) :
  d < 10 -> N_of_ascii (digitChar d) - 48 = d /\ Js.isDigit (digitChar d) = true.
Proof.
  intros H. unfold digitChar, Js.isDigit.
  rewrite N_ascii_embedding by lia.
  split; [lia|]. apply andb_true_iff. split; apply N.leb_le; lia.
Qed.

Lemma length_append_one (s : string) (c : ascii) :
  String.length (s +:+ String c EmptyString) = S (String.length s).
Proof. induction s as [|x r IH]; [done|]. rewrite append_cons. simpl. by rewrite IH. Qed.

Lemma digitsValueFrom_snoc (a : N) (s : string) (c : ascii) :
  JsNum.digitsValueFrom a (s +:+ String c EmptyString)
  = JsNum.digitsValueFrom a s * 10 + (N_of_ascii c - 48).
Proof. by rewrite digitsValueFrom_app. Qed.

Lemma string_app_assoc (s t u : string) : (s +:+ t) +:+ u = s +:+ (t +:+ u).
Proof. induction s as [|c r IH]; [done|]. rewrite !append_cons. by rewrite IH. Qed.

Lemma allDigits_app (s t : string) :
  allDigits (s +:+ t) = allDigits s && allDigits t.
Proof.
  induction s as [|c r IH]; [done|]. rewrite append_cons. simpl.
  by rewrite IH, andb_assoc.
Qed.

Lemma decimalFrom_S (f : nat) (n : N) (acc : string) :
  decimalFrom (S f) n acc
  = if n <? 10 then String (digitChar (n mod 10)) acc
    else decimalFrom f (n / 10) (String (digitChar (n mod 10)) acc).
Proof. reflexivity. Qed.

(** The digits printed for [n]: a non-empty run of digits whose value,
    read after any accumulated value [a], is [a] shifted by their number
    plus [n]. *)
Lemma decimalFrom_spec (fuel : nat) :
  forall (n : N) (acc : string),
    n < 10 ^ N.of_nat (S fuel) ->
    exists c ds,
      decimalFrom (S fuel) n acc = String c ds +:+ acc /\
      allDigits (String c ds) = true /\
      forall a, JsNum.digitsValueFrom a (String c ds)
                = a * 10 ^ N.of_nat (String.length (String c ds)) + n.
Proof.
  assert (Hsmall : forall f n acc, n < 10 ->
            exists c ds,
              decimalFrom (S f) n acc = String c ds +:+ acc /\
              allDigits (String c ds) = true /\
              forall a, JsNum.digitsValueFrom a (String c ds)
                        = a * 10 ^ N.of_nat (String.length (String c ds)) + n).
  { intros f n acc E. cbn [decimalFrom].
    rewrite (proj2 (N.ltb_lt n 10) E), N.mod_small by lia.
    destruct (digitChar_value n E) as [Hv Hd].
    exists (digitChar n), EmptyString. split; [done|]. split.
    - simpl. by rewrite Hd.
    - intros a. simpl. rewrite Hv. lia. }
  induction fuel as [|f IH]; intros n acc Hn.
  { apply Hsmall. simpl in Hn. lia. }
  destruct (n <? 10) eqn:E.
  - apply N.ltb_lt in E. by apply Hsmall.
  - rewrite (decimalFrom_S (S f)), E. apply N.ltb_ge in E.
    assert (Hq : n / 10 < 10 ^ N.of_nat (S f)).
    { apply N.Div0.div_lt_upper_bound.
      rewrite (Nat2N.inj_succ (S f)), N.pow_succ_r in Hn by lia. lia. }
    destruct (IH (n / 10) (String (digitChar (n mod 10)) acc) Hq)
      as (c & ds & Heq & Hall & Hval).
    assert (Hm : n mod 10 < 10) by (apply N.mod_lt; lia).
    destruct (digitChar_value _ Hm) as [Hv Hd].
    exists c, (ds +:+ String (digitChar (n mod 10)) EmptyString).
    change (String c (ds +:+ String (digitChar (n mod 10)) EmptyString))
      with (String c ds +:+ String (digitChar (n mod 10)) EmptyString).
    split; [|split].
    + by rewrite Heq, string_app_assoc.
    + rewrite allDigits_app, Hall. simpl. by rewrite Hd.
    + intros a. rewrite digitsValueFrom_snoc, Hval, Hv, length_append_one.
      rewrite Nat2N.inj_succ, N.pow_succ_r by lia.
      pose proof (N.div_mod n 10 ltac:(lia)). lia.
Qed.

End Digits.

(** Whether a float numeral that ends here is complete: what follows is
    neither a digit, nor a dot, nor an exponent mark. *)
Definition floatStops (rest : string) : bool :=
  match rest with
  | EmptyString => true
  | String c _ =>
      negb (Js.isDigit c || Ascii.eqb c "."%char || Ascii.eqb c "e"%char
            || Ascii.eqb c "E"%char)
  end.

Section Reading.

Lemma decimal_spec (n : N) :
  exists c ds,
    decimal n = String c ds /\
    allDigits (String c ds) = true /\
    JsNum.digitsValue (String c ds) = n.
Proof.
  assert (Hn : (n < 10 ^ N.of_nat (S (N.to_nat (N.log2 n))))%N).
  { rewrite Nat2N.inj_succ, N2Nat.id.
    destruct (N.eq_dec n 0%N) as [-> | Hpos]; [done|].
    pose proof (N.log2_spec n ltac:(lia)) as [_ Hlt].
    eapply N.lt_le_trans; [exact Hlt|].
    apply N.pow_le_mono_l. lia. }
  destruct (decimalFrom_spec _ n EmptyString Hn) as (c & ds & Heq & Hall & Hval).
  exists c, ds. unfold decimal. rewrite Heq.
  split; [|split; [done|]].
  - generalize (String c ds). intros s.
    induction s as [|x r IH]; [done|]. rewrite append_cons. by rewrite IH.
  - unfold JsNum.digitsValue. rewrite Hval. lia.
Qed.

Lemma digit_is_plain (c : ascii) :
  Js.isDigit c = true ->
  Js.isWhiteSpace c = false /\ Ascii.eqb c "-"%char = false /\
  Ascii.eqb c "+"%char = false /\ c <> "I"%char.
Proof. destruct c as [[] [] [] [] [] [] [] []]; by vm_compute. Qed.

Lemma spanDigits_app (ds rest : string) :
  allDigits ds = true -> JsNum.startsWithDigit rest = false ->
  JsNum.spanDigits (ds +:+ rest) = (ds, rest).
Proof.
  intros Hds Hrest. induction ds as [|c r IH].
  - destruct rest as [|x t]; [done|]. simpl in *. by rewrite Hrest.
  - simpl in Hds. apply andb_true_iff in Hds as [Hc Hr].
    rewrite append_cons. simpl. by rewrite Hc, IH.
Qed.

Lemma parseInt_numeral (c : ascii) (ds rest : string) :
  allDigits (String c ds) = true -> JsNum.startsWithDigit rest = false ->
  JsNum.parseInt (String c ds +:+ rest)
  = Double.ofDecimal false (JsNum.digitsValue (String c ds)) 0 /\
  JsNum.parseInt (String "-" (String c ds +:+ rest))
  = Double.ofDecimal true (JsNum.digitsValue (String c ds)) 0.
Proof.
  intros Hall Hrest.
  pose proof Hall as Hc. simpl in Hc. apply andb_true_iff in Hc as [Hc _].
  destruct (digit_is_plain c Hc) as (Hw & Hm & Hp & _).
  unfold JsNum.parseInt. split.
  - rewrite append_cons. cbn [Js.trimStart]. rewrite Hw.
    unfold JsNum.readSign. rewrite Hm, Hp. rewrite <- append_cons.
    by rewrite spanDigits_app.
  - cbn [Js.trimStart]. change (Js.isWhiteSpace "-") with false. cbv iota.
    unfold JsNum.readSign. change (Ascii.eqb "-" "-") with true. cbv iota.
    by rewrite spanDigits_app.
Qed.

Lemma string_app_nil (s : string) : s +:+ EmptyString = s.
Proof. induction s as [|c r IH]; [done|]. rewrite append_cons. by rewrite IH. Qed.

Lemma prefix_other (a b : ascii) (p s : string) :
  a <> b -> String.prefix (String a p) (String b s) = false.
Proof. intros H. simpl. by destruct (ascii_dec a b). Qed.

Lemma parseFloat_numeral (c : ascii) (ds rest : string) :
  allDigits (String c ds) = true -> floatStops rest = true ->
  JsNum.parseFloat (String c ds +:+ rest)
  = Double.ofDecimal false (JsNum.digitsValue (String c ds)) 0.
Proof.
  intros Hall Hrest.
  pose proof Hall as Hc. simpl in Hc. apply andb_true_iff in Hc as [Hc _].
  destruct (digit_is_plain c Hc) as (Hw & Hm & Hp & HI).
  assert (Hstart : JsNum.startsWithDigit rest = false).
  { destruct rest as [|x t]; [done|]. simpl in *.
    by destruct (Js.isDigit x). }
  unfold JsNum.parseFloat.
  rewrite append_cons. cbn [Js.trimStart]. rewrite Hw.
  unfold JsNum.readSign. rewrite Hm, Hp.
  assert (Hinf : String.prefix "Infinity" (String c (ds +:+ rest)) = false).
  { apply prefix_other. intros E. by apply HI. }
  rewrite Hinf. rewrite <- append_cons, spanDigits_app by done.
  destruct rest as [|x t].
  - simpl. by rewrite string_app_nil.
  - simpl in Hrest. apply negb_true_iff in Hrest.
    apply orb_false_iff in Hrest as [Hrest HE].
    apply orb_false_iff in Hrest as [Hrest He].
    apply orb_false_iff in Hrest as [Hd Hdot].
    rewrite Hdot. cbn [Js.isEmpty andb].
    unfold JsNum.readExponent. rewrite He, HE. simpl.
    by rewrite string_app_nil.
Qed.

End Reading.

(** A numeric parse reads the leading integer and ignores the rest.  For
    every natural number [n] printed in decimal: in an INTEGER column the
    text [n] followed by anything that does not start with a digit gives
    the double nearest to [n], and with a minus sign in front the double
    nearest to [-n]; in a NUMERIC column the text [n] followed by anything
    that starts with neither a digit, a dot nor an exponent mark gives the
    double nearest to [n].  Up to [2^53] that double is the integer [n]
    itself, so that [String(n)] is read back as [n], and text such as
    [30 kg] or [1,234.5] is read as 30 and as 1.  Beyond [2^53] it need not
    be: [9007199254740993] is read as [9007199254740992]. *)
Theorem numeric_cell_reads_leading_integer (m : gmap string ColumnSchema.t)
    (header : string) (n : N) (rest : string) :
  (schemaType m header = Some "INTEGER" ->
   JsNum.startsWithDigit rest = false ->
   cellValue m header (decimal n +:+ rest) = VNumber (Double.ofDecimal false n 0) /\
   cellValue m header (String "-" (decimal n +:+ rest))
   = VNumber (Double.ofDecimal true n 0)) /\
  (schemaType m header = Some "NUMERIC" ->
   floatStops rest = true ->
   cellValue m header (decimal n +:+ rest) = VNumber (Double.ofDecimal false n 0)) /\
  JsNum.parseInt (decimal n) = Double.ofDecimal false n 0 /\
  JsNum.parseFloat (decimal n) = Double.ofDecimal false n 0 /\
  ((n <= 2 ^ 53)%N ->
   forall negative : bool,
     exists (significand : N) (exponent : Z),
       Double.ofDecimal negative n 0 = Finite negative significand exponent /\
       Double.integer (Finite negative significand exponent)
       = Some ((if negative then -1 else 1) * Z.of_N n)%Z) /\
  JsNum.parseInt "9007199254740993" = JsNum.parseInt "9007199254740992" /\
  Double.integer (JsNum.parseInt "9007199254740993") = Some 9007199254740992%Z.
Proof.
  destruct (decimal_spec n) as (c & ds & Heq & Hall & Hval).
  rewrite Heq.
  split; [|split; [|split; [|split; [|split]]]].
  - intros Hty Hrest.
    destruct (parseInt_numeral c ds rest Hall Hrest) as [Hpos Hneg].
    rewrite !cellValue_integer by done.
    rewrite append_cons. cbn [Js.isEmpty]. rewrite <- append_cons.
    by rewrite Hpos, Hneg, Hval.
  - intros Hty Hrest.
    rewrite cellValue_numeric by done.
    rewrite append_cons. cbn [Js.isEmpty]. rewrite <- append_cons.
    by rewrite (parseFloat_numeral c ds rest Hall Hrest), Hval.
  - destruct (parseInt_numeral c ds EmptyString Hall eq_refl) as [Hpos _].
    rewrite string_app_nil in Hpos. by rewrite Hpos, Hval.
  - pose proof (parseFloat_numeral c ds EmptyString Hall eq_refl) as Hf.
    rewrite string_app_nil in Hf. by rewrite Hf, Hval.
  - intros Hn negative.
    destruct (ofDecimal_exact negative n Hn) as (significand & exponent & E & Hint).
    exists significand, exponent. split; [done|]. apply Hint.
  - by vm_compute.
Qed.

(** Numerals past the range of a double are read as an infinity, and a
    numeral with more digits than a double holds as the double nearest. *)
Example numerals_out_of_range :
  JsNum.parseFloat "1e400" = Infinity false /\
  JsNum.parseFloat "-1e400" = Infinity true /\
  JsNum.parseFloat "1e-400" = Finite false 0 (-1074) /\
  JsNum.parseFloat "0.1" = Finite false 7205759403792794 (-56) /\
  JsNum.parseInt "9007199254740993" = Finite false 4503599627370496 1.
Proof. by vm_compute. Qed.

Example numeric_cells_read :
  let m := schemaMap (SchemaResponse.mk [col "age" "INTEGER"; col "amount" "NUMERIC"]) in
  cellValue m "age" "30 kg" = VNumber (Double.ofDecimal false 30 0) /\
  cellValue m "amount" "1,234.5" = VNumber (Double.ofDecimal false 1 0) /\
  decimal 1234 = "1234".
Proof. by repeat split. Qed.

End Numerals.

(* ===================================================================== *)
(** * The formatter of a numeric column                                   *)
(* ===================================================================== *)

(** A text without its commas. *)
Definition withoutCommas (s : string) : string :=
  string_of_list_ascii
    (List.filter (fun a => negb (Ascii.eqb a ","%char)) (list_ascii_of_string s)).

Section GroupingFacts.

Import Numerals.

Lemma digit_not_comma (c : ascii) :
  Js.isDigit c = true -> Ascii.eqb c ","%char = false /\ Ascii.eqb c "."%char = false.
Proof. destruct c as [[] [] [] [] [] [] [] []]; by vm_compute. Qed.

Lemma withoutCommas_cons (c : ascii) (s : string) :
  withoutCommas (String c s)
  = if Ascii.eqb c ","%char then withoutCommas s else String c (withoutCommas s).
Proof. unfold withoutCommas. simpl. by destruct (Ascii.eqb c ","%char). Qed.

(** Grouping only adds commas. *)
Lemma withoutCommas_commas (digits : string) :
  allDigits digits = true -> withoutCommas (EnIN.commas digits) = digits.
Proof.
  induction digits as [|c r IH]; intros H; [done|].
  simpl in H. apply andb_true_iff in H as [Hc Hr].
  destruct (digit_not_comma c Hc) as [Hcomma _].
  cbn [EnIN.commas].
  destruct (_ && _); rewrite ?withoutCommas_cons; cbn [Ascii.eqb];
    rewrite ?withoutCommas_cons, Hcomma, IH; done.
Qed.

Lemma countChar_commas (c : ascii) (digits : string) :
  Ascii.eqb ","%char c = false ->
  Js.countChar c (EnIN.commas digits) = Js.countChar c digits.
Proof.
  intros Hc. induction digits as [|a r IH]; [done|].
  cbn [EnIN.commas].
  destruct (_ && _); cbn [Js.countChar]; rewrite ?Hc, IH; done.
Qed.

Lemma countChar_allDigits (c : ascii) (digits : string) :
  allDigits digits = true -> Js.isDigit c = false ->
  Js.countChar c digits = 0.
Proof.
  intros H Hc. induction digits as [|a r IH]; [done|].
  simpl in *. apply andb_true_iff in H as [Ha Hr].
  destruct (Ascii.eqb a c) eqn:E; [|by apply IH].
  apply Ascii.eqb_eq in E. congruence.
Qed.

(** The number of commas grouping adds: one for every two digits before
    the last three. *)
Lemma commas_count (digits : string) :
  allDigits digits = true ->
  Js.countChar ","%char (EnIN.commas digits) = (String.length digits - 1) / 2.
Proof.
  induction digits as [|c r IH]; intros H; [done|].
  simpl in H. apply andb_true_iff in H as [Hc Hr].
  destruct (digit_not_comma c Hc) as [Hcomma _].
  specialize (IH Hr). cbn [EnIN.commas String.length].
  destruct (Nat.odd (S (String.length r))) eqn:Eo.
  - apply Nat.odd_spec in Eo as [j Hj].
    destruct (3 <=? S (String.length r)) eqn:E3; cbn [andb Js.countChar];
      [apply Nat.leb_le in E3 | apply Nat.leb_gt in E3];
      rewrite ?Ascii.eqb_refl, ?Hcomma, IH.
    + replace (String.length r) with (2 * j) by lia.
      replace (S (2 * j) - 1) with (j * 2) by lia.
      rewrite Nat.div_mul by done.
      replace (2 * j - 1) with (1 + (j - 1) * 2) by lia.
      rewrite Nat.div_add by done. simpl. lia.
    + assert (String.length r = 0) as -> by lia. done.
  - rewrite andb_false_r. cbn [Js.countChar]. rewrite Hcomma, IH.
    assert (He : Nat.even (S (String.length r)) = true).
    { rewrite <- Nat.negb_odd. by rewrite Eo. }
    apply Nat.even_spec in He as [j Hj].
    destruct j as [|j]; [lia|].
    replace (String.length r) with (1 + j * 2) by lia.
    replace (1 + j * 2 - 1) with (j * 2) by lia.
    replace (S (1 + j * 2) - 1) with (1 + j * 2) by lia.
    rewrite Nat.div_mul, Nat.div_add by done. simpl. lia.
Qed.

Lemma fraction_shape (f : N) :
  (f < 100)%N ->
  EnIN.fraction f = EmptyString \/
  (exists a, EnIN.fraction f = String "."%char (String a EmptyString)
             /\ Js.isDigit a = true) \/
  (exists a b, EnIN.fraction f
               = String "."%char (String a (String b EmptyString))
               /\ Js.isDigit a = true /\ Js.isDigit b = true /\ b <> "0"%char).
Proof.
  intros Hf. unfold EnIN.fraction.
  destruct (f =? 0)%N; [by left|right].
  assert (Hq : (f / 10 < 10)%N) by (apply N.Div0.div_lt_upper_bound; lia).
  assert (Hr : (f mod 10 < 10)%N) by (apply N.mod_lt; lia).
  destruct (digitChar_value _ Hq) as [_ Hdq].
  destruct (digitChar_value _ Hr) as [Hvr Hdr].
  destruct (f mod 10 =? 0)%N eqn:E.
  - left. by eexists.
  - right. eexists _, _. split; [done|]. split; [done|]. split; [done|].
    apply N.eqb_neq in E. intros H0. rewrite H0 in Hvr. simpl in Hvr. lia.
Qed.

(** A small integer is printed with its digits, grouped, and no fraction. *)
Lemma format_integer (negative : bool) (n : N) :
  (n < 2 ^ 53)%N ->
  EnIN.format (Double.ofDecimal negative n 0)
  = Text ((if negative then "-" else "") +:+ EnIN.group (decimal n)).
Proof.
  intros Hn.
  destruct (ofDecimal_exact negative n ltac:(lia)) as (m & e & -> & Hint).
  unfold EnIN.format, EnIN.hundredths. rewrite (Hint false).
  rewrite Z.mul_1_l, N2Z.id.
  rewrite (proj2 (Z.ltb_lt _ _)) by lia.
  rewrite N.div_mul, N.Div0.mod_mul by done.
  change (EnIN.fraction 0) with EmptyString.
  by rewrite string_app_nil.
Qed.

Lemma group_decimal (n : N) :
  withoutCommas (EnIN.group (decimal n)) = decimal n /\
  Js.countChar ","%char (EnIN.group (decimal n))
  = (String.length (decimal n) - 2) / 2 /\
  Js.countChar "."%char (EnIN.group (decimal n)) = 0.
Proof.
  destruct (decimal_spec n) as (c & ds & -> & Hall & _).
  pose proof Hall as Hc. simpl in Hc. apply andb_true_iff in Hc as [Hc Hds].
  destruct (digit_not_comma c Hc) as [Hcomma Hdot].
  cbn [EnIN.group]. split; [|split].
  - by rewrite withoutCommas_cons, Hcomma, withoutCommas_commas.
  - cbn [Js.countChar String.length]. rewrite Hcomma, commas_count by done.
    change (S (String.length ds) - 2) with (String.length ds - 1)%nat. lia.
  - cbn [Js.countChar]. rewrite Hdot, countChar_commas by done.
    by rewrite countChar_allDigits.
Qed.

(** Whatever the Number, at most two digits follow the point, and the last
    of them is not a zero. *)
Lemma format_fraction_digits (negative : bool) (m : N) (e : Z) :
  exists whole frac : string,
    EnIN.format (Finite negative m e) = Text (whole +:+ frac) /\
    Js.countChar "."%char whole = 0 /\
    (frac = EmptyString \/
     (exists a, frac = String "."%char (String a EmptyString)
                /\ Js.isDigit a = true) \/
     (exists a b, frac = String "."%char (String a (String b EmptyString))
                  /\ Js.isDigit a = true /\ Js.isDigit b = true
                  /\ b <> "0"%char)).
Proof.
  unfold EnIN.format.
  set (t := EnIN.hundredths m e).
  exists ((if negative then "-" else "") +:+ EnIN.group (decimal (t / 100))),
         (EnIN.fraction (t mod 100)).
  split; [by rewrite string_app_assoc|]. split.
  - rewrite SchemaAnalysis.countChar_app.
    destruct (group_decimal (t / 100)%N) as (_ & _ & ->).
    by destruct negative.
  - apply fraction_shape, N.mod_lt. lia.
Qed.

End GroupingFacts.

(** C8, as the code has it: the configuration of a column is decided by
    the type string the schema resolves for its header and by nothing else.
    When that string is INTEGER or NUMERIC the column has the number
    filter, aggregation sum, the allowed aggregations sum, avg, min, max,
    count, and a formatter for the locale en-IN with at most two and at
    least zero fraction digits.  That formatter gives the empty text for
    null; it prints an integer below [2^53] with its digits grouped the
    Indian way, the last three and then by twos, so that the commas number
    half the digits before the last three, rounded up; and whatever the
    Number, at most two digits follow the point.  In every other case
    (another type string of the set, a string outside the set, no schema
    match) the column has the text filter, no formatter and no aggregation.
    The type string of a match is kept as it came; a header without a match
    is typed TEXT. *)
Theorem gridColumn_by_type (m : gmap string ColumnSchema.t) (header : string) :
  GridColumn.field (gridColumn m header) = header /\
  GridColumn.headerName (gridColumn m header) = header /\
  ((schemaType m header = Some "INTEGER" \/
    schemaType m header = Some "NUMERIC") ->
   GridColumn.filter (gridColumn m header) = "agNumberColumnFilter" /\
   GridColumn.valueFormatter (gridColumn m header)
   = Some {| NumberFormat.locale := "en-IN";
             NumberFormat.maximumFractionDigits := 2;
             NumberFormat.minimumFractionDigits := 0;
             NumberFormat.style := "decimal" |} /\
   GridColumn.aggFunc (gridColumn m header) = Some "sum" /\
   GridColumn.allowedAggFuncs (gridColumn m header)
   = Some ["sum"; "avg"; "min"; "max"; "count"]) /\
  (schemaType m header <> Some "INTEGER" ->
   schemaType m header <> Some "NUMERIC" ->
   GridColumn.filter (gridColumn m header) = "agTextColumnFilter" /\
   GridColumn.valueFormatter (gridColumn m header) = None /\
   GridColumn.aggFunc (gridColumn m header) = None /\
   GridColumn.allowedAggFuncs (gridColumn m header) = None) /\
  (forall t, schemaType m header = Some t -> t <> EmptyString ->
     GridColumn.type (gridColumn m header) = t) /\
  (schemaType m header = None ->
   GridColumn.type (gridColumn m header) = "TEXT") /\
  (forall (m' : gmap string ColumnSchema.t) (header' : string),
     schemaType m' header' = schemaType m header ->
     gridColumn m' header'
     = {| GridColumn.field := header';
          GridColumn.headerName := header';
          GridColumn.type := GridColumn.type (gridColumn m header);
          GridColumn.sortable := GridColumn.sortable (gridColumn m header);
          GridColumn.resizable := GridColumn.resizable (gridColumn m header);
          GridColumn.enableValue := GridColumn.enableValue (gridColumn m header);
          GridColumn.width := GridColumn.width (gridColumn m header);
          GridColumn.filter := GridColumn.filter (gridColumn m header);
          GridColumn.valueFormatter :=
            GridColumn.valueFormatter (gridColumn m header);
          GridColumn.aggFunc := GridColumn.aggFunc (gridColumn m header);
          GridColumn.allowedAggFuncs :=
            GridColumn.allowedAggFuncs (gridColumn m header) |}) /\
  (let formatter := {| NumberFormat.locale := "en-IN";
                       NumberFormat.maximumFractionDigits := 2;
                       NumberFormat.minimumFractionDigits := 0;
                       NumberFormat.style := "decimal" |} in
   applyFormatter formatter None = Some (Text "") /\
   (forall (negative : bool) (n : N),
      (n < 2 ^ 53)%N ->
      applyFormatter formatter (Some (Double.ofDecimal negative n 0))
      = Some (Text ((if negative then "-" else "")
                    +:+ EnIN.group (Digits.decimal n)))) /\
   (forall n : N,
      withoutCommas (EnIN.group (Digits.decimal n)) = Digits.decimal n /\
      Js.countChar ","%char (EnIN.group (Digits.decimal n))
      = (String.length (Digits.decimal n) - 2) / 2) /\
   (forall (negative : bool) (significand : N) (exponent : Z),
      exists whole frac : string,
        applyFormatter formatter (Some (Finite negative significand exponent))
        = Some (Text (whole +:+ frac)) /\
        Js.countChar "."%char whole = 0 /\
        (frac = EmptyString \/
         (exists a, frac = String "."%char (String a EmptyString)
                    /\ Js.isDigit a = true) \/
         (exists a b, frac = String "."%char (String a (String b EmptyString))
                      /\ Js.isDigit a = true /\ Js.isDigit b = true
                      /\ b <> "0"%char))) /\
   applyFormatter formatter (Some (Double.ofDecimal false 1234567 0))
   = Some (Text "12,34,567") /\
   applyFormatter formatter (Some (Double.ofDecimal true 100000 0))
   = Some (Text "-1,00,000") /\
   applyFormatter formatter (Some (Double.ofDecimal false 999 0))
   = Some (Text "999") /\
   applyFormatter formatter (Some (Double.ofDecimal false 1234567891 (-3)))
   = Some (Text "12,34,567.89") /\
   applyFormatter formatter (Some (Double.ofDecimal false 25 (-1)))
   = Some (Text "2.5") /\
   applyFormatter formatter (Some NaN) = Some (Text "NaN")).
Proof.
  split; [apply gridColumn_field|]. split; [apply gridColumn_field|].
  split; [intros H; by rewrite (gridColumn_numeric m header H)|].
  split; [intros Hi Hn; by rewrite (gridColumn_text m header Hi Hn)|].
  split.
  { intros t Ht Hne. rewrite gridColumn_type, Ht. by apply typeOrText_some. }
  split.
  { intros H. by rewrite gridColumn_type, H. }
  split.
  { intros m' header' Heq.
    destruct (decide (schemaType m header = Some "INTEGER" \/
                      schemaType m header = Some "NUMERIC")) as [H | H].
    - rewrite (gridColumn_numeric m header H).
      rewrite <- Heq in H. rewrite (gridColumn_numeric m' header' H).
      by rewrite Heq.
    - assert (Hi : schemaType m header <> Some "INTEGER") by (intros E; apply H; by left).
      assert (Hn : schemaType m header <> Some "NUMERIC") by (intros E; apply H; by right).
      rewrite (gridColumn_text m header Hi Hn).
      rewrite <- Heq in Hi, Hn. rewrite (gridColumn_text m' header' Hi Hn).
      by rewrite Heq. }
  cbv zeta. unfold applyFormatter, formatNumber. cbn [NumberFormat.locale
    NumberFormat.maximumFractionDigits NumberFormat.minimumFractionDigits
    NumberFormat.style]. 
  change (String.eqb "en-IN" "en-IN" && (2 =? 2) && (0 =? 0)
          && String.eqb "decimal" "decimal") with true. cbv iota.
  split; [done|].
  split; [intros negative n Hn; by rewrite format_integer|].
  split.
  { intros n. destruct (group_decimal n) as (H1 & H2 & _). by split. }
  split.
  { intros negative significand exponent.
    destruct (format_fraction_digits negative significand exponent)
      as (whole & frac & -> & Hw & Hf).
    by exists whole, frac. }
  by vm_compute.
Qed.

(** C8 as stated fails: the formatter does not group by thousands.  In an
    INTEGER column the cell read from [1234567] is shown as [12,34,567];
    grouped by thousands it would be [1,234,567]. *)
Lemma lakh_grouping_counterexample :
  let schema := SchemaResponse.mk [col "amount" "INTEGER"] in
  let run := handleFileUpload (constService schema)
               (lines ["amount"; "1234567"]) in
  let cell := Double.ofDecimal false 1234567 0 in
  (fun row => GridRow.own row !! "amount") <$> dataOf run
  = [Some (VNumber cell)] /\
  (fun column =>
     match GridColumn.valueFormatter column with
     | Some formatter => applyFormatter formatter (Some cell)
     | None => None
     end) <$> columnsOf run
  = [Some (Text "12,34,567")] /\
  thousands (Digits.decimal 1234567) = "1,234,567" /\
  "12,34,567" <> "1,234,567".
Proof. split; [|split; [|split]]; [by vm_compute.. | discriminate]. Qed.

(* ===================================================================== *)
(** * The name of a new database                                          *)
(* ===================================================================== *)

(** [generateDatabaseName].  Its two readings of the environment are
    arguments: [random], the integer [Math.floor(Math.random() * 899)],
    which lies in 0..898 because [Math.random()] is at least 0 and below 1,
    and [day], the day of the month of [new Date().getDate()]. *)
Module DatabaseName.

Import Numerals.

(** [s.padStart(width, '0')] *)
Definition padStart (width : nat) (s : string) : string :=
  Nat.iter (width - String.length s) (String "0") s.

Definition generateDatabaseName (random day : N) (nickname : string) : string :=
  let prefix := "rexdb" in
  let randomNum := (random + 101)%N in
  let currentDay := padStart 2 (decimal day) in
  prefix +:+ decimal randomNum +:+ currentDay +:+ nickname.

(** The five characters between the prefix and the nickname. *)
Definition stamp (random day : N) : string :=
  decimal (random + 101) +:+ padStart 2 (decimal day).

Definition fiveDigits (s : string) : bool :=
  (String.length s =? 5) && allDigits s.

Lemma stamps_checked :
  forallb (fun r => forallb (fun d => fiveDigits (stamp (N.of_nat r) (N.of_nat d)))
                      (seq 1 31))
          (seq 0 899) = true.
Proof. by vm_compute. Qed.

Lemma stamp_five_digits (random day : N) :
  (random < 899)%N -> (1 <= day <= 31)%N -> fiveDigits (stamp random day) = true.
Proof.
  intros Hr Hd.
  pose proof stamps_checked as H.
  rewrite forallb_forall in H.
  specialize (H (N.to_nat random)). rewrite forallb_forall in H.
  specialize (H ltac:(apply in_seq; lia) (N.to_nat day) ltac:(apply in_seq; lia)).
  by rewrite !N2Nat.id in H.
Qed.

(** A generated name is [rexdb], five digits (a number from 101 to 999 and
    the day of the month on two digits), and the nickname as given: it is
    ten characters longer than the nickname, and the nickname is what
    follows the first ten characters. *)
Theorem database_name_shape (random day : N) (nickname : string) :
  (random < 899)%N -> (1 <= day <= 31)%N ->
  exists digits,
    generateDatabaseName random day nickname = "rexdb" +:+ digits +:+ nickname /\
    String.length digits = 5 /\ allDigits digits = true /\
    String.length (generateDatabaseName random day nickname)
    = 10 + String.length nickname /\
    String.substring 10 (String.length nickname)
      (generateDatabaseName random day nickname) = nickname.
Proof.
  intros Hr Hd.
  pose proof (stamp_five_digits random day Hr Hd) as H.
  unfold fiveDigits in H. apply andb_true_iff in H as [Hlen Hall].
  apply Nat.eqb_eq in Hlen.
  exists (stamp random day).
  assert (Hname : generateDatabaseName random day nickname
                  = ("rexdb" +:+ stamp random day) +:+ nickname).
  { unfold generateDatabaseName, stamp.
    by rewrite !ChatBox.string_app_assoc_l. }
  split; [by rewrite Hname, ChatBox.string_app_assoc_l|].
  split; [done|]. split; [done|]. split.
  - rewrite Hname, !ChatBox.length_append, Hlen. simpl. lia.
  - rewrite Hname.
    replace 10 with (String.length ("rexdb" +:+ stamp random day))
      by (rewrite ChatBox.length_append, Hlen; reflexivity).
    rewrite ChatBox.substring_append. apply ChatBox.substring_full.
Qed.

Lemma database_name_shape_witness :
  generateDatabaseName 0 7 "oak" = "rexdb10107oak" /\
  String.substring 10 (String.length "oak") (generateDatabaseName 0 7 "oak")
  = "oak".
Proof.
  split; [reflexivity|].
  destruct (database_name_shape 0 7 "oak") as (digits & _ & _ & _ & _ & H);
    [reflexivity | split; discriminate | exact H].
Defined.

End DatabaseName.

(* ===================================================================== *)
(** * Connecting to a database and pushing to it                          *)
(* ===================================================================== *)

(** [handleQuickConnect], and [handlePushToMyDb] up to the upload request
    it issues.  The state is the part of the component state and of the
    session storage the two handlers read or write. *)
Module Connect.

Import SchemaAnalysis.

Definition quote : string := String "034" "".

(** The prompt of [handleQuickConnect], a template literal;
    [additionalInfo || ''] is [additionalInfo], a string. *)
Definition connectPrompt (connectionString additionalInfo : string) : string :=
  "I have database connection details that I need you to analyze and test. Here are the details:

"
  +:+ connectionString
  +:+ "
"
  +:+ additionalInfo
  +:+ "

Please:
1. Check if all required information is present (host, database, user, password, type, port)
2. If any required information is missing, tell me what's missing
3. If all information is present, try to connect and check for available schemas
4. Respond with one of:
   - " +:+ quote +:+ "Missing required information: [list what's missing]" +:+ quote +:+ "
   - " +:+ quote +:+ "I have tested the connection and it is working. [Then share the database credential as a list nicely formatted :Database Nickname, Host, Database Name, User Name, Type of warehouse - PostGres or MySQL] Available schemas are ..[share as list]. Let me know your questions [Show eagerness to help]." +:+ quote +:+ "
   - " +:+ quote +:+ "Connection is not working. Please check your connection credentials." +:+ quote.

Record State : Type := mkState {
  isQuickConnecting : bool;
  storedCredentials : option string;      (* [useState<string | null>(null)] *)
  sessionCredentials : option string;     (* [sessionStorage] item [dbCredentials] *)
  panelState : Maximize.PanelState (Name := Maximize.Panel);
  showQuickConnectDialog : bool
}.

Inductive toast : Type :=
| MissingConnectionString
| AgentResponse
| ConnectionFailed (description : option string)
| NoDatabaseConnection
| UploadFailed (description : string).

Record Effects : Type := mkEffects {
  state : State;
  appended : list Message;
  toasts : list toast;
  prompts : list string          (* the questions posted to the agent *)
}.

Section Handlers.

Variable post : string -> string -> posted.
Variable sessionId : string.

Definition handleQuickConnect (connectionString additionalInfo : string)
    (st : State) : Effects :=
  if isQuickConnecting st then mkEffects st [] [] []
  else if negb (Js.truthy connectionString)
  then mkEffects st [] [MissingConnectionString] []
  else
    let prompt := connectPrompt connectionString additionalInfo in
    let stored :=
      {| isQuickConnecting := false;
         storedCredentials := Some connectionString;
         sessionCredentials := Some connectionString;
         panelState := panelState st;
         showQuickConnectDialog := showQuickConnectDialog st |} in
    match post prompt sessionId with
    | PostStatus true (Some result) =>
        mkEffects
          {| isQuickConnecting := false;
             storedCredentials := Some connectionString;
             sessionCredentials := Some connectionString;
             panelState :=
               Maximize.mkPanels (Some Maximize.chat)
                 (Maximize.maximized (panelState st));
             showQuickConnectDialog := false |}
          [ {| role := "assistant";
               content := orElse (text result) (message result) |} ]
          [AgentResponse] [prompt]
    | PostStatus false _ =>
        mkEffects stored [] [ConnectionFailed (Some "Failed to send to agent")]
          [prompt]
    | _ => mkEffects stored [] [ConnectionFailed None] [prompt]
    end.

(** The state after a series of connection attempts, each finished before
    the next starts. *)
Definition connectAll (attempts : list (string * string)) (st : State) : State :=
  foldl (fun s a => state (handleQuickConnect (fst a) (snd a) s)) st attempts.

End Handlers.

(** What [handlePushToMyDb] comes to: the refusal; the failure of the
    parse, shown with its message; the SyntaxError of [new RegExp] on the
    password, shown with the message the engine gives it, no request
    having been sent; or the upload it sends with the parsed credentials. *)
Inductive push : Type :=
| Refused
| ParseFailed (description : string)
| PatternFailed (password : string)
| Upload (endpoint : string) (queryParams : list (string * string)).

Section Push.

(** The request of [parseCredentialsWithAI] up to [JSON.parse]. *)
Variable parse : string -> ParseCredentials.parsed.

(** Whether [new RegExp(pattern, 'g')] returns: it throws a SyntaxError
    when [pattern] is no regular expression, as it is with a parenthesis
    that is not closed. *)
Variable validPattern : string -> bool.

(** [handleCustomPushToDb] makes a regular expression of the password,
    for the URL it logs, before the [try] that sends the request. *)
Definition handlePushToMyDb (st : State) : push :=
  match storedCredentials st with
  | None => Refused
  | Some credentials =>
      if negb (Js.truthy credentials) then Refused
      else match ParseCredentials.parseCredentialsWithAI (parse credentials) with
           | inl message => ParseFailed message
           | inr parsedCredentials =>
               let password :=
                 Upload.orDefault (parsedCredentials !! "password") "not-used" in
               if validPattern password
               then Upload (Upload.endpoint parsedCredentials)
                           (Upload.queryParams parsedCredentials)
               else PatternFailed password
           end
  end.

End Push.

(** The last connection string that is not empty, if there is one. *)
Definition lastConnection (attempts : list (string * string)) : option string :=
  last (List.filter Js.truthy (fst <$> attempts)).

Definition initialState (session : option string) : State :=
  {| isQuickConnecting := false;
     storedCredentials := None;
     sessionCredentials := session;
     panelState := Maximize.mkPanels (Some Maximize.analysis) None;
     showQuickConnectDialog := false |}.

Section Facts.

Variable post : string -> string -> posted.
Variable sessionId : string.

Lemma quick_connect_step (cs info : string) (st : State) :
  isQuickConnecting st = false ->
  let st' := state (handleQuickConnect post sessionId cs info st) in
  isQuickConnecting st' = false /\
  storedCredentials st'
  = (if Js.truthy cs then Some cs else storedCredentials st) /\
  sessionCredentials st'
  = (if Js.truthy cs then Some cs else sessionCredentials st).
Proof.
  intros Hidle. unfold handleQuickConnect. rewrite Hidle.
  destruct (Js.truthy cs); simpl; [|done].
  by destruct (post _ sessionId) as [|[] []].
Qed.

Lemma last_snoc_filter (l : list string) (x : string) :
  last (List.filter Js.truthy (l ++ [x]))
  = if Js.truthy x then Some x else last (List.filter Js.truthy l).
Proof.
  rewrite List.filter_app. simpl.
  destruct (Js.truthy x); [apply last_snoc | by rewrite app_nil_r].
Qed.

Lemma connectAll_snoc (attempts : list (string * string)) (a : string * string)
    (st : State) :
  connectAll post sessionId (attempts ++ [a]) st
  = state (handleQuickConnect post sessionId (fst a) (snd a)
             (connectAll post sessionId attempts st)).
Proof. unfold connectAll. by rewrite foldl_app. Qed.

Lemma connectAll_invariant (session : option string)
    (attempts : list (string * string)) :
  let st := connectAll post sessionId attempts (initialState session) in
  isQuickConnecting st = false /\
  storedCredentials st = lastConnection attempts /\
  sessionCredentials st
  = match lastConnection attempts with
    | Some cs => Some cs
    | None => session
    end.
Proof.
  induction attempts as [|[cs info] attempts IH] using rev_ind; [done|].
  rewrite connectAll_snoc.
  change (fst (cs, info)) with cs. change (snd (cs, info)) with info.
  destruct IH as (Hidle & Hstored & Hsession).
  destruct (quick_connect_step cs info _ Hidle) as (Hi & Hs & Hss).
  assert (Hlast : lastConnection (attempts ++ [(cs, info)])
                  = if Js.truthy cs then Some cs else lastConnection attempts).
  { unfold lastConnection. rewrite fmap_app.
    change (fst <$> [(cs, info)]) with [cs]. apply last_snoc_filter. }
  cbv zeta. rewrite Hlast, Hi, Hs, Hss, Hstored, Hsession.
  by destruct (Js.truthy cs).
Qed.

End Facts.

(** Whatever the agent answers, a finished connection attempt never leaves
    the handler busy, and the credentials kept for later use are the last
    connection string that was not empty, in the component state and in
    the session storage alike: an attempt the agent rejects still replaces
    them, an empty one does not touch them. *)
Theorem stored_credentials_are_last_connection
    (post : string -> string -> posted) (sessionId : string)
    (session : option string) (attempts : list (string * string)) :
  isQuickConnecting (connectAll post sessionId attempts (initialState session))
  = false /\
  storedCredentials (connectAll post sessionId attempts (initialState session))
  = lastConnection attempts /\
  sessionCredentials (connectAll post sessionId attempts (initialState session))
  = match lastConnection attempts with
    | Some cs => Some cs
    | None => session
    end.
Proof. apply connectAll_invariant. Qed.

(** A push to the user's database is refused exactly when no connection
    string that is not empty has been given so far.  Otherwise the last one
    is parsed, even if the agent rejected it.  When the parse fails, its
    message is shown.  When it succeeds, the six parameters and the type
    are there and not empty, and what follows hangs on the password: if it
    is a regular expression, the upload goes to the endpoint of the parsed
    type with host, database, user, password, schema and port as parsed;
    if it is none, nothing is sent and the error of [new RegExp] is
    shown. *)
Theorem push_after_quick_connect (post : string -> string -> posted)
    (parse : string -> ParseCredentials.parsed)
    (validPattern : string -> bool) (sessionId : string)
    (session : option string) (attempts : list (string * string)) :
  let st := connectAll post sessionId attempts (initialState session) in
  (handlePushToMyDb parse validPattern st = Refused
   <-> lastConnection attempts = None) /\
  (forall cs, lastConnection attempts = Some cs ->
     (forall message,
        ParseCredentials.parseCredentialsWithAI (parse cs) = inl message ->
        handlePushToMyDb parse validPattern st = ParseFailed message) /\
     (forall c,
        ParseCredentials.parseCredentialsWithAI (parse cs) = inr c ->
        exists host database user password schema port db_type : string,
          c !! "host" = Some host /\ c !! "database" = Some database /\
          c !! "user" = Some user /\ c !! "password" = Some password /\
          c !! "schema" = Some schema /\ c !! "port" = Some port /\
          c !! "db_type" = Some db_type /\
          password <> "" /\
          (db_type = "postgresql" \/ db_type = "mysql") /\
          handlePushToMyDb parse validPattern st
          = if validPattern password
            then Upload (if String.eqb db_type "postgresql"
                         then "/upload-file-custom-db-pg/"
                         else "/upload-file-custom-db-mysql/")
                        [("host", host); ("database", database);
                         ("user", user); ("password", password);
                         ("schema", schema); ("port", port)]
            else PatternFailed password)).
Proof.
  intros st.
  destruct (connectAll_invariant post sessionId session attempts)
    as (_ & Hstored & _).
  fold st in Hstored.
  assert (Htruthy : forall cs, lastConnection attempts = Some cs ->
                      Js.truthy cs = true).
  { intros cs Hcs. unfold lastConnection in Hcs.
    apply last_Some_elem_of, list_elem_of_In, filter_In in Hcs. tauto. }
  unfold handlePushToMyDb. rewrite Hstored.
  destruct (lastConnection attempts) as [cs|] eqn:E.
  - rewrite (Htruthy cs eq_refl). simpl. split.
    + split; [|done].
      destruct (ParseCredentials.parseCredentialsWithAI (parse cs)); [done|].
      by destruct (validPattern _).
    + intros cs' [= <-]. split.
      * by intros message ->.
      * intros c Hc. rewrite Hc.
        apply ParseCredentials.credentials_validation_core in Hc
          as (_ & Hall & Htype).
        unfold ParseCredentials.requiredFields in Hall.
        apply Forall_cons in Hall as [(host & Hhost & Nhost) Hall].
        apply Forall_cons in Hall as [(database & Hdatabase & Ndatabase) Hall].
        apply Forall_cons in Hall as [(user & Huser & Nuser) Hall].
        apply Forall_cons in Hall as [(password & Hpassword & Npassword) Hall].
        apply Forall_cons in Hall as [(schema & Hschema & Nschema) Hall].
        apply Forall_cons in Hall as [(port & Hport & Nport) Hall].
        apply Forall_cons in Hall as [(db_type & Htype' & Ntype) _].
        exists host, database, user, password, schema, port, db_type.
        repeat (split; [done|]).
        split; [destruct Htype; [left | right]; congruence|].
        unfold Upload.endpoint, Upload.queryParams, Upload.dbType,
          Upload.orDefault.
        cbn [fmap list_fmap].
        rewrite Hhost, Hdatabase, Huser, Hpassword, Hschema, Hport, Htype'.
        destruct host, database, user, password, schema, port, db_type; done.
  - split; [done | by intros cs'].
Qed.

Example connect_rejected_then_push :
  let post := fun _ _ : string => PostStatus false None in
  let parse := fun _ : string => ParseCredentials.Threw "bad gateway" in
  handlePushToMyDb parse (fun _ => true)
    (connectAll post "s" [("postgres://u:p@h/db", ""); ("", "")]
       (initialState None))
  = ParseFailed "Failed to parse database credentials: bad gateway".
Proof. reflexivity. Qed.

(** With a password that the engine takes for no regular expression, such
    as one with an open parenthesis, nothing is uploaded. *)
Example push_with_open_parenthesis (validPattern : string -> bool) :
  let c : gmap string string :=
    <["host" := "db.example.com"]> (<["database" := "shop"]>
    (<["user" := "ann"]> (<["password" := "s3(cret"]> (<["schema" := "public"]>
    (<["port" := "3306"]> (<["db_type" := "mysql"]> ∅)))))) in
  validPattern "s3(cret" = false ->
  handlePushToMyDb (fun _ => ParseCredentials.Content c) validPattern
    (connectAll (fun _ _ => PostFailed) "s" [("mysql://ann@db.example.com", "")]
       (initialState None))
  = PatternFailed "s3(cret".
Proof.
  intros c H. vm_compute. by rewrite H.
Qed.

End Connect.

(* ===================================================================== *)
(** * The questions of the file analyses                                  *)
(* ===================================================================== *)

(** [handleAnalyzeData], [handleCustomAnalysis],
    [handleCustomStructureAnalysis] and [handleQuickAnalysis] build the
    question they post from the text of the file in the same way; they
    differ in the prompt and in the end of the slice of sample rows, the
    two arguments of [formattedData].  The file is always read as separated
    by vertical bars. *)
Module FileAnalysis.

Import SchemaAnalysis Numerals.

Definition newline : string := String Js.LF EmptyString.

(** [text.split('\n').filter(row => row.trim())] *)
Definition rows (text : string) : list string :=
  List.filter (fun row => Js.truthy (Js.trim row)) (Js.split Js.LF text).

(** [l.slice(first, last)] for [first <= last]. *)
Definition slice {A : Type} (first last : nat) (l : list A) : list A :=
  take (last - first) (drop first l).

(** [l.join(' | ')] *)
Fixpoint joinBar (l : list string) : string :=
  match l with
  | [] => EmptyString
  | [x] => x
  | x :: r => x +:+ " | " +:+ joinBar r
  end.

(** The elements of an array with their indices, as [forEach] passes them. *)
Definition entries {A : Type} (l : list A) : list (nat * A) := imap pair l.

(** [values[i]?.trim() || 'N/A'] *)
Definition cell (values : list string) (i : nat) : string :=
  match values !! i with
  | Some v => if Js.truthy (Js.trim v) then Js.trim v else "N/A"
  | None => "N/A"
  end.

Definition fieldLine (values : list string) (ih : nat * string) : string :=
  Js.trim ih.2 +:+ ": " +:+ cell values ih.1.

Definition rowLine (index : nat) : string :=
  "Row " +:+ decimal (N.of_nat (index + 1)) +:+ ":".

(** The body of [headers.forEach((header, i) => ...)]. *)
Definition addField (values : list string) (formattedData : string)
    (ih : nat * string) : string :=
  formattedData +:+ (fieldLine values ih +:+ newline).

(** The body of [rows.slice(1, last).forEach((row, index) => ...)]. *)
Definition addRow (headers : list string) (formattedData : string)
    (ir : nat * string) : string :=
  let values := Js.split "|" ir.2 in
  let formattedData := formattedData +:+ (rowLine ir.1 +:+ newline) in
  let formattedData := foldl (addField values) formattedData (entries headers) in
  formattedData +:+ ("---" +:+ newline).

Definition formattedData (prompt : string) (last : nat) (text : string)
    : outcome string :=
  let rows := rows text in
  match rows with
  | [] => Thrown TypeError
  | row0 :: _ =>
      let headers := Js.split "|" row0 in
      let formattedData :=
        prompt +:+ newline +:+ newline +:+ "Dataset Structure:" +:+ newline in
      let formattedData :=
        formattedData +:+ ("Headers: " +:+ joinBar headers +:+ newline +:+ newline) in
      let formattedData := formattedData +:+ ("Sample Data:" +:+ newline) in
      Done (foldl (addRow headers) formattedData (entries (slice 1 last rows)))
  end.

(** The prompts of the two analyses that are not given one. *)
Definition DEFAULT_ANALYSIS_PROMPT : string :=
  "Analyze this dataset and provide detailed insights. 
The report must begin with a Main Heading, followed by a few introductory lines providing context to the analysis. Make sure that the main heading is relevant to the analysis and something that creates interest in the reader. When presenting large numbers, convert them into millions or thousands for readability. Quote specific numbers from the attached data in your analysis, but DO NOT do any calculations like averages, min, max, ratios etc as with a text prompt data these sort of calculations are likely to go wrong, hence stick to quoting numbers directly available in the data only. Please note : DO NOT DO ANY CALCULATIONS..

Then, structure the report using the following sections and subsections
      1. Key Insights & Patterns
      - Major trends and patterns
      - Significant correlations
      - Anomalies or outliers
      - Seasonal patterns (if applicable)

      2. Analytics Use Cases. Share 3 use cases for each sub-section
      - Potential predictive modeling opportunities
      - Segmentation possibilities
      - Optimization scenarios
      - ROI estimates for proposed solutions
      - Cost Saving Use cases.
      - Revenue enhancement use cases
      - Further analysis suggestions".

Definition DEFAULT_STRUCTURE_PROMPT : string :=
  "Analyze the structure and content of the dataset based on this sample. 
Your analysis should focus exclusively on understanding the data structure and not interpreting or analyzing the data values themselves.
Start with a relevant main H1 heading. Followed by a paragraph that describes the dataset on a high level, and then go into the sections below.

Requirements:

1. Column Analysis
   - Describe what each column represents based on its name
   - Identify the data types contained in each column
   - Note any naming conventions or potential redundancies
Identify the level of granularity of the data (e.g., daily transactions vs. monthly summaries
- Assess if the data has a temporal element 


2. Data Quality Assessment
   - Identify any missing values or potential data integrity issues
   - Note any apparent data format inconsistencies
   - Highlight potential data quality concerns

3. Structural Relationships
   - Identify any apparent relationships between columns
   - Note hierarchical data structures if present
   - Identify primary and foreign key candidates
- Assess if the data has a temporal element 

4. Technical Recommendations
   - Suggest data type optimizations
   - Recommend index candidates
   - Propose normalization opportunities
   - Suggest potential data transformations needed;

5. Suggest potential use cases for this dataset within analytics and data science applications, with a particular focus on revenue enhancement or cost-saving opportunities.Share seven use cases.".

(** The question of [handleAnalyzeData]: the first five rows. *)
Definition structureQuestion (text : string) : outcome string :=
  formattedData DEFAULT_STRUCTURE_PROMPT 6 text.

(** The question of [handleCustomStructureAnalysis]: the first ten rows. *)
Definition customStructureQuestion (customPrompt text : string)
    : outcome string :=
  formattedData customPrompt 11 text.

(** The question of [handleQuickAnalysis]: the first 99 rows. *)
Definition quickQuestion (text : string) : outcome string :=
  formattedData DEFAULT_ANALYSIS_PROMPT 100 text.

(** The question of [handleCustomAnalysis]: the first 99 rows. *)
Definition customQuestion (customPrompt text : string) : outcome string :=
  formattedData customPrompt 100 text.

(** What stands in front of the sample rows. *)
Definition preamble (prompt row0 : string) : string :=
  prompt +:+ newline +:+ newline +:+ "Dataset Structure:" +:+ newline
  +:+ "Headers: " +:+ joinBar (Js.split "|" row0) +:+ newline +:+ newline
  +:+ "Sample Data:" +:+ newline.

(** The lines written for one sample row. *)
Definition blockLines (headers : list string) (ir : nat * string)
    : list string :=
  rowLine ir.1 :: (fieldLine (Js.split "|" ir.2) <$> entries headers) ++ ["---"].

(** Lines, each one ended by a line feed. *)
Fixpoint ended (l : list string) : string :=
  match l with
  | [] => EmptyString
  | x :: r => x +:+ newline +:+ ended r
  end.

Section Facts.

Implicit Types (s t : string) (l : list string).

Lemma ended_app l1 l2 : ended (l1 ++ l2) = ended l1 +:+ ended l2.
Proof.
  induction l1 as [|x r IH]; [done|].
  simpl. by rewrite IH, !string_app_assoc.
Qed.

Lemma foldl_addField values (hs : list (nat * string)) s :
  foldl (addField values) s hs = s +:+ ended (fieldLine values <$> hs).
Proof.
  revert s. induction hs as [|h r IH]; intros s.
  - simpl. by rewrite string_app_nil.
  - rewrite fmap_cons. simpl. rewrite IH. unfold addField.
    by rewrite !string_app_assoc.
Qed.

Lemma addRow_ended headers s (ir : nat * string) :
  addRow headers s ir = s +:+ ended (blockLines headers ir).
Proof.
  unfold addRow, blockLines. rewrite foldl_addField.
  cbn [ended]. rewrite ended_app.
  change (ended ["---"]) with ("---" +:+ newline).
  by rewrite !string_app_assoc.
Qed.

Lemma foldl_addRow headers (rs : list (nat * string)) s :
  foldl (addRow headers) s rs = s +:+ ended (concat (blockLines headers <$> rs)).
Proof.
  revert s. induction rs as [|ir r IH]; intros s.
  - simpl. by rewrite string_app_nil.
  - rewrite fmap_cons. cbn [foldl concat]. rewrite IH, addRow_ended, ended_app.
    by rewrite string_app_assoc.
Qed.


Lemma Forall_filter_list {A : Type} (P : A -> Prop) (f : A -> bool) (l : list A) :
  Forall P l -> Forall (fun x => P x /\ f x = true) (List.filter f l).
Proof.
  induction 1 as [|x r Hx Hr IH]; [constructor|].
  cbn [List.filter]. destruct (f x) eqn:E; [by constructor|done].
Qed.




Lemma snd_entries {A : Type} (l : list A) : snd <$> entries l = l.
Proof.
  unfold entries.
  change (@pair nat A) with (fun i : nat => @pair nat A (id i)).
  generalize (@id nat).
  induction l as [|x r IH]; intros f; [done|].
  cbn [imap]. rewrite fmap_cons. f_equal. apply (IH (f ∘ S)).
Qed.


Lemma Forall_entries {A : Type} (P : A -> Prop) (l : list A) :
  Forall P l -> Forall (fun ix => P ix.2) (entries l).
Proof.
  intros H. apply (Forall_fmap snd P). by rewrite snd_entries.
Qed.




Lemma split_free_other sep c s :
  Js.countChar c s = 0 -> Forall (fun f => Js.countChar c f = 0) (Js.split sep s).
Proof.
  intros H. eapply Forall_impl; [apply (split_fields_le sep c s)|].
  simpl. intros f Hf. lia.
Qed.





Lemma formattedData_rows prompt last text row0 rest :
  rows text = row0 :: rest ->
  formattedData prompt last text
  = Done (preamble prompt row0
          +:+ ended (concat (blockLines (Js.split "|" row0)
                               <$> entries (take (last - 1) rest)))).
Proof.
  intros E. unfold formattedData. rewrite E.
  rewrite foldl_addRow. unfold slice, preamble. cbn [drop].
  by rewrite !string_app_assoc.
Qed.

End Facts.


(** A file without a vertical bar, such as a comma-separated one, is read
    as one column: each sample row is one field, named by the whole first
    line and holding the whole row, trimmed. *)
Theorem analysis_without_pipes (prompt : string) (last : nat)
    (text row0 : string) (rest : list string) :
  Js.countChar "|" text = 0 ->
  rows text = row0 :: rest ->
  formattedData prompt last text
  = Done (prompt +:+ newline +:+ newline +:+ "Dataset Structure:" +:+ newline
          +:+ "Headers: " +:+ row0 +:+ newline +:+ newline
          +:+ "Sample Data:" +:+ newline
          +:+ ended (concat ((fun ir => [rowLine ir.1;
                                          Js.trim row0 +:+ ": " +:+ Js.trim ir.2;
                                          "---"])
                               <$> entries (take (last - 1) rest)))).
Proof.
  intros Hbar E.
  rewrite (formattedData_rows prompt last text row0 rest E).
  pose proof (Forall_filter_list _ (fun row => Js.truthy (Js.trim row)) _
                (split_free_other Js.LF "|" text Hbar)) as Hrows.
  fold (rows text) in Hrows. rewrite E in Hrows.
  apply Forall_cons in Hrows as [[H0 _] Hrest].
  unfold preamble. rewrite (split_no_sep "|"%char row0 H0). cbn [joinBar].
  assert (Hblocks :
    blockLines [row0] <$> entries (take (last - 1) rest)
    = (fun ir => [rowLine ir.1; Js.trim row0 +:+ ": " +:+ Js.trim ir.2; "---"])
        <$> entries (take (last - 1) rest)).
  { apply Forall_fmap_ext_1.
    apply (Forall_take _ (last - 1)),
      (Forall_entries (fun r => Js.countChar "|" r = 0
                                /\ Js.truthy (Js.trim r) = true)) in Hrest.
    eapply Forall_impl; [exact Hrest|].
    intros [k r] [Hr Ht]. unfold blockLines, fieldLine, cell. simpl in *.
    rewrite (split_no_sep "|"%char r Hr). simpl. by rewrite Ht. }
  rewrite Hblocks. by rewrite !string_app_assoc.
Qed.

Lemma analysis_without_pipes_witness :
  let text := "name,age" +:+ newline +:+ newline +:+ " Ann,30 " +:+ newline in
  Js.countChar "|" text = 0 /\
  rows text = ["name,age"; " Ann,30 "] /\
  customStructureQuestion "Describe" text
  = Done ("Describe" +:+ newline +:+ newline +:+ "Dataset Structure:" +:+ newline
          +:+ "Headers: name,age" +:+ newline +:+ newline
          +:+ "Sample Data:" +:+ newline
          +:+ "Row 1:" +:+ newline
          +:+ "name,age: Ann,30" +:+ newline
          +:+ "---" +:+ newline).
Proof.
  split; [reflexivity|]. split; [reflexivity|].
  exact (analysis_without_pipes "Describe" 11
           ("name,age" +:+ newline +:+ newline +:+ " Ann,30 " +:+ newline)
           "name,age" [" Ann,30 "] eq_refl eq_refl).
Defined.

Example ragged_rows :
  let text := "id | name|city" +:+ newline +:+ "1|Ann" +:+ newline
              +:+ "2| |Oslo|x" +:+ newline in
  customStructureQuestion "P" text
  = Done (ended ["P"; ""; "Dataset Structure:"; "Headers: id  |  name | city"; "";
                 "Sample Data:";
                 "Row 1:"; "id: 1"; "name: Ann"; "city: N/A"; "---";
                 "Row 2:"; "id: 2"; "name: N/A"; "city: Oslo"; "---"]) /\
  structureQuestion (" " +:+ newline) = Thrown TypeError /\
  quickQuestion "" = Thrown TypeError /\
  customQuestion "P" "a" = Done (ended ["P"; ""; "Dataset Structure:";
                                        "Headers: a"; ""; "Sample Data:"]).
Proof. by repeat split. Qed.

End FileAnalysis.

(* ===================================================================== *)
(** * The markdown of a report                                            *)
(* ===================================================================== *)

(** [transformedMarkdown] of [handleGeneratePdf] and of
    [handleGenerateQuickAnalysisPdf], which differ in the content they
    read. *)
Module PdfMarkdown.

Import SchemaAnalysis Numerals.

Definition newline : string := String Js.LF EmptyString.

Definition quote : string := String "034" "".

Definition backslash : ascii := "092"%char.

(** [s.replace(/\\n/g, '\n')]: from left to right, each backslash that is
    followed by [n] becomes, with its [n], one line feed. *)
Fixpoint unescape (s : string) : string :=
  match s with
  | EmptyString => EmptyString
  | String c r =>
      match r with
      | String d r' =>
          if Ascii.eqb c backslash && Ascii.eqb d "n"%char
          then String Js.LF (unescape r')
          else String c (unescape r)
      | EmptyString => String c EmptyString
      end
  end.

(** [l.join('\n\n')] *)
Fixpoint joinBlank (l : list string) : string :=
  match l with
  | [] => EmptyString
  | [x] => x
  | x :: r => x +:+ newline +:+ newline +:+ joinBlank r
  end.

(** The lines of the content that are kept, trimmed. *)
Definition paragraphs (content : string) : list string :=
  List.filter Js.truthy (Js.trim <$> Js.split Js.LF (unescape content)).

Definition openingTag : string :=
  "<div class=" +:+ quote +:+ "content-wrapper" +:+ quote +:+ ">".

(** [transformedMarkdown], a template literal. *)
Definition transformedMarkdown (content : string) : string :=
  newline +:+ openingTag
  +:+ newline +:+ joinBlank (paragraphs content)
  +:+ newline +:+ "</div>".

(** Lines with an empty line between any two; one empty line for none. *)
Fixpoint spaced (l : list string) : list string :=
  match l with
  | [] => [EmptyString]
  | [x] => [x]
  | x :: r => x :: EmptyString :: spaced r
  end.

Definition startsWith (c : ascii) (s : string) : bool :=
  match s with
  | EmptyString => false
  | String a _ => Ascii.eqb a c
  end.

(** Whether a backslash followed by [n] occurs in [s]. *)
Fixpoint escaped (s : string) : bool :=
  match s with
  | EmptyString => false
  | String c r =>
      (Ascii.eqb c backslash && startsWith "n"%char r) || escaped r
  end.

Section Facts.

Implicit Types (s t : string) (l : list string) (c : ascii).

Lemma unescape_cons c r :
  unescape (String c r)
  = match r with
    | String d r' =>
        if Ascii.eqb c backslash && Ascii.eqb d "n"%char
        then String Js.LF (unescape r')
        else String c (unescape r)
    | EmptyString => String c EmptyString
    end.
Proof. reflexivity. Qed.

Lemma startsWith_unescape s :
  startsWith "n"%char (unescape s) = true -> startsWith "n"%char s = true.
Proof.
  destruct s as [|c [|d r]]; [done..|].
  rewrite unescape_cons.
  destruct (Ascii.eqb c backslash && Ascii.eqb d "n"%char); [|done].
  by vm_compute.
Qed.

(** No escape is left, and none is made. *)
Lemma escaped_unescape s : escaped (unescape s) = false.
Proof.
  assert (H : forall n s, String.length s <= n -> escaped (unescape s) = false).
  { clear s. induction n as [|n IH]; intros s Hn.
    - by destruct s; [|simpl in Hn; lia].
    - destruct s as [|c [|d r]]; [done| |].
      + simpl. by rewrite andb_false_r.
      + rewrite unescape_cons.
        destruct (Ascii.eqb c backslash && Ascii.eqb d "n"%char) eqn:E.
        * cbn [escaped]. rewrite IH by (simpl in Hn; lia).
          by vm_compute.
        * cbn [escaped]. rewrite IH by (cbn [String.length] in *; lia).
          rewrite orb_false_r. apply andb_false_iff.
          destruct (Ascii.eqb c backslash) eqn:Ec; [right|by left].
          simpl in E.
          destruct (startsWith "n"%char (unescape (String d r))) eqn:Es; [|done].
          apply startsWith_unescape in Es. simpl in Es. congruence. }
  by apply (H (String.length s)).
Qed.

(** A line feed between two texts keeps them apart. *)
Lemma escaped_app_newline s t :
  escaped (s +:+ String Js.LF t) = escaped s || escaped t.
Proof.
  induction s as [|c r IH]; [done|].
  rewrite append_cons. cbn [escaped]. rewrite IH, orb_assoc.
  assert (Hn : startsWith "n"%char (r +:+ String Js.LF t) = startsWith "n"%char r)
    by by destruct r.
  by rewrite Hn.
Qed.

Lemma startsWith_first_field c sep s :
  startsWith c (hd EmptyString (Js.split sep s)) = true -> startsWith c s = true.
Proof.
  destruct s as [|a r]; [done|]. simpl.
  destruct (Ascii.eqb a sep); [done|].
  by destruct (Js.split sep r).
Qed.

Lemma escaped_split sep s :
  escaped s = false -> Forall (fun f => escaped f = false) (Js.split sep s).
Proof.
  induction s as [|a r IH]; intros H; [by repeat constructor|].
  cbn [escaped] in H. apply orb_false_iff in H as [Ha Hr].
  specialize (IH Hr). simpl.
  destruct (Ascii.eqb a sep); [by constructor|].
  pose proof (startsWith_first_field "n"%char sep r) as Hf.
  destruct (Js.split sep r) as [|f fs]; [by repeat constructor; simpl; rewrite andb_false_r|].
  apply Forall_cons in IH as [Hef Hfs].
  constructor; [|done]. cbn [escaped]. rewrite Hef, orb_false_r.
  apply andb_false_iff. apply andb_false_iff in Ha as [Ha | Ha]; [by left|right].
  simpl in Hf. destruct (startsWith "n"%char f); [|done].
  by rewrite Hf in Ha.
Qed.

Lemma escaped_trimStart s : escaped s = false -> escaped (Js.trimStart s) = false.
Proof.
  induction s as [|a r IH]; intros H; [done|].
  simpl. destruct (Js.isWhiteSpace a); [|done].
  cbn [escaped] in H. apply orb_false_iff in H as [_ Hr]. by apply IH.
Qed.

Lemma startsWith_trimEnd c s :
  startsWith c (Js.trimEnd s) = true -> startsWith c s = true.
Proof.
  destruct s as [|a r]; [done|]. simpl.
  by destruct (Js.isWhiteSpace a && Js.isEmpty (Js.trimEnd r)).
Qed.

Lemma escaped_trimEnd s : escaped s = false -> escaped (Js.trimEnd s) = false.
Proof.
  induction s as [|a r IH]; intros H; [done|].
  cbn [escaped] in H. apply orb_false_iff in H as [Ha Hr].
  simpl. destruct (Js.isWhiteSpace a && Js.isEmpty (Js.trimEnd r)); [done|].
  cbn [escaped]. rewrite (IH Hr), orb_false_r.
  apply andb_false_iff. apply andb_false_iff in Ha as [Ha | Ha]; [by left|right].
  pose proof (startsWith_trimEnd "n"%char r) as Hf.
  destruct (startsWith "n"%char (Js.trimEnd r)); [|done].
  by rewrite Hf in Ha.
Qed.

Lemma escaped_trim s : escaped s = false -> escaped (Js.trim s) = false.
Proof. intros H. by apply escaped_trimEnd, escaped_trimStart. Qed.

Lemma Forall_filter_bool {A : Type} (P : A -> Prop) (f : A -> bool) (l : list A) :
  Forall P l -> Forall (fun x => P x /\ f x = true) (List.filter f l).
Proof.
  induction 1 as [|x r Hx Hr IH]; [constructor|].
  cbn [List.filter]. destruct (f x) eqn:E; [by constructor|done].
Qed.

(** What every kept line is: a trimmed, non-empty piece of one line, free
    of escapes. *)
Lemma paragraphs_spec content :
  Forall (fun p => (Js.countChar Js.LF p = 0 /\ Js.trim p = p /\ escaped p = false)
                   /\ Js.truthy p = true)
    (paragraphs content).
Proof.
  apply Forall_filter_bool, Forall_fmap.
  pose proof (split_fields_free Js.LF (unescape content)) as Hfree.
  pose proof (escaped_split Js.LF _ (escaped_unescape content)) as Hesc.
  eapply Forall_impl; [exact (proj2 (Forall_and _ _) (conj Hfree Hesc))|].
  simpl. intros f [Hf He]. split; [|split].
  - pose proof (countChar_trim_le Js.LF f). lia.
  - apply trim_idem.
  - by apply escaped_trim.
Qed.

Lemma newline_app s : newline +:+ s = String Js.LF s.
Proof. reflexivity. Qed.

Lemma split_newline s :
  Js.split Js.LF (String Js.LF s) = EmptyString :: Js.split Js.LF s.
Proof. reflexivity. Qed.

Lemma joinBlank_cons s l :
  l <> [] -> joinBlank (s :: l) = s +:+ newline +:+ newline +:+ joinBlank l.
Proof. by destruct l. Qed.

Lemma spaced_cons s l :
  l <> [] -> spaced (s :: l) = s :: EmptyString :: spaced l.
Proof. by destruct l. Qed.

Lemma split_joinBlank l t :
  Forall (fun p => Js.countChar Js.LF p = 0) l ->
  Js.split Js.LF (joinBlank l +:+ String Js.LF t) = spaced l ++ Js.split Js.LF t.
Proof.
  induction l as [|x r IH]; intros H.
  - done.
  - apply Forall_cons in H as [Hx Hr]. destruct r as [|y r'].
    + cbn [joinBlank spaced]. by rewrite split_sep_append.
    + rewrite joinBlank_cons, spaced_cons by done.
      rewrite !string_app_assoc, !newline_app.
      rewrite split_sep_append, split_newline by done.
      by rewrite IH.
Qed.

Lemma escaped_joinBlank l :
  Forall (fun p => escaped p = false) l -> escaped (joinBlank l) = false.
Proof.
  induction l as [|x r IH]; intros H; [done|].
  apply Forall_cons in H as [Hx Hr]. destruct r as [|y r']; [done|].
  rewrite joinBlank_cons by done. rewrite !newline_app.
  rewrite escaped_app_newline, Hx.
  change (escaped (String Js.LF ?u)) with (escaped u).
  by rewrite IH.
Qed.

End Facts.

(** The markdown sent to the PDF service, line by line: an empty line, the
    opening tag, the kept lines of the content with one empty line between
    any two, and the closing tag.  A kept line is never empty, has no white
    space at either end, and is one line. *)
Theorem pdf_markdown_paragraphs (content : string) :
  Js.split Js.LF (transformedMarkdown content)
  = EmptyString :: openingTag :: spaced (paragraphs content) ++ ["</div>"] /\
  Forall (fun p => p <> EmptyString /\ Js.trim p = p /\ Js.countChar Js.LF p = 0)
    (paragraphs content).
Proof.
  pose proof (paragraphs_spec content) as Hspec.
  split.
  - unfold transformedMarkdown.
    rewrite !newline_app, split_newline. f_equal.
    rewrite split_sep_append by done. f_equal.
    rewrite split_joinBlank; [done|].
    eapply Forall_impl; [exact Hspec|]. by intros p [[Hp _] _].
  - eapply Forall_impl; [exact Hspec|].
    intros p [(Hlf & Htrim & _) Hne]. split; [|done].
    by destruct p.
Qed.

(** No escape survives: the markdown sent to the PDF service never holds a
    backslash followed by [n], whatever the content. *)
Theorem pdf_markdown_has_no_escape (content : string) :
  escaped (transformedMarkdown content) = false.
Proof.
  unfold transformedMarkdown.
  rewrite !newline_app.
  change (escaped (String Js.LF ?u)) with (escaped u).
  rewrite !escaped_app_newline.
  rewrite escaped_joinBlank; [done|].
  eapply Forall_impl; [exact (paragraphs_spec content)|].
  by intros p [(_ & _ & Hp) _].
Qed.

Example markdown_of_report :
  let content := "# Sales\n\n  up 3%  " +:+ newline +:+ newline +:+ "a\b" in
  paragraphs content = ["# Sales"; "up 3%"; "a\b"] /\
  Js.split Js.LF (transformedMarkdown content)
  = [""; openingTag; "# Sales"; ""; "up 3%"; ""; "a\b"; "</div>"] /\
  paragraphs ("  " +:+ newline) = [] /\
  transformedMarkdown ("  " +:+ newline)
  = newline +:+ openingTag +:+ newline +:+ newline +:+ "</div>".
Proof. by repeat split. Qed.

End PdfMarkdown.
